(** * Astro plugin: configuration migration and solar scheduler

    A shallow embedding of [astro/configuration.py] and of the planning and
    dispatch code of [astro/main.py], with the properties of the
    specification stated and settled over it.

    Conventions of the embedding
    - Python values that travel through the JSON configuration document are
      the inductive [value]; JSON numbers with a fraction or an exponent are
      outside the model, text is ASCII.
    - A raised exception is the [Raise] branch of [result]; the class of the
      exception is kept ([ValueError] is what the specification calls
      ConfigError and FormatError).
    - A [float] is kept as the decimal literal it was converted from.
    - An aware [datetime] is the instant it denotes, in microseconds since
      the epoch; a [timedelta] is a number of microseconds.
    - Objects with state (the factory, the plugin, the wall clock) are
      records threaded through the functions that read and write them. *)

From stdpp Require Import gmap strings list fin_maps pretty.
From Stdlib Require Import Ascii ZArith Lia.

#[local] Set Warnings "-register-all".
#[local] Open Scope Z_scope.

(* ===================================================================== *)
(** * Python runtime: exceptions, values, coercions                       *)
(* ===================================================================== *)

Module Py.

Inductive exn : Type :=
  | ValueError
  | TypeError
  | KeyError
  | AttributeError
  | OverflowError
  | RuntimeError
  | ConnectionError
  | ImportError.

Inductive result (A : Type) : Type :=
  | Ok (a : A)
  | Raise (e : exn).
Arguments Ok {A} a.
Arguments Raise {A} e.

Definition bind {A B : Type} (m : result A) (f : A -> result B) : result B :=
  match m with
  | Ok a => f a
  | Raise e => Raise e
  end.

Definition returns {A : Type} (m : result A) : Prop := exists a, m = Ok a.

(** [for x in xs: acc = body(acc, x)] with the first exception ending the loop. *)
Fixpoint foldM {A S : Type} (body : S -> A -> result S) (xs : list A) (acc : S)
  : result S :=
  match xs with
  | [] => Ok acc
  | x :: rest => bind (body acc x) (foldM body rest)
  end.

(** A list comprehension [[f(x) for x in xs]]. *)
Fixpoint mapM {A B : Type} (f : A -> result B) (xs : list A) : result (list B) :=
  match xs with
  | [] => Ok []
  | x :: rest => bind (f x) (fun y => bind (mapM f rest) (fun ys => Ok (y :: ys)))
  end.

(** The two enumerations whose members are stored in job objects. *)
Inductive SunLocation : Type :=
  | SOLAR_NOON
  | SUNSET
  | CIVIL_DAWN
  | NAUTICAL_DAWN
  | ASTRONOMICAL_DAWN
  | ASTRONOMICAL_DUSK
  | NAUTICAL_DUSK
  | CIVIL_DUSK
  | SUNRISE.

Inductive ValidationJobAction : Type :=
  | SET
  | CLEAR.

#[export] Instance SunLocation_eq_dec : EqDecision SunLocation.
Proof. solve_decision. Defined.

(** Python objects that occur in configuration documents and job fields. *)
Inductive value : Type :=
  | VNone
  | VBool (b : bool)
  | VInt (z : Z)
  | VStr (s : string)
  | VList (l : list value)
  | VDict (d : gmap string value)
  | VSun (m : SunLocation)
  | VAct (m : ValidationJobAction).

(** Truth value of an object ([if x], [not x], [x or y]). *)
Definition truthy (v : value) : bool :=
  match v with
  | VNone => false
  | VBool b => b
  | VInt z => negb (z =? 0)
  | VStr s => negb (String.eqb s "")
  | VList l => match l with [] => false | _ :: _ => true end
  | VDict d => negb (bool_decide (dom d = ∅))
  | VSun _ => true
  | VAct _ => true
  end.

(** [x or y] *)
Definition py_or (x y : value) : value := if truthy x then x else y.

(** Characters: a character of a [str] is a code point below 256. The
    decimal digits among them are [0] to [9]. *)
Definition is_digit (c : ascii) : bool :=
  let n := N_of_ascii c in ((48 <=? n) && (n <=? 57))%N.

Definition digit_val (c : ascii) : Z := Z.of_N (N_of_ascii c) - 48.

(** The blanks [int()] and [float()] strip from a [str]: tab to carriage
    return and the space, and the two blanks above 127, next line and
    no-break space, which the conversion turns into spaces first. The
    separators 28 to 31 are not among them, although [str.strip] removes
    them. *)
Definition is_space (c : ascii) : bool :=
  let n := N_of_ascii c in
  (((9 <=? n) && (n <=? 13)) || (n =? 32) || (n =? 133) || (n =? 160))%N.

Fixpoint lstrip (s : string) : string :=
  match s with
  | String c r => if is_space c then lstrip r else s
  | EmptyString => EmptyString
  end.

Fixpoint rstrip (s : string) : string :=
  match s with
  | String c r =>
      match rstrip r with
      | EmptyString => if is_space c then EmptyString else String c EmptyString
      | r' => String c r'
      end
  | EmptyString => EmptyString
  end.

Definition strip (s : string) : string := rstrip (lstrip s).

(** Digits of an integer literal; single underscores may separate digits.
    [prev] tells whether the previous character was a digit. *)
Fixpoint int_digits (s : string) (acc : Z) (prev : bool) : option Z :=
  match s with
  | EmptyString => if prev then Some acc else None
  | String c r =>
      if is_digit c then int_digits r (10 * acc + digit_val c) true
      else if Ascii.eqb c "_" then (if prev then int_digits r acc false else None)
      else None
  end.

(** The number of digits of a literal, underscores apart. *)
Fixpoint count_digits (s : string) : Z :=
  match s with
  | EmptyString => 0
  | String c r => (if is_digit c then 1 else 0) + count_digits r
  end.

(** [sys.get_int_max_str_digits()], at its default. *)
Definition int_max_str_digits : Z := 4300.

(** The digits of a literal without its sign: a literal of more than
    [int_max_str_digits] digits is a [ValueError] like one that is
    malformed. *)
Definition int_literal (s : string) : result Z :=
  match int_digits s 0 false with
  | Some z => if int_max_str_digits <? count_digits s then Raise ValueError else Ok z
  | None => Raise ValueError
  end.

(** [int(s)] for a [str] in base ten. *)
Definition int_of_str (s : string) : result Z :=
  match strip s with
  | String "-" r => bind (int_literal r) (fun z => Ok (- z))
  | String "+" r => int_literal r
  | t => int_literal t
  end.

(** [int(x)] *)
Definition py_int (v : value) : result Z :=
  match v with
  | VInt z => Ok z
  | VBool b => Ok (if b then 1 else 0)
  | VStr s => int_of_str s
  | _ => Raise TypeError
  end.

(** [x >= 0] and [x < 0]: defined on numbers, [TypeError] elsewhere. *)
Definition py_ge0 (v : value) : result bool :=
  match v with
  | VInt z => Ok (0 <=? z)
  | VBool _ => Ok true
  | _ => Raise TypeError
  end.

Definition py_lt0 (v : value) : result bool :=
  match v with
  | VInt z => Ok (z <? 0)
  | VBool _ => Ok false
  | _ => Raise TypeError
  end.

(** Unary minus. *)
Definition py_neg (v : value) : result value :=
  match v with
  | VInt z => Ok (VInt (- z))
  | VBool b => Ok (VInt (if b then -1 else 0))
  | _ => Raise TypeError
  end.

(** [isinstance(x, str)] *)
Definition is_str (v : value) : bool :=
  match v with VStr _ => true | _ => false end.

(** [d.get(k)] and [d.get(k, default)] on a [dict]. *)
Definition dict_get (d : gmap string value) (k : string) (default : value) : value :=
  match d !! k with
  | Some v => v
  | None => default
  end.

(** [k in d] *)
Definition dict_has (d : gmap string value) (k : string) : bool :=
  match d !! k with Some _ => true | None => false end.

(** [x[k]] with a [str] key. *)
Definition subscript (v : value) (k : string) : result value :=
  match v with
  | VDict d => match d !! k with Some x => Ok x | None => Raise KeyError end
  | _ => Raise TypeError
  end.

(** [x.get(k)]: only a [dict] has the method. *)
Definition method_get (v : value) (k : string) : result value :=
  match v with
  | VDict d => Ok (dict_get d k VNone)
  | _ => Raise AttributeError
  end.

(** The elements [for x in v] visits. Characters of a string are
    one-character strings, a dict yields its keys. *)
Fixpoint chars (s : string) : list value :=
  match s with
  | EmptyString => []
  | String c r => VStr (String c EmptyString) :: chars r
  end.

Definition iterate (v : value) : result (list value) :=
  match v with
  | VList l => Ok l
  | VStr s => Ok (chars s)
  | VDict d => Ok (map (fun kv => VStr (fst kv)) (map_to_list d))
  | _ => Raise TypeError
  end.

(** A [float], kept as the decimal literal it was converted from. *)
Inductive pyfloat : Type :=
  | FloatLit (literal : string).

(** One or more digits, then the rest. *)
Fixpoint all_digits (s : string) : bool :=
  match s with
  | EmptyString => true
  | String c r => is_digit c && all_digits r
  end.

Fixpoint digits_dot_digits (s : string) (seen : bool) : bool :=
  match s with
  | EmptyString => false
  | String c r =>
      if is_digit c then digits_dot_digits r true
      else if Ascii.eqb c "." then
        seen && all_digits r && negb (String.eqb r "")
      else false
  end.

(** [float(s)] on the literals of the shape [[+-]digits.digits]; the other
    spellings Python accepts (exponents, [inf], [nan], underscores, a bare
    integer) do not reach the call in this program and are not modelled:
    they are reported as [ValueError]. *)
Definition float_of_str (s : string) : result pyfloat :=
  let t := strip s in
  let body := match t with
              | String c r => if Ascii.eqb c "-" || Ascii.eqb c "+" then r else t
              | EmptyString => t
              end in
  if digits_dot_digits body false then Ok (FloatLit t) else Raise ValueError.

(** [c in s] and [s.replace(a, b)] for single characters. *)
Fixpoint str_contains (c : ascii) (s : string) : bool :=
  match s with
  | EmptyString => false
  | String x r => Ascii.eqb x c || str_contains c r
  end.

Fixpoint str_replace (a b : ascii) (s : string) : string :=
  match s with
  | EmptyString => EmptyString
  | String x r => String (if Ascii.eqb x a then b else x) (str_replace a b r)
  end.

End Py.

(* ===================================================================== *)
(** * The fragment of [re] used by the coordinate pattern                 *)
(* ===================================================================== *)

Module Re.

(** One-character matchers. [CDot] is [.] without DOTALL: any character
    but a newline. *)
Inductive cclass : Type :=
  | CChar (c : ascii)
  | CSet (cs : list ascii)
  | CDigit
  | CDot.

Definition newline : ascii := ascii_of_N 10.

Definition accepts (cl : cclass) (c : ascii) : bool :=
  match cl with
  | CChar x => Ascii.eqb c x
  | CSet cs => existsb (Ascii.eqb c) cs
  | CDigit => Py.is_digit c
  | CDot => negb (Ascii.eqb c newline)
  end.

(** Patterns. Repetition is only ever applied to a one-character matcher:
    [ROpt] is the greedy [x?], [RPlus] the greedy [x+], [RStarLazy] the
    reluctant [x*?]. [RBegin] is [^], [REnd] is [$]. *)
Inductive regex : Type :=
  | RBegin
  | REnd
  | ROne (cl : cclass)
  | ROpt (cl : cclass)
  | RPlus (cl : cclass)
  | RStarLazy (cl : cclass)
  | RGroup (n : nat) (r : regex)
  | RSeq (r1 r2 : regex).

(** Every character of the text is accepted by the matcher. *)
Fixpoint all_accepted (cl : cclass) (s : string) : bool :=
  match s with
  | EmptyString => true
  | String c r => accepts cl c && all_accepted cl r
  end.

(** Captured groups: group number and captured text, latest first. *)
Definition captures : Type := list (nat * string).

Fixpoint group (n : nat) (caps : captures) : option string :=
  match caps with
  | [] => None
  | (m, t) :: rest => if Nat.eqb m n then Some t else group n rest
  end.

(** The first [n] characters of [s]. *)
Fixpoint take_str (n : nat) (s : string) : string :=
  match n, s with
  | S m, String c r => String c (take_str m r)
  | _, _ => EmptyString
  end.

(** A backtracking matcher in continuation-passing style: [k pos rest caps]
    is the rest of the pattern, run at offset [pos] on the remaining text.
    The first alternative that lets the continuation succeed wins, which is
    the priority order of the [re] engine. *)
Section Engine.
Context {R : Type}.

(** greedy [x*]: take one more character first, give it back on failure *)
Fixpoint star_greedy (cl : cclass) (k : nat -> string -> option R)
    (pos : nat) (s : string) : option R :=
  match s with
  | String c r =>
      if accepts cl c then
        match star_greedy cl k (S pos) r with
        | Some x => Some x
        | None => k pos s
        end
      else k pos s
  | EmptyString => k pos s
  end.

(** reluctant [x*?]: try the continuation first, take a character on failure *)
Fixpoint star_lazy (cl : cclass) (k : nat -> string -> option R)
    (pos : nat) (s : string) : option R :=
  match k pos s with
  | Some x => Some x
  | None =>
      match s with
      | String c r => if accepts cl c then star_lazy cl k (S pos) r else None
      | EmptyString => None
      end
  end.
End Engine.

Fixpoint rmatch (r : regex) (pos : nat) (s : string) (caps : captures)
    (k : nat -> string -> captures -> option captures) : option captures :=
  match r with
  | RBegin => if Nat.eqb pos 0 then k pos s caps else None
  | REnd =>
      match s with
      | EmptyString => k pos s caps
      | String c EmptyString => if Ascii.eqb c newline then k pos s caps else None
      | _ => None
      end
  | ROne cl =>
      match s with
      | String c rest => if accepts cl c then k (S pos) rest caps else None
      | EmptyString => None
      end
  | ROpt cl =>
      match s with
      | String c rest =>
          if accepts cl c then
            match k (S pos) rest caps with
            | Some x => Some x
            | None => k pos s caps
            end
          else k pos s caps
      | EmptyString => k pos s caps
      end
  | RPlus cl =>
      match s with
      | String c rest =>
          if accepts cl c
          then star_greedy cl (fun p t => k p t caps) (S pos) rest
          else None
      | EmptyString => None
      end
  | RStarLazy cl => star_lazy cl (fun p t => k p t caps) pos s
  | RGroup n body =>
      rmatch body pos s caps
        (fun p t c => k p t ((n, take_str (p - pos) s) :: c))
  | RSeq r1 r2 =>
      rmatch r1 pos s caps (fun p t c => rmatch r2 p t c k)
  end.

(** [re.match(pattern, text)]: the pattern is tried at offset 0 only and
    need not consume the whole text. *)
Definition re_match (pattern : regex) (text : string) : option captures :=
  rmatch pattern 0%nat text [] (fun _ _ c => Some c).

(** What it means for a pattern to match, told without an engine. A state
    is an offset, the text from that offset on, and the groups captured so
    far. *)
Inductive star_run (cl : cclass) : nat -> string -> nat -> string -> Prop :=
  | star_stop (p : nat) (s : string) : star_run cl p s p s
  | star_more (p : nat) (c : ascii) (s : string) (p' : nat) (s' : string) :
      accepts cl c = true ->
      star_run cl (S p) s p' s' ->
      star_run cl p (String c s) p' s'.

Inductive matches :
  regex -> nat -> string -> captures -> nat -> string -> captures -> Prop :=
  | m_begin (s : string) (c : captures) :
      matches RBegin 0 s c 0 s c
  | m_end (p : nat) (c : captures) :
      matches REnd p EmptyString c p EmptyString c
  | m_end_newline (p : nat) (c : captures) :
      matches REnd p (String newline EmptyString) c p (String newline EmptyString) c
  | m_one (cl : cclass) (ch : ascii) (p : nat) (s : string) (c : captures) :
      accepts cl ch = true ->
      matches (ROne cl) p (String ch s) c (S p) s c
  | m_opt_skip (cl : cclass) (p : nat) (s : string) (c : captures) :
      matches (ROpt cl) p s c p s c
  | m_opt_take (cl : cclass) (ch : ascii) (p : nat) (s : string) (c : captures) :
      accepts cl ch = true ->
      matches (ROpt cl) p (String ch s) c (S p) s c
  | m_plus (cl : cclass) (ch : ascii) (p : nat) (s : string) (p' : nat)
      (s' : string) (c : captures) :
      accepts cl ch = true ->
      star_run cl (S p) s p' s' ->
      matches (RPlus cl) p (String ch s) c p' s' c
  | m_star (cl : cclass) (p : nat) (s : string) (p' : nat) (s' : string)
      (c : captures) :
      star_run cl p s p' s' ->
      matches (RStarLazy cl) p s c p' s' c
  | m_group (n : nat) (r : regex) (p : nat) (s : string) (c : captures)
      (p' : nat) (s' : string) (c' : captures) :
      matches r p s c p' s' c' ->
      matches (RGroup n r) p s c p' s' ((n, take_str (p' - p) s) :: c')
  | m_seq (r1 r2 : regex) (p : nat) (s : string) (c : captures)
      (p1 : nat) (s1 : string) (c1 : captures)
      (p2 : nat) (s2 : string) (c2 : captures) :
      matches r1 p s c p1 s1 c1 ->
      matches r2 p1 s1 c1 p2 s2 c2 ->
      matches (RSeq r1 r2) p s c p2 s2 c2.

End Re.

(* ===================================================================== *)
(** * astro/configuration.py                                              *)
(* ===================================================================== *)

Module configuration.
Import Py.

Inductive ConfigurationVersion : Type :=
  | V3_0
  | V2_0
  | V1_0.

(** [SunLocation.X.value] *)
Definition sun_value (m : SunLocation) : string :=
  match m with
  | SOLAR_NOON => "solar noon"
  | SUNSET => "sunset"
  | CIVIL_DAWN => "civil dawn"
  | NAUTICAL_DAWN => "nautical dawn"
  | ASTRONOMICAL_DAWN => "astronomical dawn"
  | ASTRONOMICAL_DUSK => "astronomical dusk"
  | NAUTICAL_DUSK => "nautical dusk"
  | CIVIL_DUSK => "civil dusk"
  | SUNRISE => "sunrise"
  end.

Definition sun_members : list SunLocation :=
  [SOLAR_NOON; SUNSET; CIVIL_DAWN; NAUTICAL_DAWN; ASTRONOMICAL_DAWN;
   ASTRONOMICAL_DUSK; NAUTICAL_DUSK; CIVIL_DUSK; SUNRISE].

Definition action_value (m : ValidationJobAction) : string :=
  match m with
  | SET => "set"
  | CLEAR => "clear"
  end.

Definition version_value (m : ConfigurationVersion) : string :=
  match m with
  | V3_0 => "3.0"
  | V2_0 => "2.0"
  | V1_0 => "1.0"
  end.

(** Lookup of an enumeration member by value, in definition order. *)
Definition by_value {E : Type} (val : E -> string) (members : list E)
    (s : string) : option E :=
  find (fun m => String.eqb (val m) s) members.

(** [SunLocation(x)]: the member with that value; a member is returned as
    it is; anything else is a [ValueError]. *)
Definition SunLocation_call (v : value) : result SunLocation :=
  match v with
  | VSun m => Ok m
  | VStr s =>
      match by_value sun_value sun_members s with
      | Some m => Ok m
      | None => Raise ValueError
      end
  | _ => Raise ValueError
  end.

Definition ValidationJobAction_call (v : value) : result ValidationJobAction :=
  match v with
  | VAct m => Ok m
  | VStr s =>
      match by_value action_value [SET; CLEAR] s with
      | Some m => Ok m
      | None => Raise ValueError
      end
  | _ => Raise ValueError
  end.

Definition ConfigurationVersion_call (v : value) : result ConfigurationVersion :=
  match v with
  | VStr s =>
      match by_value version_value [V3_0; V2_0; V1_0] s with
      | Some m => Ok m
      | None => Raise ValueError
      end
  | _ => Raise ValueError
  end.

(** The dataclasses. Field annotations are not enforced by Python: a field
    holds whatever object was stored in it, so ids, offsets and sun
    locations are [value]s. *)
Record GroupActionJob : Type := mkGroupActionJob {
  group_action_id : value;
  ga_sun_location : value;
  ga_offset : value
}.

Record ValidationJob : Type := mkValidationJob {
  action : ValidationJobAction;
  bit_id : value;
  sun_location : value;
  offset : value
}.

Record Coordinates : Type := mkCoordinates {
  latitude : pyfloat;
  longitude : pyfloat
}.

(** [coordinates] is [None] when the field holds Python's [None]. *)
Record Configuration : Type := mkConfiguration {
  coordinates : option Coordinates;
  group_action_jobs : list GroupActionJob;
  validation_jobs : list ValidationJob;
  version : ConfigurationVersion
}.

(** The pattern of [Coordinates.from_string]:
    [^(-?\d+[\.,]\d+).*?[;,/].*?(-?\d+[\.,]\d+)$] *)
Definition number_pattern : Re.regex :=
  Re.RSeq (Re.ROpt (Re.CChar "-"))
    (Re.RSeq (Re.RPlus Re.CDigit)
       (Re.RSeq (Re.ROne (Re.CSet ["."; ","]%char)) (Re.RPlus Re.CDigit))).

Definition coordinates_pattern : Re.regex :=
  Re.RSeq Re.RBegin
    (Re.RSeq (Re.RGroup 1 number_pattern)
       (Re.RSeq (Re.RStarLazy Re.CDot)
          (Re.RSeq (Re.ROne (Re.CSet [";"; ","; "/"]%char))
             (Re.RSeq (Re.RStarLazy Re.CDot)
                (Re.RSeq (Re.RGroup 2 number_pattern) Re.REnd))))).

(** [match.group(n)] of a group that took part in the match. *)
Definition match_group (caps : Re.captures) (n : nat) : string :=
  match Re.group n caps with
  | Some t => t
  | None => EmptyString
  end.

Definition normalize_decimal (t : string) : string :=
  if str_contains "," t then str_replace "," "." t else t.

(** [Coordinates.from_string] on a [str]. *)
Definition from_string_str (coord_str : string) : result Coordinates :=
  if String.eqb coord_str "" then
    Ok (mkCoordinates (FloatLit "0.0") (FloatLit "0.0"))
  else
    match Re.re_match coordinates_pattern coord_str with
    | Some caps =>
        let latitude := normalize_decimal (match_group caps 1) in
        let longitude := normalize_decimal (match_group caps 2) in
        bind (float_of_str latitude) (fun lat =>
        bind (float_of_str longitude) (fun lon =>
        Ok (mkCoordinates lat lon)))
    | None => Raise ValueError
    end.

(** [Coordinates.from_string] on any object: [re.match] refuses what is not
    a [str]. *)
Definition from_string (coord_str : value) : result Coordinates :=
  match coord_str with
  | VStr s => from_string_str s
  | _ => Raise TypeError
  end.

(** [ConfigurationFactory._determine_configuration_version] *)
Definition _determine_configuration_version (config_data : gmap string value)
  : result ConfigurationVersion :=
  if dict_has config_data "version" then
    ConfigurationVersion_call (dict_get config_data "version" VNone)
  else if dict_has config_data "basic_configuration"
          && dict_has config_data "advanced_configuration" then
    Ok V2_0
  else Ok V1_0.

Definition version_eqb (a b : ConfigurationVersion) : bool :=
  match a, b with
  | V3_0, V3_0 | V2_0, V2_0 | V1_0, V1_0 => true
  | _, _ => false
  end.

(** The job lists a migration is filling. *)
Definition job_lists : Type := (list GroupActionJob * list ValidationJob)%type.

(** The five roles of a version 1.0 document, as the tuples the loop of
    [_migrate_configuration_v1] runs over: bit, start, stop, account_offset. *)
Definition v1_roles (horizon civil nautical astronomical bright : value)
  : list (value * SunLocation * SunLocation * bool) :=
  [ (horizon, SUNRISE, SUNSET, false);
    (civil, CIVIL_DAWN, CIVIL_DUSK, false);
    (nautical, NAUTICAL_DAWN, NAUTICAL_DUSK, false);
    (astronomical, ASTRONOMICAL_DAWN, ASTRONOMICAL_DUSK, false);
    (bright, SUNRISE, SUNSET, true) ].

(** [bright_offset if account_offset else 0] and
    [-bright_offset if account_offset else 0] *)
Definition start_offset (bright_offset : value) (account_offset : bool) : value :=
  if account_offset then bright_offset else VInt 0.

Definition stop_offset (bright_offset : value) (account_offset : bool)
  : result value :=
  if account_offset then py_neg bright_offset else Ok (VInt 0).

(** One pass of the loop body of [_migrate_configuration_v1]; the four
    [append]s happen in the order of the source, each after its arguments
    were evaluated. *)
Definition v1_role_step (bright_offset group_action_id : value)
    (acc : job_lists) (role : value * SunLocation * SunLocation * bool)
  : result job_lists :=
  let '(bit, start, stop, account_offset) := role in
  let '(group_action_jobs, validation_jobs) := acc in
  bind (py_ge0 bit) (fun enabled =>
  if enabled then
    let validation_jobs :=
      validation_jobs ++
        [mkValidationJob SET bit (VSun start) (start_offset bright_offset account_offset)] in
    bind (stop_offset bright_offset account_offset) (fun off =>
    let validation_jobs :=
      validation_jobs ++ [mkValidationJob CLEAR bit (VSun stop) off] in
    let group_action_jobs :=
      group_action_jobs ++
        [mkGroupActionJob group_action_id (VSun start)
           (start_offset bright_offset account_offset)] in
    bind (stop_offset bright_offset account_offset) (fun off' =>
    let group_action_jobs :=
      group_action_jobs ++ [mkGroupActionJob group_action_id (VSun stop) off'] in
    Ok (group_action_jobs, validation_jobs)))
  else Ok acc).

(** [ConfigurationFactory._migrate_configuration_v1] *)
Definition _migrate_configuration_v1 (config_data : gmap string value)
  : result Configuration :=
  bind (_determine_configuration_version config_data) (fun version =>
  if negb (version_eqb version V1_0) then Raise ValueError else
  let coordinates := dict_get config_data "coordinates" VNone in
  let horizon_bit_id := dict_get config_data "horizon_bit" (VInt (-1)) in
  let civil_bit_id := dict_get config_data "civil_bit" (VInt (-1)) in
  let nautical_bit_id := dict_get config_data "nautical_bit" (VInt (-1)) in
  let astronomical_bit_id := dict_get config_data "astronomical_bit" (VInt (-1)) in
  let bright_bit_id := dict_get config_data "bright_bit" (VInt (-1)) in
  let bright_offset := dict_get config_data "bright_offset" (VInt 0) in
  let group_action_id := dict_get config_data "group_action" (VInt (-1)) in
  if negb (truthy coordinates) then Raise ValueError else
  bind (from_string coordinates) (fun coordinates_parsed =>
  bind (foldM (v1_role_step bright_offset group_action_id)
          (v1_roles horizon_bit_id civil_bit_id nautical_bit_id
             astronomical_bit_id bright_bit_id)
          ([], []))
    (fun jobs =>
  Ok (mkConfiguration (Some coordinates_parsed) (fst jobs) (snd jobs) V3_0)))).

(** The element expression of the first comprehension of
    [_migrate_configuration_v2] and [_migrate_configuration_v3]. *)
Definition group_action_job_of (job : value) : result GroupActionJob :=
  bind (subscript job "group_action_id") (fun id =>
  bind (subscript job "sun_location") (fun loc =>
  bind (SunLocation_call loc) (fun sun =>
  bind (subscript job "offset") (fun off =>
  bind (py_int (py_or off (VInt 0))) (fun n =>
  Ok (mkGroupActionJob id (VSun sun) (VInt n))))))).

(** The element expression of the second comprehension. *)
Definition validation_job_of (job : value) : result ValidationJob :=
  bind (subscript job "action") (fun a =>
  bind (ValidationJobAction_call a) (fun act =>
  bind (subscript job "bit_id") (fun id =>
  bind (subscript job "sun_location") (fun loc =>
  bind (SunLocation_call loc) (fun sun =>
  bind (subscript job "offset") (fun off =>
  bind (py_int (py_or off (VInt 0))) (fun n =>
  Ok (mkValidationJob act id (VSun sun) (VInt n))))))))).

(** The body shared, word for word, by [_migrate_configuration_v2] and
    [_migrate_configuration_v3] after their version guard. *)
Definition migrate_lists (config_data : gmap string value) : result Configuration :=
  let coordinates := dict_get config_data "coordinates" VNone in
  if negb (truthy coordinates) then Raise ValueError else
  bind (from_string coordinates) (fun coordinates_parsed =>
  bind (iterate (dict_get config_data "basic_configuration" (VList []))) (fun basic =>
  bind (mapM group_action_job_of basic) (fun group_action_jobs =>
  bind (iterate (dict_get config_data "advanced_configuration" (VList []))) (fun advanced =>
  bind (mapM validation_job_of advanced) (fun validation_jobs =>
  Ok (mkConfiguration (Some coordinates_parsed) group_action_jobs validation_jobs
        V3_0)))))).

(** [ConfigurationFactory._migrate_configuration_v2] *)
Definition _migrate_configuration_v2 (config_data : gmap string value)
  : result Configuration :=
  bind (_determine_configuration_version config_data) (fun version =>
  if negb (version_eqb version V2_0) then Raise ValueError
  else migrate_lists config_data).

(** [ConfigurationFactory._migrate_configuration_v3] *)
Definition _migrate_configuration_v3 (config_data : gmap string value)
  : result Configuration :=
  bind (_determine_configuration_version config_data) (fun version =>
  if negb (version_eqb version V3_0) then Raise ValueError
  else migrate_lists config_data).

(** What [x in SunLocation] does with an [x] that is no member depends on
    the interpreter. Up to 3.7 the answer is [False]; from 3.8 to 3.11 an
    operand that is no enumeration member at all is a [TypeError]; from
    3.12 on, the value of a member is contained as well, and in 3.12 an
    unhashable operand is a [TypeError]. *)
Inductive interpreter : Type :=
  | Py37
  | Py38_311
  | Py312
  | Py313.

Definition in_SunLocation (py : interpreter) (v : value) : result bool :=
  match v with
  | VSun _ => Ok true
  | VAct _ => Ok false
  | VStr s =>
      match py with
      | Py37 => Ok false
      | Py38_311 => Raise TypeError
      | Py312 | Py313 =>
          Ok (match by_value sun_value sun_members s with
              | Some _ => true
              | None => false
              end)
      end
  | VList _ | VDict _ =>
      match py with
      | Py37 => Ok false
      | Py38_311 => Raise TypeError
      | Py312 => Raise TypeError
      | Py313 => Ok false
      end
  | VNone | VBool _ | VInt _ =>
      match py with
      | Py38_311 => Raise TypeError
      | _ => Ok false
      end
  end.

(** The [try] block that coerces an id held as a [str]; the [except] clause
    turns the [ValueError] of [int] into a [ValueError] of its own. *)
Definition coerce_id (id : value) : result value :=
  if is_str id then
    match py_int id with
    | Ok n => Ok (VInt n)
    | Raise ValueError => Raise ValueError
    | Raise e => Raise e
    end
  else Ok id.

(** Body of the first loop of [_verify_configuration]: returns the job as
    the loop leaves it. *)
Definition verify_group_action_job (job : GroupActionJob) : result GroupActionJob :=
  bind (coerce_id (group_action_id job)) (fun id =>
  bind (py_lt0 id) (fun negative =>
  if negative then Raise ValueError
  else Ok (mkGroupActionJob id (ga_sun_location job) (ga_offset job)))).

(** Body of the second loop. The message for a negative bit id reads
    [job.sun_location.value], an attribute only members have. *)
Definition verify_validation_job (py : interpreter) (job : ValidationJob)
  : result ValidationJob :=
  bind (coerce_id (bit_id job)) (fun id =>
  bind (py_lt0 id) (fun negative =>
  if negative then
    match sun_location job with
    | VSun _ | VAct _ => Raise ValueError
    | _ => Raise AttributeError
    end
  else
    bind (in_SunLocation py (sun_location job)) (fun known =>
    if negb known then Raise ValueError
    else Ok (mkValidationJob (action job) id (sun_location job) (offset job))))).

(** [ConfigurationFactory._verify_configuration]. The method updates the
    jobs of [config] in place; the configuration it leaves behind is the
    value returned here. *)
Definition _verify_configuration (py : interpreter) (config : Configuration)
  : result Configuration :=
  match coordinates config with
  | None => Raise ValueError
  | Some _ =>
      bind (mapM verify_group_action_job (group_action_jobs config)) (fun gs =>
      bind (mapM (verify_validation_job py) (validation_jobs config)) (fun vs =>
      Ok (mkConfiguration (coordinates config) gs vs (version config))))
  end.

(** The factory object: its only attribute is [config]. *)
Record ConfigurationFactory : Type := mkFactory {
  config : option Configuration
}.

(** [ConfigurationFactory.parse_configuration]: the outcome of the call and
    the factory afterwards. *)
Definition parse_configuration (py : interpreter) (self : ConfigurationFactory)
    (config_data : gmap string value)
  : result Configuration * ConfigurationFactory :=
  match _determine_configuration_version config_data with
  | Raise e => (Raise e, self)
  | Ok current_version =>
      let migrated :=
        match current_version with
        | V1_0 => _migrate_configuration_v1 config_data
        | V2_0 => _migrate_configuration_v2 config_data
        | V3_0 => _migrate_configuration_v3 config_data
        end in
      match migrated with
      | Raise e => (Raise e, self)
      | Ok curr_config =>
          match _verify_configuration py curr_config with
          | Raise e => (Raise e, self)
          | Ok verified => (Ok verified, mkFactory (Some verified))
          end
      end
  end.

End configuration.

(* ===================================================================== *)
(** * Time                                                                *)
(* ===================================================================== *)

Module Time.
Import Py.

(** Microseconds in a second, a minute, a day. *)
Definition second_us : Z := 1000000.
Definition minute_us : Z := 60 * second_us.
Definition day_us : Z := 86400 * second_us.

(** [timedelta(seconds=n)], [timedelta(minutes=n)], [timedelta(days=n)] *)
Definition seconds (n : Z) : Z := n * second_us.
Definition minutes (n : Z) : Z := n * minute_us.
Definition days (n : Z) : Z := n * day_us.

(** Fields of a naive [datetime] with whole seconds. *)
Record civil : Type := mkCivil {
  year : Z;
  month : Z;
  day : Z;
  hour : Z;
  minute : Z;
  second : Z
}.

Definition is_leap (y : Z) : bool :=
  ((y mod 4 =? 0) && negb (y mod 100 =? 0)) || (y mod 400 =? 0).

Definition days_in_month (y m : Z) : Z :=
  if m =? 2 then (if is_leap y then 29 else 28)
  else if (m =? 4) || (m =? 6) || (m =? 9) || (m =? 11) then 30
  else 31.

(** Days from 1970-01-01 to the given date of the proleptic Gregorian
    calendar. *)
Definition days_from_civil (y m d : Z) : Z :=
  let y' := if m <=? 2 then y - 1 else y in
  let era := y' / 400 in
  let yoe := y' - era * 400 in
  let mp := if 2 <? m then m - 3 else m + 9 in
  let doy := (153 * mp + 2) / 5 + d - 1 in
  let doe := yoe * 365 + yoe / 4 - yoe / 100 + doy in
  era * 146097 + doe - 719468.

(** The instant of a naive datetime read as UTC ([pytz.utc.localize]). *)
Definition utc_instant (c : civil) : Z :=
  (days_from_civil (year c) (month c) (day c) * 86400
   + hour c * 3600 + minute c * 60 + second c) * second_us.

(** [datetime.min] and [datetime.max] read as UTC. *)
Definition datetime_min : Z := utc_instant (mkCivil 1 1 1 0 0 0).
Definition datetime_max : Z := utc_instant (mkCivil 9999 12 31 23 59 59) + 999999.

(** [date + delta] on an aware UTC datetime: the sum must be a date of the
    years 1 to 9999. (A [timedelta] too large to exist fails in the same
    way, and any such delta takes the sum out of range.) *)
Definition datetime_add (date delta : Z) : result Z :=
  let sum := date + delta in
  if (datetime_min <=? sum) && (sum <=? datetime_max) then Ok sum
  else Raise OverflowError.

(** Reading of the fields of [strptime]'s format. A numeric field of
    [%m %d %H %M %S] is one or two digits, two when two are there. *)
Definition read_field (s : string) : option (Z * string) :=
  match s with
  | String a r =>
      if is_digit a then
        match r with
        | String b r' =>
            if is_digit b then Some (10 * digit_val a + digit_val b, r')
            else Some (digit_val a, r)
        | EmptyString => Some (digit_val a, r)
        end
      else None
  | EmptyString => None
  end.

(** [%d] also takes a blank followed by one digit from 1 to 9. *)
Definition read_day (s : string) : option (Z * string) :=
  match s with
  | String " " (String b r) =>
      if is_digit b && negb (Ascii.eqb b "0") then Some (digit_val b, r) else None
  | _ => read_field s
  end.

(** [%Y]: exactly four digits. *)
Definition read_year (s : string) : option (Z * string) :=
  match s with
  | String a (String b (String c (String d r))) =>
      if is_digit a && is_digit b && is_digit c && is_digit d then
        Some (1000 * digit_val a + 100 * digit_val b + 10 * digit_val c + digit_val d, r)
      else None
  | _ => None
  end.

(** A literal character of the format; letters match in either case. *)
Definition read_char (c : ascii) (s : string) : option string :=
  match s with
  | String x r => if Ascii.eqb x c then Some r else None
  | EmptyString => None
  end.

Definition read_T (s : string) : option string :=
  match s with
  | String x r => if Ascii.eqb x "T" || Ascii.eqb x "t" then Some r else None
  | EmptyString => None
  end.

Definition in_range (lo hi v : Z) : bool := (lo <=? v) && (v <=? hi).

(** [datetime.strptime(s, '%Y-%m-%dT%H:%M:%S+00:00')]; [None] stands for
    the [ValueError] of a text that does not fit. The ranges are those of
    the format's fields; the constructor of [datetime] then refuses year 0,
    a day the month does not have, and seconds 60 and 61. *)
Definition strptime (s : string) : option civil :=
  y ← read_year s; s ← read_char "-" y.2;
  m ← read_field s; s ← read_char "-" m.2;
  d ← read_day s; s ← read_T d.2;
  H ← read_field s; s ← read_char ":" H.2;
  M ← read_field s; s ← read_char ":" M.2;
  S ← read_field s;
  if negb (String.eqb S.2 "+00:00") then None
  else if negb (in_range 1 12 m.1 && in_range 1 31 d.1 && in_range 0 23 H.1
                && in_range 0 59 M.1 && in_range 0 61 S.1) then None
  else if negb (in_range 1 9999 y.1 && (d.1 <=? days_in_month y.1 m.1)
                && (S.1 <=? 59)) then None
  else Some (mkCivil y.1 m.1 d.1 H.1 M.1 S.1).

End Time.

(* ===================================================================== *)
(** * astro/main.py: planning and dispatch                                *)
(* ===================================================================== *)

Module main.
Import Py configuration Time.

(** Keys of the dicts [_group_actions] and [_bits]: [_read_config] files
    automations under the [str] value of the sun location and validation
    bits under the enumeration member itself. *)
Inductive loc_key : Type :=
  | KStr (s : string)
  | KSun (m : SunLocation).

#[export] Instance loc_key_eq_dec : EqDecision loc_key.
Proof. solve_decision. Defined.

(** Entries of the two dicts. *)
Record group_action : Type := mkGroupAction {
  ga_id : Z;
  ga_off : Z
}.

Record bit : Type := mkBit {
  b_id : Z;
  b_action : string;
  b_off : Z
}.

(** Entries of the execution plan: ['task'] with its ['data'], and
    ['source']. *)
Inductive task : Type :=
  | TBit (action : string) (bit_id : Z)
  | TGroupAction (group_action_id : Z).

Record plan_entry : Type := mkEntry {
  entry_task : task;
  entry_source : string
}.

(** A [dict] in insertion order with the operations the program uses. *)
Section Dict.
Context {K V : Type} `{EqDecision K}.

Fixpoint get (d : list (K * V)) (k : K) : option V :=
  match d with
  | [] => None
  | (k', v) :: rest => if decide (k = k') then Some v else get rest k
  end.

Definition keys (d : list (K * V)) : list K := map fst d.

(** [d.pop(k, None)] *)
Fixpoint pop (d : list (K * V)) (k : K) : list (K * V) :=
  match d with
  | [] => []
  | (k', v) :: rest => if decide (k = k') then pop rest k else (k', v) :: pop rest k
  end.
End Dict.

(** [d.setdefault(k, []).append(x)] *)
Fixpoint setdefault_append {K V : Type} `{EqDecision K}
    (d : list (K * list V)) (k : K) (x : V) : list (K * list V) :=
  match d with
  | [] => [(k, [x])]
  | (k', l) :: rest =>
      if decide (k = k') then (k', l ++ [x]) :: rest
      else (k', l) :: setdefault_append rest k x
  end.

(** [d.get(k, [])] *)
Definition get_list {K V : Type} `{EqDecision K} (d : list (K * list V)) (k : K)
  : list V :=
  match get d k with
  | Some l => l
  | None => []
  end.

Definition execution_plan : Type := list (Z * list plan_entry).

(** [field_map.get(sun_location, 'x')]: a key that is not one of the nine
    strings, an enumeration member included, falls to ['x']. *)
Definition field_map : list (string * string) :=
  [ ("solar noon", "solar_noon");
    ("sunset", "sunset");
    ("civil dusk", "civil_twilight_end");
    ("nautical dusk", "nautical_twilight_end");
    ("astronomical dusk", "astronomical_twilight_end");
    ("astronomical dawn", "astronomical_twilight_begin");
    ("nautical dawn", "nautical_twilight_begin");
    ("civil dawn", "civil_twilight_begin");
    ("sunrise", "sunrise") ].

Definition field_of (sun_location : loc_key) : string :=
  match sun_location with
  | KStr s => match get field_map s with Some f => f | None => "x" end
  | KSun _ => "x"
  end.

(** [str(sun_location)] as [format] prints it. *)
Definition sun_name (m : SunLocation) : string :=
  match m with
  | SOLAR_NOON => "SOLAR_NOON"
  | SUNSET => "SUNSET"
  | CIVIL_DAWN => "CIVIL_DAWN"
  | NAUTICAL_DAWN => "NAUTICAL_DAWN"
  | ASTRONOMICAL_DAWN => "ASTRONOMICAL_DAWN"
  | ASTRONOMICAL_DUSK => "ASTRONOMICAL_DUSK"
  | NAUTICAL_DUSK => "NAUTICAL_DUSK"
  | CIVIL_DUSK => "CIVIL_DUSK"
  | SUNRISE => "SUNRISE"
  end.

Definition key_text (k : loc_key) : string :=
  match k with
  | KStr s => s
  | KSun m => "SunLocation." +:+ sun_name m
  end.

(** [Astro._format_offset] *)
Definition _format_offset (offset : Z) : string :=
  if offset =? 0 then ""
  else " with a " +:+ (if 0 <? offset then "+" +:+ pretty offset else pretty offset)
       +:+ " min offset".

Definition source_label (sun_location : loc_key) (offset : Z) : string :=
  key_text sun_location +:+ _format_offset offset.

(** [Astro._convert]: every exception of the parsing is caught and turned
    into [None]; what is not a [str] makes [strptime] raise. *)
Definition _convert (dt_string : value) : option Z :=
  match dt_string with
  | VNone => None
  | VStr s =>
      match strptime s with
      | Some date => if year date =? 1970 then None else Some (utc_instant date)
      | None => None
      end
  | _ => None
  end.

(** The two inner loops of [_build_execution_plan]. *)
Definition plan_bit (now date : Z) (sun_location : loc_key)
    (plan : execution_plan) (entry : bit) : result execution_plan :=
  bind (datetime_add date (minutes (b_off entry))) (fun entry_date =>
  if entry_date <? now then Ok plan
  else Ok (setdefault_append plan entry_date
             (mkEntry (TBit (b_action entry) (b_id entry))
                (source_label sun_location (b_off entry))))).

Definition plan_group_action (now date : Z) (sun_location : loc_key)
    (plan : execution_plan) (entry : group_action) : result execution_plan :=
  bind (datetime_add date (minutes (ga_off entry))) (fun entry_date =>
  if entry_date <? now then Ok plan
  else Ok (setdefault_append plan entry_date
             (mkEntry (TGroupAction (ga_id entry))
                (source_label sun_location (ga_off entry))))).

Definition is_nil {A : Type} (l : list A) : bool :=
  match l with [] => true | _ :: _ => false end.

(** Body of the loop over the sun locations. [data] is the decoded answer
    of the solar-time source. *)
Definition plan_location (now : Z) (data : value)
    (_group_actions : list (loc_key * list group_action))
    (_bits : list (loc_key * list bit))
    (plan : execution_plan) (sun_location : loc_key) : result execution_plan :=
  let group_actions := get_list _group_actions sun_location in
  let bits := get_list _bits sun_location in
  if is_nil group_actions && is_nil bits then Ok plan
  else
    bind (subscript data "results") (fun results =>
    bind (method_get results (field_of sun_location)) (fun dt_string =>
    match _convert dt_string with
    | None => Ok plan
    | Some date =>
        bind (foldM (plan_bit now date sun_location) bits plan) (fun plan =>
        foldM (plan_group_action now date sun_location) group_actions plan)
    end)).

(** The plan of one answer: lines 304 to 346. [order] is the sequence in
    which the set [set(_group_actions.keys()) | set(_bits.keys())] yields
    its elements, which Python leaves unspecified. *)
Definition build_plan (now : Z) (data : value)
    (_group_actions : list (loc_key * list group_action))
    (_bits : list (loc_key * list bit))
    (order : list loc_key) : result execution_plan :=
  foldM (plan_location now data _group_actions _bits) order [].

(** What [requests.get] and [req.json()] give for one request. *)
Inductive response : Type :=
  | NoResponse
  | Response (status_code : Z) (json : option value).

(** The [try] block of one attempt. *)
Definition attempt (now : Z) (resp : response)
    (_group_actions : list (loc_key * list group_action))
    (_bits : list (loc_key * list bit))
    (order : list loc_key) : result execution_plan :=
  match resp with
  | NoResponse => Raise ConnectionError
  | Response status_code json =>
      if negb (status_code =? 200) then Raise RuntimeError
      else
        match json with
        | None => Raise ValueError
        | Some data =>
            bind (subscript data "status") (fun status =>
            match status with
            | VStr "OK" => build_plan now data _group_actions _bits order
            | _ => Raise RuntimeError
            end)
        end
  end.

(** What the plugin does not own: the solar-time source, the durations of
    the calls it makes, the local calendar and the iteration order of a
    set of keys. The n-th request is answered by [fetch n] after
    [fetch_time n] microseconds; the n-th [do_basic_action] takes
    [call_time n] microseconds. *)
Record host : Type := mkHost {
  fetch : nat -> response;
  fetch_time : nat -> Z;
  call_time : nat -> Z;
  today_of : Z -> Z;
  tomorrow_of : Z -> Z;
  key_order : list loc_key
}.

(** The attributes of the plugin that planning and dispatch use, together
    with the wall clock and the record of what was done to the outside:
    requests sent, [time.sleep] calls, [do_basic_action] calls as pairs of
    action type and action number. *)
Record Astro : Type := mkAstro {
  _enabled : bool;
  _group_actions : list (loc_key * list group_action);
  _bits : list (loc_key * list bit);
  _last_request_date : option Z;
  _execution_plan : execution_plan;
  _sleep_until : Z;
  clock : Z;
  requests : nat;
  sleeps : list Z;
  basic_actions : list (Z * Z)
}.

Definition set_plan (plan : execution_plan) (self : Astro) : Astro :=
  mkAstro (_enabled self) (_group_actions self) (_bits self)
    (_last_request_date self) plan (_sleep_until self) (clock self)
    (requests self) (sleeps self) (basic_actions self).

Definition set_last_request_date (d : option Z) (self : Astro) : Astro :=
  mkAstro (_enabled self) (_group_actions self) (_bits self)
    d (_execution_plan self) (_sleep_until self) (clock self)
    (requests self) (sleeps self) (basic_actions self).

(** [requests.get(...)]: one more request, the clock moves on. *)
Definition do_request (h : host) (self : Astro) : response * Astro :=
  (fetch h (requests self),
   mkAstro (_enabled self) (_group_actions self) (_bits self)
     (_last_request_date self) (_execution_plan self) (_sleep_until self)
     (clock self + fetch_time h (requests self))
     (S (requests self)) (sleeps self) (basic_actions self)).

(** [time.sleep(n)]: the clock moves on by the time asked for. *)
Definition time_sleep (n : Z) (self : Astro) : Astro :=
  mkAstro (_enabled self) (_group_actions self) (_bits self)
    (_last_request_date self) (_execution_plan self) (_sleep_until self)
    (clock self + seconds n)
    (requests self) (sleeps self ++ [n]) (basic_actions self).

(** [self.webinterface.do_basic_action(action_type, action_number)]; its
    answer only decides what is logged. *)
Definition do_basic_action (h : host) (action_type action_number : Z)
    (self : Astro) : Astro :=
  mkAstro (_enabled self) (_group_actions self) (_bits self)
    (_last_request_date self) (_execution_plan self) (_sleep_until self)
    (clock self + call_time h (length (basic_actions self)))
    (requests self) (sleeps self)
    (basic_actions self ++ [(action_type, action_number)]).

(** [Astro._sleep(timestamp)]: the deadline is stored and the thread waits
    for the watchdog; the wait itself is not part of the model. *)
Definition _sleep (timestamp : Z) (self : Astro) : Astro :=
  mkAstro (_enabled self) (_group_actions self) (_bits self)
    (_last_request_date self) (_execution_plan self) timestamp (clock self)
    (requests self) (sleeps self) (basic_actions self).

(** The [while retries > 0] loop of [Astro._build_execution_plan]. The
    text of the query is not modelled: the host answers each request. *)
Fixpoint build_loop (h : host) (now : Z) (retries : nat) (self : Astro) : Astro :=
  match retries with
  | O => self
  | S retries =>
      let '(resp, self) := do_request h self in
      match attempt now resp (_group_actions self) (_bits self) (key_order h) with
      | Ok plan => set_plan plan self
      | Raise _ =>
          let self := set_plan [] self in
          let self := time_sleep 5 self in
          build_loop h now retries self
      end
  end.

(** [Astro._build_execution_plan(now, date)] *)
Definition _build_execution_plan (h : host) (now : Z) (self : Astro) : Astro :=
  build_loop h now 5 self.

(** One entry of a due plan is carried out. *)
Definition dispatch (h : host) (self : Astro) (entry : plan_entry) : Astro :=
  match entry_task entry with
  | TGroupAction group_action_id => do_basic_action h 2 group_action_id self
  | TBit act bit_id =>
      let action := if String.eqb act "set" then 237 else 238 in
      do_basic_action h action bit_id self
  end.

(** The state of the scan of [run]: the plugin, [next_action_date] and
    [next_action_delta]. *)
Record scan_state : Type := mkScan {
  plugin : Astro;
  next_action_date : Z;
  next_action_delta : Z
}.

(** Body of [for date in list(self._execution_plan.keys())]. *)
Definition scan_step (h : host) (now : Z) (st : scan_state) (date : Z) : scan_state :=
  let delta := Z.abs (date - now) in
  if minutes 5 <? delta then
    if (now <? date) && (delta <? next_action_delta st)
    then mkScan (plugin st) date delta
    else st
  else
    let plan := get_list (_execution_plan (plugin st)) date in
    let self := fold_left (dispatch h) plan (plugin st) in
    let self := set_plan (pop (_execution_plan self) date) self in
    mkScan self (next_action_date st) (next_action_delta st).

Definition scan (h : host) (now tomorrow : Z) (self : Astro) : scan_state :=
  fold_left (scan_step h now) (keys (_execution_plan self))
    (mkScan self tomorrow (days 2)).

(** One pass of the [while True] loop of [Astro.run], from the statement
    that follows [from pytz import reference] on: what the pass does once
    that import has succeeded, as it does whenever [_read_config] could
    import [pytz]. The import itself is in [run_pass] below. None of the
    operations of the [try] block raises in this model, so the [except]
    clause has no counterpart. *)
Definition run_once (h : host) (self : Astro) : Astro :=
  if negb (_enabled self) then _sleep (clock self + seconds 30) self
  else
    let now := clock self in
    let today := today_of h now in
    let tomorrow := tomorrow_of h now in
    let self :=
      if negb (bool_decide (_last_request_date self = Some today)) then
        _build_execution_plan h now (set_last_request_date (Some today) self)
      else self in
    if is_nil (_execution_plan self) then
      let sleep := tomorrow - now in
      _sleep (clock self + sleep + seconds 5) self
    else
      let st := scan h now tomorrow self in
      let sleep := next_action_date st - now in
      _sleep (clock (plugin st) + sleep + seconds 5) (plugin st).

(** A whole pass of the loop, its first statement included: where [pytz]
    cannot be imported the pass raises [ImportError] before anything
    else, outside the [try] block, and [run] ends with it. *)
Definition run_pass (pytz : bool) (h : host) (self : Astro) : result Astro :=
  if pytz then Ok (run_once h self) else Raise ImportError.

End main.

(* ===================================================================== *)
(** * The specification's vocabulary                                      *)
(* ===================================================================== *)

Module Spec.
Import Py configuration Time main.

(** ** Configuration documents *)

(** An integer field of a document; an absent key has the default. *)
Definition int_field (doc : gmap string value) (k : string) (default : Z)
  : option Z :=
  match doc !! k with
  | None => Some default
  | Some (VInt z) => Some z
  | Some _ => None
  end.

(** The document carries a non-empty coordinate text that parses. *)
Definition valid_coordinates (doc : gmap string value) (c : Coordinates) : Prop :=
  exists s, doc !! "coordinates" = Some (VStr s) /\ s <> EmptyString
            /\ from_string_str s = Ok c.

(** The five bit roles of a version 1.0 document, in the order of the
    specification. *)
Inductive role : Type :=
  | Horizon
  | Civil
  | Nautical
  | Astronomical
  | Bright.

Definition roles_in_order : list role :=
  [Horizon; Civil; Nautical; Astronomical; Bright].

Definition role_key (r : role) : string :=
  match r with
  | Horizon => "horizon_bit"
  | Civil => "civil_bit"
  | Nautical => "nautical_bit"
  | Astronomical => "astronomical_bit"
  | Bright => "bright_bit"
  end.

(** The dawn or sunrise event of a role, and its dusk or sunset event. *)
Definition role_start (r : role) : SunLocation :=
  match r with
  | Horizon => SUNRISE
  | Civil => CIVIL_DAWN
  | Nautical => NAUTICAL_DAWN
  | Astronomical => ASTRONOMICAL_DAWN
  | Bright => SUNRISE
  end.

Definition role_stop (r : role) : SunLocation :=
  match r with
  | Horizon => SUNSET
  | Civil => CIVIL_DUSK
  | Nautical => NAUTICAL_DUSK
  | Astronomical => ASTRONOMICAL_DUSK
  | Bright => SUNSET
  end.

(** The fields of a valid version 1.0 document: the bit of each role, the
    bright offset, and the automation id (whatever object it is). *)
Record v1_fields : Type := mkV1 {
  bit_of : role -> Z;
  bright_offset : Z;
  automation : value
}.

Definition valid_v1 (doc : gmap string value) (f : v1_fields) (c : Coordinates)
  : Prop :=
  _determine_configuration_version doc = Ok V1_0
  /\ (forall r, int_field doc (role_key r) (-1) = Some (bit_of f r))
  /\ int_field doc "bright_offset" 0 = Some (bright_offset f)
  /\ dict_get doc "group_action" (VInt (-1)) = automation f
  /\ valid_coordinates doc c.

(** Offsets of the two events of a role: (+offset, -offset) for the bright
    role, 0 for the others. *)
Definition role_offsets (f : v1_fields) (r : role) : Z * Z :=
  match r with
  | Bright => (bright_offset f, - bright_offset f)
  | _ => (0, 0)
  end.

(** What a role contributes: nothing when its bit is negative, else one
    SET job at its start event followed by one CLEAR job at its stop
    event, and two automation jobs at the same events. *)
Definition role_validation_jobs (f : v1_fields) (r : role) : list ValidationJob :=
  if 0 <=? bit_of f r then
    [ mkValidationJob SET (VInt (bit_of f r)) (VSun (role_start r))
        (VInt (fst (role_offsets f r)));
      mkValidationJob CLEAR (VInt (bit_of f r)) (VSun (role_stop r))
        (VInt (snd (role_offsets f r))) ]
  else [].

Definition role_group_action_jobs (f : v1_fields) (r : role) : list GroupActionJob :=
  if 0 <=? bit_of f r then
    [ mkGroupActionJob (automation f) (VSun (role_start r))
        (VInt (fst (role_offsets f r)));
      mkGroupActionJob (automation f) (VSun (role_stop r))
        (VInt (snd (role_offsets f r))) ]
  else [].

(** An offset of a version 2.0 or 3.0 entry and the integer it stands for:
    null and the empty text stand for 0. *)
Inductive offset_coerced : value -> Z -> Prop :=
  | offset_null : offset_coerced VNone 0
  | offset_empty : offset_coerced (VStr EmptyString) 0
  | offset_int (z : Z) : offset_coerced (VInt z) z
  | offset_text (s : string) (z : Z) :
      s <> EmptyString -> int_of_str s = Ok z -> offset_coerced (VStr s) z.

(** An element of [basic_configuration] and the job it is mapped to. *)
Inductive basic_entry : value -> GroupActionJob -> Prop :=
  | basic_entry_intro (d : gmap string value) (id off : value)
      (m : SunLocation) (z : Z) :
      d !! "group_action_id" = Some id ->
      d !! "sun_location" = Some (VStr (sun_value m)) ->
      d !! "offset" = Some off ->
      offset_coerced off z ->
      basic_entry (VDict d) (mkGroupActionJob id (VSun m) (VInt z)).

(** An element of [advanced_configuration] and the job it is mapped to. *)
Inductive advanced_entry : value -> ValidationJob -> Prop :=
  | advanced_entry_intro (d : gmap string value) (id off : value)
      (a : ValidationJobAction) (m : SunLocation) (z : Z) :
      d !! "action" = Some (VStr (action_value a)) ->
      d !! "bit_id" = Some id ->
      d !! "sun_location" = Some (VStr (sun_value m)) ->
      d !! "offset" = Some off ->
      offset_coerced off z ->
      advanced_entry (VDict d) (mkValidationJob a id (VSun m) (VInt z)).

(** The migration [parse_configuration] selects for a version. *)
Definition migrate (v : ConfigurationVersion) (doc : gmap string value)
  : result Configuration :=
  match v with
  | V1_0 => _migrate_configuration_v1 doc
  | V2_0 => _migrate_configuration_v2 doc
  | V3_0 => _migrate_configuration_v3 doc
  end.

(** A document of version 2.0 or 3.0 whose two lists are [basic] and
    [advanced]. *)
Definition valid_lists_document (doc : gmap string value) (v : ConfigurationVersion)
    (c : Coordinates) (basic advanced : list value) : Prop :=
  _determine_configuration_version doc = Ok v
  /\ (v = V2_0 \/ v = V3_0)
  /\ valid_coordinates doc c
  /\ dict_get doc "basic_configuration" (VList []) = VList basic
  /\ dict_get doc "advanced_configuration" (VList []) = VList advanced.

(** ** Version 1.0 documents, whatever their fields hold *)

(** A number: an [int] or a [bool]. *)
Definition is_num (v : value) : bool :=
  match v with
  | VInt _ | VBool _ => true
  | _ => false
  end.

(** The bit field of a role, with its default. *)
Definition v1_bit (doc : gmap string value) (r : role) : value :=
  dict_get doc (role_key r) (VInt (-1)).

(** A role whose turn in the loop of the migration does not raise: its
    bit can be compared with 0, and the bright offset can be negated when
    the role that accounts for it is enabled. *)
Definition role_migrates (bright_offset : value)
    (role : value * SunLocation * SunLocation * bool) : bool :=
  let '(bit, _, _, account_offset) := role in
  match py_ge0 bit with
  | Ok true => if account_offset then is_num bright_offset else true
  | Ok false => true
  | Raise _ => false
  end.

(** Every bit field of the document is a number, and so is
    [bright_offset] when the bright role is enabled. *)
Definition v1_migrates (doc : gmap string value) : bool :=
  forallb (role_migrates (dict_get doc "bright_offset" (VInt 0)))
    (v1_roles (v1_bit doc Horizon) (v1_bit doc Civil) (v1_bit doc Nautical)
       (v1_bit doc Astronomical) (v1_bit doc Bright)).

(** ** Validation *)

(** An id that is a text or a number. *)
Definition is_text_or_number (v : value) : bool :=
  match v with
  | VStr _ | VInt _ | VBool _ => true
  | _ => false
  end.

(** The jobs of the configuration hold what their fields are declared to
    hold for sun location, a member of [SunLocation], and a text or a
    number for id. *)
Definition typed_configuration (c : Configuration) : Prop :=
  Forall (fun j => is_text_or_number (group_action_id j) = true
                   /\ exists m, ga_sun_location j = VSun m)
    (group_action_jobs c)
  /\ Forall (fun j => is_text_or_number (bit_id j) = true
                      /\ exists m, sun_location j = VSun m)
       (validation_jobs c).

(** The id passes: a number that is not negative, or a text [int] reads
    as one. *)
Definition id_accepted (v : value) : bool :=
  match v with
  | VInt n => 0 <=? n
  | VBool _ => true
  | VStr s => match int_of_str s with Ok n => 0 <=? n | Raise _ => false end
  | _ => false
  end.

(** The id as validation leaves it: a text is replaced by its integer. *)
Definition id_coerced (v : value) : value :=
  match v with
  | VStr s => match int_of_str s with Ok n => VInt n | Raise _ => v end
  | _ => v
  end.

Definition ids_accepted (c : Configuration) : bool :=
  forallb (fun j => id_accepted (group_action_id j)) (group_action_jobs c)
  && forallb (fun j => id_accepted (bit_id j)) (validation_jobs c).

Definition with_ids_coerced (c : Configuration) : Configuration :=
  mkConfiguration (coordinates c)
    (map (fun j => mkGroupActionJob (id_coerced (group_action_id j))
                     (ga_sun_location j) (ga_offset j))
       (group_action_jobs c))
    (map (fun j => mkValidationJob (action j) (id_coerced (bit_id j))
                     (sun_location j) (offset j))
       (validation_jobs c))
    (version c).

(** ** Execution plans *)

(** The event time the answer [data] of the solar-time source gives for a
    key of the index: none when the answer has no usable [results], when
    the field is missing or unreadable, or when it is the epoch-year
    sentinel. *)
Definition event_time (data : value) (sun_location : loc_key) : option Z :=
  match subscript data "results" with
  | Ok results =>
      match method_get results (field_of sun_location) with
      | Ok dt_string => _convert dt_string
      | Raise _ => None
      end
  | Raise _ => None
  end.

(** Fire time of an action: event time plus offset minutes. *)
Definition fire_time (date offset : Z) : Z := date + minutes offset.

(** The action fires at [t], and [t] is not before [now]. *)
Definition fires_at (now date t offset : Z) : bool :=
  (now <=? fire_time date offset) && (fire_time date offset =? t).

Definition bit_entry (sun_location : loc_key) (b : bit) : plan_entry :=
  mkEntry (TBit (b_action b) (b_id b)) (source_label sun_location (b_off b)).

Definition group_action_entry (sun_location : loc_key) (g : group_action)
  : plan_entry :=
  mkEntry (TGroupAction (ga_id g)) (source_label sun_location (ga_off g)).

(** What one sun location puts at fire time [t]: its bit actions in the
    order of the index, then its automations in the order of the index. *)
Definition location_entries (now : Z) (data : value)
    (group_actions : list (loc_key * list group_action))
    (bits : list (loc_key * list bit))
    (t : Z) (sun_location : loc_key) : list plan_entry :=
  match event_time data sun_location with
  | None => []
  | Some date =>
      map (bit_entry sun_location)
        (List.filter (fun b => fires_at now date t (b_off b))
           (get_list bits sun_location))
      ++ map (group_action_entry sun_location)
           (List.filter (fun g => fires_at now date t (ga_off g))
              (get_list group_actions sun_location))
  end.

(** The entries at fire time [t] when the locations are visited in
    [order]. *)
Definition planned (now : Z) (data : value)
    (group_actions : list (loc_key * list group_action))
    (bits : list (loc_key * list bit))
    (order : list loc_key) (t : Z) : list plan_entry :=
  flat_map (location_entries now data group_actions bits t) order.

Definition is_bit_entry (e : plan_entry) : bool :=
  match entry_task e with TBit _ _ => true | TGroupAction _ => false end.


(** A well-formed plan: distinct fire times, none before [now], each with
    at least one entry. *)
Definition plan_ok (now : Z) (plan : execution_plan) : Prop :=
  NoDup (keys plan)
  /\ Forall (fun kv => now <= fst kv) plan
  /\ Forall (fun kv => snd kv <> []) plan.

(** ** The dispatch scan *)

(** The entry's time is within 5 minutes of [now], past or future. *)
Definition due (now t : Z) : bool := Z.abs (t - now) <=? minutes 5.

(** The call that carries out an entry: action type and action number. *)
Definition call_of (e : plan_entry) : Z * Z :=
  match entry_task e with
  | TGroupAction group_action_id => (2, group_action_id)
  | TBit act bit_id => (if String.eqb act "set" then 237 else 238, bit_id)
  end.

(** More than 5 minutes in the future, and less than two days ahead. *)
Definition candidate (now t : Z) : bool :=
  (minutes 5 <? t - now) && (t - now <? days 2).

(** [a] is the anchor of the next wake for the fire times [ts]: the
    nearest candidate, or [tomorrow] when there is none. *)
Definition anchor_of (now tomorrow : Z) (ts : list Z) (a : Z) : Prop :=
  (In a ts /\ candidate now a = true
   /\ forall t, In t ts -> candidate now t = true -> a <= t)
  \/ (a = tomorrow /\ forall t, In t ts -> candidate now t = false).

(** The two variables of the scan after the fire times [seen] were
    visited. *)
Definition anchor_state (now tomorrow : Z) (seen : list Z) (st : scan_state) : Prop :=
  (next_action_date st = tomorrow /\ next_action_delta st = days 2
   /\ forall t, In t seen -> candidate now t = false)
  \/ (In (next_action_date st) seen
      /\ candidate now (next_action_date st) = true
      /\ next_action_delta st = next_action_date st - now
      /\ forall t, In t seen -> candidate now t = true -> next_action_date st <= t).

(** ** Fetching with retries *)

(** Time taken by [n] requests in a row, the first being request number
    [first]. *)
Fixpoint fetch_total (h : host) (first n : nat) : Z :=
  match n with
  | O => 0
  | S m => fetch_time h first + fetch_total h (S first) m
  end.

(** The answers to the [n] requests from number [first] on all make the
    attempt fail. *)
Definition all_fail (h : host) (now : Z) (self : Astro) (first n : nat) : Prop :=
  forall i, (i < n)%nat ->
    exists e, attempt now (fetch h (first + i)) (_group_actions self) (_bits self)
                (key_order h) = Raise e.

(** ** Coordinate texts *)

(** A non-empty run of decimal digits. *)
Definition digits (s : string) : Prop :=
  s <> EmptyString /\ all_digits s = true.

(** A sign-optional decimal with [.] or [,] as the decimal point. *)
Inductive number_text : string -> Prop :=
  | number_text_intro (sign ds1 : string) (point : ascii) (ds2 : string) :
      sign = EmptyString \/ sign = "-"%string ->
      digits ds1 ->
      point = "."%char \/ point = ","%char ->
      digits ds2 ->
      number_text (sign +:+ ds1 +:+ String point ds2).

Definition separator (c : ascii) : Prop :=
  c = ";"%char \/ c = ","%char \/ c = "/"%char.

Definition no_newline (s : string) : Prop := str_contains Re.newline s = false.

(** The shape as the specification words it: number, separator, garbage,
    number. *)
Definition claimed_shape (text : string) : Prop :=
  exists n1 sep garbage n2,
    text = n1 +:+ String sep (garbage +:+ n2)
    /\ number_text n1 /\ separator sep /\ number_text n2.

(** The shape the pattern of the code accepts: number, garbage, separator,
    garbage, number, and possibly one final newline; no garbage holds a
    newline. *)
Definition accepted_shape (text n1 n2 : string) : Prop :=
  exists g1 sep g2 tail,
    text = n1 +:+ g1 +:+ String sep (g2 +:+ n2 +:+ tail)
    /\ number_text n1 /\ no_newline g1 /\ separator sep /\ no_newline g2
    /\ number_text n2
    /\ (tail = EmptyString \/ tail = String Re.newline EmptyString).

(** The float of a number text: the decimal comma, if any, becomes a
    point. *)
Definition float_of_number (n : string) : pyfloat :=
  FloatLit (str_replace "," "." n).

End Spec.

(* ===================================================================== *)
(** * Sample inputs: the documents of the test suite and others           *)
(* ===================================================================== *)

Module Samples.
Import Py configuration Time main Spec.

Definition document (fields : list (string * value)) : gmap string value :=
  list_to_map fields.

Definition test_doc_v1 : gmap string value :=
  document
    [ ("bright_bit", VInt (-1)); ("horizon_bit", VInt 200);
      ("bright_offset", VInt 60); ("location", VStr "");
      ("astronomical_bit", VInt (-1)); ("nautical_bit", VInt (-1));
      ("civil_bit", VInt (-1)); ("coordinates", VStr "51.064630;3.737539");
      ("group_action", VInt 0) ].

Definition test_doc_v1_multiple : gmap string value :=
  document
    [ ("bright_bit", VInt 1); ("horizon_bit", VInt (-1));
      ("bright_offset", VInt 60); ("location", VStr "");
      ("astronomical_bit", VInt 2); ("nautical_bit", VInt (-1));
      ("civil_bit", VInt (-1)); ("coordinates", VStr "51.064630;3.737539");
      ("group_action", VInt 0) ].

Definition test_doc_v2 : gmap string value :=
  document
    [ ("basic_configuration",
       VList [ VDict (document [ ("sun_location", VStr "sunset");
                                 ("group_action_id", VInt 3);
                                 ("offset", VStr "30") ]);
               VDict (document [ ("sun_location", VStr "sunrise");
                                 ("group_action_id", VInt 5);
                                 ("offset", VStr "-90") ]) ]);
      ("advanced_configuration", VList []);
      ("coordinates", VStr "42.854040, 13.896781") ].

Definition test_coordinates : Coordinates :=
  mkCoordinates (FloatLit "51.064630") (FloatLit "3.737539").

(** Documents [parse_configuration] refuses. *)
Definition doc_missing_coordinates : gmap string value :=
  document [ ("horizon_bit", VInt 200); ("group_action", VInt 0) ].

Definition doc_unknown_version : gmap string value :=
  document [ ("version", VStr "4.0"); ("coordinates", VStr "51.064630;3.737539") ].

Definition doc_bad_id : gmap string value :=
  document
    [ ("version", VStr "3.0"); ("coordinates", VStr "51.064630;3.737539");
      ("basic_configuration",
       VList [ VDict (document [ ("sun_location", VStr "sunset");
                                 ("group_action_id", VStr "three");
                                 ("offset", VInt 0) ]) ]);
      ("advanced_configuration", VList []) ].

Definition doc_negative_bit_id : gmap string value :=
  document
    [ ("version", VStr "3.0"); ("coordinates", VStr "51.064630;3.737539");
      ("basic_configuration", VList []);
      ("advanced_configuration",
       VList [ VDict (document [ ("action", VStr "set"); ("bit_id", VInt (-4));
                                 ("sun_location", VStr "sunset");
                                 ("offset", VNone) ]) ]) ].

Definition doc_unknown_sun_location : gmap string value :=
  document
    [ ("version", VStr "2.0"); ("coordinates", VStr "51.064630;3.737539");
      ("basic_configuration",
       VList [ VDict (document [ ("sun_location", VStr "midnight");
                                 ("group_action_id", VInt 3);
                                 ("offset", VInt 0) ]) ]);
      ("advanced_configuration", VList []) ].

(** A version 1.0 document with the horizon bit in use and no automation. *)
Definition doc_no_automation : gmap string value :=
  document [ ("horizon_bit", VInt 200); ("coordinates", VStr "51.064630;3.737539") ].

(** A version 1.0 document with the horizon bit in use, no automation,
    and a null for the civil bit. *)
Definition doc_null_civil_bit : gmap string value :=
  document [ ("horizon_bit", VInt 200); ("civil_bit", VNone);
             ("coordinates", VStr "51.064630;3.737539") ].

(** A version 3.0 document whose first automation has a null for id and
    whose second has a negative id, and the configuration migration makes
    of it. *)
Definition doc_null_id : gmap string value :=
  document
    [ ("version", VStr "3.0"); ("coordinates", VStr "51.064630;3.737539");
      ("basic_configuration",
       VList [ VDict (document [ ("group_action_id", VNone);
                                 ("sun_location", VStr "sunset");
                                 ("offset", VInt 0) ]);
               VDict (document [ ("group_action_id", VInt (-1));
                                 ("sun_location", VStr "sunrise");
                                 ("offset", VInt 0) ]) ]);
      ("advanced_configuration", VList []) ].

Definition config_null_id : Configuration :=
  mkConfiguration (Some (mkCoordinates (FloatLit "51.064630") (FloatLit "3.737539")))
    [ mkGroupActionJob VNone (VSun SUNSET) (VInt 0);
      mkGroupActionJob (VInt (-1)) (VSun SUNRISE) (VInt 0) ]
    [] V3_0.

(** A version 3.0 document with a null, an empty, a textual and an integer
    offset, and an id held as text. *)
Definition doc_v3_basic : list value :=
  [ VDict (document [ ("group_action_id", VStr "7"); ("sun_location", VStr "sunset");
                      ("offset", VNone) ]);
    VDict (document [ ("group_action_id", VInt 5); ("sun_location", VStr "sunrise");
                      ("offset", VStr "-90") ]) ].

Definition doc_v3_advanced : list value :=
  [ VDict (document [ ("action", VStr "clear"); ("bit_id", VInt 12);
                      ("sun_location", VStr "civil dusk"); ("offset", VStr "") ]);
    VDict (document [ ("action", VStr "set"); ("bit_id", VInt 12);
                      ("sun_location", VStr "civil dawn"); ("offset", VInt 15) ]) ].

Definition doc_v3_offsets : gmap string value :=
  document
    [ ("version", VStr "3.0"); ("coordinates", VStr "51.064630;3.737539");
      ("basic_configuration", VList doc_v3_basic);
      ("advanced_configuration", VList doc_v3_advanced) ].

(** An answer of the solar-time source: civil dawn at 03:01:47 and sunrise
    at 03:31:47 on 2024-06-21, no sunset (the epoch-year sentinel). *)
Definition solar_answer : value :=
  VDict (document
    [ ("status", VStr "OK");
      ("results",
       VDict (document
         [ ("sunrise", VStr "2024-06-21T03:31:47+00:00");
           ("civil_twilight_begin", VStr "2024-06-21T03:01:47+00:00");
           ("sunset", VStr "1970-01-01T00:00:01+00:00") ])) ]).

(** 2024-06-21 00:00:00 UTC, and 04:01:47 the same day. *)
Definition midnight_2024_06_21 : Z := 1718928000000000.
Definition four_o_one : Z := 1718942507000000.

(** An index in which sunrise + 30 min and civil dawn + 60 min are the same
    instant, each location with a bit action and an automation. *)
Definition index_group_actions : list (loc_key * list group_action) :=
  [ (KStr "sunrise", [mkGroupAction 7 30]);
    (KStr "civil dawn", [mkGroupAction 8 60]) ].

Definition index_bits : list (loc_key * list bit) :=
  [ (KStr "sunrise", [mkBit 1 "set" 30]);
    (KStr "civil dawn", [mkBit 2 "clear" 60]) ].




(** A configuration whose only job is an automation at a sun location that
    is no token of the enumeration, and its sibling with the same sun
    location in a validation job. *)
Definition config_group_action_midnight : Configuration :=
  mkConfiguration (Some test_coordinates)
    [mkGroupActionJob (VInt 3) (VStr "midnight") (VInt 0)] [] V3_0.

Definition config_validation_midnight : Configuration :=
  mkConfiguration (Some test_coordinates) []
    [mkValidationJob SET (VInt 3) (VStr "midnight") (VInt 0)] V3_0.

(** A host whose solar-time source never answers; calls take no time; the
    local day is 2024-06-21 in UTC. *)
Definition silent_host : host :=
  mkHost (fun _ => NoResponse) (fun _ => 0) (fun _ => 0)
    (fun _ => midnight_2024_06_21) (fun _ => midnight_2024_06_21 + days 1)
    [KStr "sunrise"; KStr "civil dawn"].

Definition noon : Z := midnight_2024_06_21 + minutes 720.

Definition sample_entry (n : Z) : plan_entry :=
  mkEntry (TGroupAction n) "sunrise".

(** The plugin at noon, the plan of the day already built, with
    [plan] left in it. *)
Definition plugin_at_noon (plan : execution_plan) : Astro :=
  mkAstro true index_group_actions index_bits (Some midnight_2024_06_21)
    plan 0 noon 1 [] [].

(** One entry, three days ahead (an offset of 4320 minutes and more). *)
Definition far_plan : execution_plan :=
  [ (noon + days 3, [sample_entry 1]) ].

(** Entries 10 and 2 minutes in the past, 3 minutes, 2 hours and 1 hour in
    the future. *)
Definition mixed_plan : execution_plan :=
  [ (noon - minutes 10, [sample_entry 1]);
    (noon - minutes 2, [mkEntry (TBit "set" 2) "sunrise"]);
    (noon + minutes 3, [mkEntry (TBit "clear" 3) "sunrise"; sample_entry 4]);
    (noon + minutes 120, [sample_entry 5]);
    (noon + minutes 60, [sample_entry 6]) ].

(** The plugin at the first wake of a day, nothing requested yet. *)
Definition plugin_new_day : Astro :=
  mkAstro true index_group_actions index_bits None [] 0 noon 0 [] [].

(** Coordinate texts: garbage before the separator; a newline as garbage;
    a final newline. *)
Definition text_garbage_first : string := "1.5x;2.5".

Definition text_newline_garbage : string :=
  "1.5;" +:+ String Re.newline "2.5".

Definition text_final_newline : string :=
  "1,5 / -2,5" +:+ String Re.newline "".

(** The plan built at midnight from [solar_answer] and the index above,
    sunrise visited first. *)
Definition built_plan : execution_plan :=
  [ (four_o_one,
     [ mkEntry (TBit "set" 1) "sunrise with a +30 min offset";
       mkEntry (TGroupAction 7) "sunrise with a +30 min offset";
       mkEntry (TBit "clear" 2) "civil dawn with a +60 min offset";
       mkEntry (TGroupAction 8) "civil dawn with a +60 min offset" ]) ].

End Samples.

(* ===================================================================== *)
(** * astro/configuration.py: export                                      *)
(* ===================================================================== *)

Module export.
Import Py configuration.

(** [x.value]: an attribute only enumeration members have. *)
Definition member_value (v : value) : result string :=
  match v with
  | VSun m => Ok (sun_value m)
  | VAct a => Ok (action_value a)
  | _ => Raise AttributeError
  end.

(** [str(config.coordinates)]. [Coordinates.__str__] prints the two floats
    with six decimals; how a float is printed is outside the model, so the
    printer is an argument. [None] prints as its name. *)
Definition coordinates_text (show : Coordinates -> string)
    (c : option Coordinates) : string :=
  match c with
  | Some x => show x
  | None => "None"
  end.

(** The two dict displays of [get_json_configuration]. *)
Definition group_action_job_json (job : GroupActionJob) : result value :=
  bind (member_value (ga_sun_location job)) (fun sun =>
  Ok (VDict (<["group_action_id" := group_action_id job]>
            (<["sun_location" := VStr sun]>
            (<["offset" := ga_offset job]> ∅))))).

Definition validation_job_json (job : ValidationJob) : result value :=
  bind (member_value (sun_location job)) (fun sun =>
  Ok (VDict (<["action" := VStr (action_value (action job))]>
            (<["bit_id" := bit_id job]>
            (<["sun_location" := VStr sun]>
            (<["offset" := offset job]> ∅)))))).

(** [ConfigurationFactory.get_json_configuration] *)
Definition get_json_configuration (show : Coordinates -> string)
    (self : ConfigurationFactory) (config : option Configuration)
  : result (gmap string value) :=
  let config := match config with
                | None => configuration.config self
                | Some c => Some c
                end in
  match config with
  | None => Raise ValueError
  | Some config =>
      let text := coordinates_text show (coordinates config) in
      bind (mapM group_action_job_json (group_action_jobs config)) (fun basic =>
      bind (mapM validation_job_json (validation_jobs config)) (fun advanced =>
      Ok (<["coordinates" := VStr text]>
         (<["basic_configuration" := VList basic]>
         (<["advanced_configuration" := VList advanced]>
         (<["version" := VStr (version_value (version config))]> ∅))))))
  end.

End export.

(* ===================================================================== *)
(** * astro/main.py: reading the configuration                            *)
(* ===================================================================== *)

Module main_config.
Import Py configuration Time main export.

(** The plugin object: the attributes of [main.Astro] together with those
    that hold the configuration, the module-level [config_factory], and
    the record of the documents handed to [write_config]. *)
Record Plugin : Type := mkPlugin {
  astro : Astro;
  _config : gmap string value;
  _parsed_config : option Configuration;
  config_factory : ConfigurationFactory;
  _latitude : option pyfloat;
  _longitude : option pyfloat;
  written : list (gmap string value)
}.

Definition set_astro (a : Astro) (self : Plugin) : Plugin :=
  mkPlugin a (_config self) (_parsed_config self) (config_factory self)
    (_latitude self) (_longitude self) (written self).

Definition set_group_actions (d : list (loc_key * list group_action)) (a : Astro)
  : Astro :=
  mkAstro (_enabled a) d (_bits a) (_last_request_date a) (_execution_plan a)
    (_sleep_until a) (clock a) (requests a) (sleeps a) (basic_actions a).

Definition set_bits (d : list (loc_key * list bit)) (a : Astro) : Astro :=
  mkAstro (_enabled a) (_group_actions a) d (_last_request_date a)
    (_execution_plan a) (_sleep_until a) (clock a) (requests a) (sleeps a)
    (basic_actions a).

Definition set_enabled (b : bool) (a : Astro) : Astro :=
  mkAstro b (_group_actions a) (_bits a) (_last_request_date a)
    (_execution_plan a) (_sleep_until a) (clock a) (requests a) (sleeps a)
    (basic_actions a).

(** A [for] loop whose body may raise, with the state the loop has reached
    when it ends, normally or not. A body of [None] is an iteration the
    model has no state for. *)
Fixpoint loop {A S : Type} (body : S -> A -> option (result S)) (xs : list A)
    (s : S) : option (S * option exn) :=
  match xs with
  | [] => Some (s, None)
  | x :: rest =>
      match body s x with
      | None => None
      | Some (Ok s') => loop body rest s'
      | Some (Raise e) => Some (s, Some e)
      end
  end.

(** [try: n = int(x) / except ValueError: continue]: [None] for
    [continue]. Another exception goes on. *)
Definition int_or_continue (v : value) : result (option Z) :=
  match py_int v with
  | Ok n => Ok (Some n)
  | Raise ValueError => Ok None
  | Raise e => Raise e
  end.

(** [try: offset = int(x or 0) / except ValueError: offset = 0] *)
Definition offset_or_zero (v : value) : result Z :=
  match py_int (py_or v (VInt 0)) with
  | Ok n => Ok n
  | Raise ValueError => Ok 0
  | Raise e => Raise e
  end.

(** State of either loop of [_read_config]: the local dict, and the
    attribute of the plugin, which is bound to the local dict at the end
    of every iteration that reaches its end. *)
Definition index_state (E : Type) : Type :=
  (list (loc_key * list E) * list (loc_key * list E))%type.

(** Body of the loop over [group_action_jobs]. *)
Definition read_group_action (st : index_state group_action)
    (entry : GroupActionJob) : option (result (index_state group_action)) :=
  Some (
  bind (member_value (ga_sun_location entry)) (fun sun_location =>
  if negb (truthy (VStr sun_location)) then Ok st else
  bind (int_or_continue (group_action_id entry)) (fun id =>
  match id with
  | None => Ok st
  | Some group_action_id =>
      bind (offset_or_zero (ga_offset entry)) (fun offset =>
      let group_actions :=
        setdefault_append (fst st) (KStr sun_location)
          (mkGroupAction group_action_id offset) in
      Ok (group_actions, group_actions))
  end))).

(** The key [bits.setdefault(sun_location, [])] files under: the object
    itself. A list or a dict cannot be hashed. A key that is neither a
    member nor a [str] has no counterpart among the keys of the model;
    no configuration returned by [parse_configuration] has one. *)
Definition dict_key (v : value) : option (result loc_key) :=
  match v with
  | VSun m => Some (Ok (KSun m))
  | VStr s => Some (Ok (KStr s))
  | VList _ | VDict _ => Some (Raise TypeError)
  | _ => None
  end.

(** Body of the loop over [validation_jobs]. *)
Definition read_bit (st : index_state bit) (entry : ValidationJob)
  : option (result (index_state bit)) :=
  let sun_location := sun_location entry in
  if negb (truthy sun_location) then Some (Ok st) else
  let action := py_or (VStr (action_value (action entry))) (VStr "clear") in
  match int_or_continue (bit_id entry) with
  | Raise e => Some (Raise e)
  | Ok None => Some (Ok st)
  | Ok (Some bit_id) =>
      match offset_or_zero (offset entry) with
      | Raise e => Some (Raise e)
      | Ok offset =>
          match dict_key sun_location with
          | None => None
          | Some (Raise e) => Some (Raise e)
          | Some (Ok key) =>
              let act := match action with VStr s => s | _ => "clear" end in
              let bits := setdefault_append (fst st) key (mkBit bit_id act offset) in
              Some (Ok (bits, bits))
          end
      end
  end.

(** The end of [_read_config]: [_enabled], the day marker, the wake-up of
    the run loop (which is not part of the model). *)
Definition finish_read_config (enabled : bool) (self : Plugin) : Plugin :=
  let a := astro self in
  let active := negb (is_nil (_group_actions a)) || negb (is_nil (_bits a)) in
  set_astro (set_last_request_date None (set_enabled (enabled && active) a)) self.

(** [Astro._read_config]. [pytz] tells whether [import pytz] succeeds.
    The outcome is the exception that left the method, if any, and the
    plugin as the method left it. Logging is left out. *)
Definition _read_config (py : interpreter) (pytz : bool) (self : Plugin)
  : option (option exn * Plugin) :=
  match parse_configuration py (config_factory self) (_config self) with
  | (Raise e, factory) =>
      Some (Some e,
            mkPlugin (astro self) (_config self) (_parsed_config self) factory
              (_latitude self) (_longitude self) (written self))
  | (Ok parsed, factory) =>
      let self := mkPlugin (astro self) (_config self) (Some parsed) factory
                    (_latitude self) (_longitude self) (written self) in
      let enabled := pytz in
      if negb enabled then Some (None, finish_read_config enabled self)
      else
        match coordinates parsed with
        | None => Some (Some AttributeError, self)
        | Some coordinates =>
            let self := mkPlugin (astro self) (_config self) (_parsed_config self)
                          (config_factory self) (Some (latitude coordinates))
                          (Some (longitude coordinates)) (written self) in
            match loop read_group_action (group_action_jobs parsed)
                    ([], _group_actions (astro self)) with
            | None => None
            | Some (st, err) =>
                let self := set_astro (set_group_actions (snd st) (astro self)) self in
                match err with
                | Some e => Some (Some e, self)
                | None =>
                    match loop read_bit (validation_jobs parsed)
                            ([], _bits (astro self)) with
                    | None => None
                    | Some (st, err) =>
                        let self := set_astro (set_bits (snd st) (astro self)) self in
                        match err with
                        | Some e => Some (Some e, self)
                        | None => Some (None, finish_read_config enabled self)
                        end
                    end
                end
            end
        end
  end.



(** The plugin as [Astro.__init__] has it before it calls [_read_config],
    at time [now], with the stored document [config] and a factory that
    has parsed nothing yet. [_enabled] does not exist yet; [_read_config]
    gives it its first value. *)
Definition fresh_plugin (config : gmap string value) (now : Z) : Plugin :=
  mkPlugin (mkAstro false [] [] None [] 0 now 0 [] []) config None
    (mkFactory None) None None [].

End main_config.

(* ===================================================================== *)
(** * More of the specification's vocabulary                              *)
(* ===================================================================== *)

Module SpecMore.
Import Py configuration Time main export main_config Spec.

(** An id as validation leaves it: a number that is not negative. *)
Definition valid_id (v : value) : Prop :=
  (exists n, v = VInt n /\ 0 <= n) \/ (exists b, v = VBool b).

Definition is_member (v : value) : Prop := exists m, v = VSun m.

Definition is_number (v : value) : Prop :=
  (exists n, v = VInt n) \/ (exists b, v = VBool b).

(** A configuration as [parse_configuration] returns it. *)
Definition parsed_ok (c : Configuration) : Prop :=
  version c = V3_0
  /\ coordinates c <> None
  /\ Forall (fun j => valid_id (group_action_id j) /\ is_member (ga_sun_location j)
                      /\ is_number (ga_offset j)) (group_action_jobs c)
  /\ Forall (fun j => valid_id (bit_id j) /\ is_member (sun_location j)
                      /\ is_number (offset j)) (validation_jobs c).

(** A configuration whose ids and offsets are integers. *)
Definition canonical (c : Configuration) : Prop :=
  Forall (fun j => (exists n, group_action_id j = VInt n /\ 0 <= n)
                   /\ is_member (ga_sun_location j)
                   /\ (exists z, ga_offset j = VInt z)) (group_action_jobs c)
  /\ Forall (fun j => (exists n, bit_id j = VInt n /\ 0 <= n)
                      /\ is_member (sun_location j)
                      /\ (exists z, offset j = VInt z)) (validation_jobs c).

(** The integer a number stands for. *)
Definition number_value (v : value) : Z :=
  match v with
  | VInt n => n
  | VBool true => 1
  | _ => 0
  end.

(** The member a job names, [SOLAR_NOON] standing in when it names none. *)
Definition member_of (v : value) : SunLocation :=
  match v with
  | VSun m => m
  | _ => SOLAR_NOON
  end.

(** The automations of a configuration anchored at [m], in the order of
    the configuration, as entries of the index. *)
Definition automations_at (c : Configuration) (m : SunLocation) : list group_action :=
  map (fun j => mkGroupAction (number_value (group_action_id j))
                  (number_value (ga_offset j)))
    (List.filter (fun j => bool_decide (member_of (ga_sun_location j) = m))
       (group_action_jobs c)).

Definition bits_at (c : Configuration) (m : SunLocation) : list bit :=
  map (fun j => mkBit (number_value (bit_id j)) (action_value (action j))
                  (number_value (offset j)))
    (List.filter (fun j => bool_decide (member_of (sun_location j) = m))
       (validation_jobs c)).

(** Keys as [_read_config] files them: automations under the text of the
    sun location, validation bits under the member. *)
Definition text_keys {E : Type} (d : list (loc_key * list E)) : Prop :=
  Forall (fun k => exists s, k = KStr s) (keys d).

Definition member_keys {E : Type} (d : list (loc_key * list E)) : Prop :=
  Forall (fun k => exists m, k = KSun m) (keys d).

(** The answer of the solar-time source has no usable field ['x']. *)
Definition no_x_field (data : value) : Prop :=
  event_time data (KSun SOLAR_NOON) = None.

(** The location can be planned: its event time is found, and none of its
    fire times leaves the range of [datetime]. *)
Definition location_plannable (data : value)
    (gas : list (loc_key * list group_action)) (bits : list (loc_key * list bit))
    (sun_location : loc_key) : Prop :=
  (get_list gas sun_location = [] /\ get_list bits sun_location = [])
  \/ (exists results dt_string,
        subscript data "results" = Ok results
        /\ method_get results (field_of sun_location) = Ok dt_string
        /\ match _convert dt_string with
           | None => True
           | Some date =>
               Forall (fun b => exists t, datetime_add date (minutes (b_off b)) = Ok t)
                 (get_list bits sun_location)
               /\ Forall (fun g => exists t, datetime_add date (minutes (ga_off g)) = Ok t)
                    (get_list gas sun_location)
           end).

(** The pair of events a role of a version 1.0 document contributes: the
    bit, the event and offset of the start, the event and offset of the
    stop. *)
Record span : Type := mkSpan {
  span_bit : value;
  span_start : SunLocation;
  span_start_offset : value;
  span_stop : SunLocation;
  span_stop_offset : value
}.

Definition span_validation_jobs (s : span) : list ValidationJob :=
  [ mkValidationJob SET (span_bit s) (VSun (span_start s)) (span_start_offset s);
    mkValidationJob CLEAR (span_bit s) (VSun (span_stop s)) (span_stop_offset s) ].

Definition span_group_action_jobs (automation : value) (s : span)
  : list GroupActionJob :=
  [ mkGroupActionJob automation (VSun (span_start s)) (span_start_offset s);
    mkGroupActionJob automation (VSun (span_stop s)) (span_stop_offset s) ].

(** The bit is a number that is not negative, the offsets are numbers and
    add up to zero. *)
Definition span_ok (s : span) : Prop :=
  py_ge0 (span_bit s) = Ok true
  /\ is_number (span_start_offset s) /\ is_number (span_stop_offset s)
  /\ number_value (span_start_offset s) + number_value (span_stop_offset s) = 0.

(** The two lists of a version 1.0 migration are made of the same spans. *)
Definition made_of_spans (automation : value) (acc : job_lists)
    (spans : list span) : Prop :=
  fst acc = flat_map (span_group_action_jobs automation) spans
  /\ snd acc = flat_map span_validation_jobs spans
  /\ Forall span_ok spans.

(** The scans of a sequence of wakes over one plan, [tomorrow] being what
    the host says at each wake. *)
Definition wakes (h : host) (nows : list Z) (self : Astro) : Astro :=
  fold_left (fun a now => plugin (scan h now (tomorrow_of h now) a)) nows self.

(** The plugin when the wait of [_sleep] ends, at time [t]. *)
Definition woken (t : Z) (self : Astro) : Astro :=
  mkAstro (_enabled self) (_group_actions self) (_bits self)
    (_last_request_date self) (_execution_plan self) (_sleep_until self) t
    (requests self) (sleeps self) (basic_actions self).

(** The passes of [run] that begin at the times [ts], each when the wait
    of the pass before it has ended. *)
Definition passes (pytz : bool) (h : host) (ts : list Z) (self : Astro)
  : result Astro :=
  foldM (fun a t => run_pass pytz h (woken t a)) ts self.

(** Distinct fire times, each with at least one entry. *)
Definition plan_well_formed (plan : execution_plan) : Prop :=
  NoDup (keys plan) /\ Forall (fun kv => snd kv <> []) plan.

End SpecMore.

Module SamplesMore.
Import Py configuration Time main export main_config Spec SpecMore Samples.

(** A printer of coordinates that writes the two literals with a
    semicolon between them. *)
Definition show_literals (c : Coordinates) : string :=
  match latitude c, longitude c with
  | FloatLit a, FloatLit b => a +:+ ";" +:+ b
  end.

(** A configuration with one job of each kind. *)
Definition small_configuration : Configuration :=
  mkConfiguration (Some test_coordinates)
    [mkGroupActionJob (VInt 7) (VSun SUNSET) (VInt 30)]
    [mkValidationJob SET (VInt 12) (VSun SUNRISE) (VInt (-5))] V3_0.

(** A version 3.0 document with coordinates and no job. *)
Definition doc_no_jobs : gmap string value :=
  document
    [ ("version", VStr "3.0"); ("coordinates", VStr "51.064630;3.737539");
      ("basic_configuration", VList []); ("advanced_configuration", VList []) ].

(** A plugin that has read [doc_v3_offsets] earlier and is handed
    [doc_no_jobs]. *)
Definition configured_plugin : Plugin :=
  match _read_config Py312 true (fresh_plugin doc_v3_offsets noon) with
  | Some (None, p) =>
      mkPlugin (astro p) doc_no_jobs (_parsed_config p) (config_factory p)
        (_latitude p) (_longitude p) (written p)
  | _ => fresh_plugin doc_no_jobs noon
  end.

(** A host whose solar-time source answers [solar_answer] to every
    request, after one second; the calendar is that of [silent_host]. *)
Definition answering_host : host :=
  mkHost (fun _ => Response 200 (Some solar_answer)) (fun _ => seconds 1)
    (fun _ => 0) (fun _ => midnight_2024_06_21)
    (fun _ => midnight_2024_06_21 + days 1)
    [KStr "sunrise"; KSun CIVIL_DAWN; KStr "sunset"; KSun CIVIL_DUSK].

(** A host whose solar-time source does not answer the first two
    requests and answers [solar_answer] from the third on. *)
Definition recovering_host : host :=
  mkHost (fun n => if (n <? 2)%nat then NoResponse
                   else Response 200 (Some solar_answer))
    (fun _ => seconds 1) (fun _ => 0) (fun _ => midnight_2024_06_21)
    (fun _ => midnight_2024_06_21 + days 1)
    [KStr "sunrise"; KStr "civil dawn"].

(** The plugin at the first wake of 2024-06-21, at midnight. *)
Definition plugin_at_midnight : Astro :=
  mkAstro true index_group_actions index_bits None [] 0 midnight_2024_06_21
    0 [] [].


End SamplesMore.

(* ===================================================================== *)
(** * Properties                                                          *)
(* ===================================================================== *)

Import Py configuration Time main Spec Samples.
Import export main_config SpecMore SamplesMore.

(** ** The scenarios of the test suite *)

Example test_calculate_mapping_v1 :
  fst (parse_configuration Py312 (mkFactory None) test_doc_v1)
  = Ok (mkConfiguration (Some test_coordinates)
          [ mkGroupActionJob (VInt 0) (VSun SUNRISE) (VInt 0);
            mkGroupActionJob (VInt 0) (VSun SUNSET) (VInt 0) ]
          [ mkValidationJob SET (VInt 200) (VSun SUNRISE) (VInt 0);
            mkValidationJob CLEAR (VInt 200) (VSun SUNSET) (VInt 0) ]
          V3_0).
Proof. vm_compute. reflexivity. Qed.

Example test_calculate_mapping_v1_with_multiple :
  fst (parse_configuration Py312 (mkFactory None) test_doc_v1_multiple)
  = Ok (mkConfiguration (Some test_coordinates)
          [ mkGroupActionJob (VInt 0) (VSun ASTRONOMICAL_DAWN) (VInt 0);
            mkGroupActionJob (VInt 0) (VSun ASTRONOMICAL_DUSK) (VInt 0);
            mkGroupActionJob (VInt 0) (VSun SUNRISE) (VInt 60);
            mkGroupActionJob (VInt 0) (VSun SUNSET) (VInt (-60)) ]
          [ mkValidationJob SET (VInt 2) (VSun ASTRONOMICAL_DAWN) (VInt 0);
            mkValidationJob CLEAR (VInt 2) (VSun ASTRONOMICAL_DUSK) (VInt 0);
            mkValidationJob SET (VInt 1) (VSun SUNRISE) (VInt 60);
            mkValidationJob CLEAR (VInt 1) (VSun SUNSET) (VInt (-60)) ]
          V3_0).
Proof. vm_compute. reflexivity. Qed.

Example test_calculate_mapping_v2 :
  fst (parse_configuration Py312 (mkFactory None) test_doc_v2)
  = Ok (mkConfiguration
          (Some (mkCoordinates (FloatLit "42.854040") (FloatLit "13.896781")))
          [ mkGroupActionJob (VInt 3) (VSun SUNSET) (VInt 30);
            mkGroupActionJob (VInt 5) (VSun SUNRISE) (VInt (-90)) ]
          [] V3_0).
Proof. vm_compute. reflexivity. Qed.

(** ** Version 1.0 migration *)

Lemma int_field_get (doc : gmap string value) (k : string) (d z : Z) :
  int_field doc k d = Some z -> dict_get doc k (VInt d) = VInt z.
Proof.
  unfold int_field, dict_get.
  destruct (doc !! k) as [v|]; [destruct v|]; intros H; simplify_eq; reflexivity.
Qed.

Lemma truthy_nonempty (s : string) : s <> EmptyString -> truthy (VStr s) = true.
Proof. destruct s; [congruence | reflexivity]. Qed.

Lemma valid_coordinates_get (doc : gmap string value) (c : Coordinates) :
  valid_coordinates doc c ->
  exists s, dict_get doc "coordinates" VNone = VStr s
            /\ truthy (VStr s) = true /\ from_string (VStr s) = Ok c.
Proof.
  intros (s & Hs & Hne & Hc). exists s. unfold dict_get. rewrite Hs.
  split; [reflexivity|]. split; [by apply truthy_nonempty | exact Hc].
Qed.

(** The loop over the five tuples yields, role by role, what the
    specification lists. *)
Lemma v1_loop_roles (f : v1_fields) :
  foldM (v1_role_step (VInt (bright_offset f)) (automation f))
    (v1_roles (VInt (bit_of f Horizon)) (VInt (bit_of f Civil))
       (VInt (bit_of f Nautical)) (VInt (bit_of f Astronomical))
       (VInt (bit_of f Bright)))
    ([], [])
  = Ok (flat_map (role_group_action_jobs f) roles_in_order,
        flat_map (role_validation_jobs f) roles_in_order).
Proof.
  unfold role_group_action_jobs, role_validation_jobs. simpl.
  destruct (0 <=? bit_of f Horizon); simpl;
  destruct (0 <=? bit_of f Civil); simpl;
  destruct (0 <=? bit_of f Nautical); simpl;
  destruct (0 <=? bit_of f Astronomical); simpl;
  destruct (0 <=? bit_of f Bright); reflexivity.
Qed.

Lemma migrate_v1_valid (doc : gmap string value) (f : v1_fields) (c : Coordinates) :
  valid_v1 doc f c ->
  _migrate_configuration_v1 doc
  = Ok (mkConfiguration (Some c)
          (flat_map (role_group_action_jobs f) roles_in_order)
          (flat_map (role_validation_jobs f) roles_in_order)
          V3_0).
Proof.
  intros (Hv & Hbits & Hoff & Hga & Hc).
  apply valid_coordinates_get in Hc as (s & Hs & Ht & Hparse).
  unfold _migrate_configuration_v1. rewrite Hv. cbn [bind version_eqb negb].
  rewrite Hs, Ht. cbn [negb]. rewrite Hparse. cbn [bind].
  pose proof (int_field_get _ _ _ _ (Hbits Horizon)) as Hh.
  pose proof (int_field_get _ _ _ _ (Hbits Civil)) as Hci.
  pose proof (int_field_get _ _ _ _ (Hbits Nautical)) as Hn.
  pose proof (int_field_get _ _ _ _ (Hbits Astronomical)) as Ha.
  pose proof (int_field_get _ _ _ _ (Hbits Bright)) as Hb.
  cbn [role_key] in Hh, Hci, Hn, Ha, Hb.
  rewrite Hh, Hci, Hn, Ha, Hb, (int_field_get _ _ _ _ Hoff), Hga.
  rewrite v1_loop_roles. reflexivity.
Qed.

(** C1. For every valid version 1.0 document, migration runs through the
    roles horizon, civil, nautical, astronomical, bright in that order; a
    role whose bit is at least 0 contributes one SET job at its dawn or
    sunrise event followed by one CLEAR job at its dusk or sunset event,
    and two automation jobs with the configured id at the same two events;
    the bright role carries the offsets (+bright_offset, -bright_offset),
    the other roles 0; a role whose bit is negative contributes nothing. *)
Theorem migrate_v1_roles (doc : gmap string value) (f : v1_fields) (c : Coordinates) :
  valid_v1 doc f c ->
  _migrate_configuration_v1 doc
  = Ok (mkConfiguration (Some c)
          (flat_map (role_group_action_jobs f) roles_in_order)
          (flat_map (role_validation_jobs f) roles_in_order)
          V3_0).
Proof. exact (migrate_v1_valid doc f c). Qed.

Lemma test_doc_v1_multiple_valid :
  valid_v1 test_doc_v1_multiple
    (mkV1 (fun r => match r with Astronomical => 2 | Bright => 1 | _ => -1 end)
       60 (VInt 0))
    test_coordinates.
Proof.
  split; [reflexivity|]. split; [intros []; reflexivity|].
  split; [reflexivity|]. split; [reflexivity|].
  exists "51.064630;3.737539"%string.
  split; [reflexivity|]. split; [discriminate | reflexivity].
Defined.

Lemma migrate_v1_roles_witness :
  _migrate_configuration_v1 test_doc_v1_multiple
  = Ok (mkConfiguration (Some test_coordinates)
          [ mkGroupActionJob (VInt 0) (VSun ASTRONOMICAL_DAWN) (VInt 0);
            mkGroupActionJob (VInt 0) (VSun ASTRONOMICAL_DUSK) (VInt 0);
            mkGroupActionJob (VInt 0) (VSun SUNRISE) (VInt 60);
            mkGroupActionJob (VInt 0) (VSun SUNSET) (VInt (-60)) ]
          [ mkValidationJob SET (VInt 2) (VSun ASTRONOMICAL_DAWN) (VInt 0);
            mkValidationJob CLEAR (VInt 2) (VSun ASTRONOMICAL_DUSK) (VInt 0);
            mkValidationJob SET (VInt 1) (VSun SUNRISE) (VInt 60);
            mkValidationJob CLEAR (VInt 1) (VSun SUNSET) (VInt (-60)) ]
          V3_0).
Proof.
  exact (migrate_v1_roles test_doc_v1_multiple _ _ test_doc_v1_multiple_valid).
Defined.

(** ** Validation and [parse_configuration] *)

(** The factory changes only when the call returns a configuration, and
    then to that configuration. *)
Lemma parse_configuration_cases (py : interpreter) (self : ConfigurationFactory)
    (doc : gmap string value) :
  (exists e, parse_configuration py self doc = (Raise e, self))
  \/ (exists v m c,
        _determine_configuration_version doc = Ok v
        /\ migrate v doc = Ok m
        /\ _verify_configuration py m = Ok c
        /\ parse_configuration py self doc = (Ok c, mkFactory (Some c))).
Proof.
  unfold parse_configuration.
  destruct (_determine_configuration_version doc) as [v|e] eqn:Hv; [|left; eauto].
  change (match v with
          | V3_0 => _migrate_configuration_v3 doc
          | V2_0 => _migrate_configuration_v2 doc
          | V1_0 => _migrate_configuration_v1 doc
          end) with (migrate v doc).
  destruct (migrate v doc) as [m|e] eqn:Hm; [|left; eauto].
  destruct (_verify_configuration py m) as [c|e] eqn:Hc; [|left; eauto].
  right. exists v, m, c. auto.
Qed.

(** C7. When [parse_configuration] raises, whatever the reason, the
    configuration stored in the factory is the one stored before the
    call; the factory's configuration is replaced only when migration and
    validation have both succeeded, and then by the validated
    configuration, which is also what the call returns. *)
Theorem parse_configuration_failure_keeps_config (py : interpreter)
    (self : ConfigurationFactory) (doc : gmap string value) :
  (forall e, fst (parse_configuration py self doc) = Raise e ->
             snd (parse_configuration py self doc) = self)
  /\ (forall c, fst (parse_configuration py self doc) = Ok c ->
        snd (parse_configuration py self doc) = mkFactory (Some c)
        /\ exists v m,
             _determine_configuration_version doc = Ok v
             /\ migrate v doc = Ok m
             /\ _verify_configuration py m = Ok c).
Proof.
  destruct (parse_configuration_cases py self doc)
    as [[e' He] | (v & m & c' & Hv & Hm & Hc & Hp)]; rewrite ?He, ?Hp; cbn [fst snd].
  - split; [reflexivity | discriminate].
  - split; [discriminate|]. intros c [= <-]. split; [reflexivity | eauto].
Qed.

Lemma parse_configuration_failure_keeps_config_witness :
  let previous := mkFactory (Some (mkConfiguration (Some test_coordinates) [] [] V3_0)) in
  fst (parse_configuration Py312 previous doc_negative_bit_id) = Raise ValueError
  /\ snd (parse_configuration Py312 previous doc_negative_bit_id) = previous.
Proof.
  split; [reflexivity|].
  exact (proj1 (parse_configuration_failure_keeps_config Py312 _ doc_negative_bit_id)
           ValueError eq_refl).
Defined.

(** The five reasons the specification lists, each on a document of its
    own: the call raises [ValueError] and leaves the factory alone. *)
Example parse_configuration_rejections :
  let previous := mkFactory (Some (mkConfiguration (Some test_coordinates) [] [] V3_0)) in
  Forall (fun doc => parse_configuration Py312 previous doc = (Raise ValueError, previous))
    [ doc_missing_coordinates; doc_unknown_version; doc_bad_id;
      doc_negative_bit_id; doc_unknown_sun_location ].
Proof. repeat constructor. Qed.

(** The first loop of the validation stops at a negative id. *)
Lemma verify_negative_group_action_id (g : Z) (j : GroupActionJob)
    (rest : list GroupActionJob) :
  group_action_id j = VInt g -> g < 0 ->
  mapM verify_group_action_job (j :: rest) = Raise ValueError.
Proof.
  intros Hid Hg. cbn [mapM]. unfold verify_group_action_job. rewrite Hid.
  cbn. destruct (Z.ltb_spec g 0); [reflexivity | lia].
Qed.

(** One turn of the loop of the version 1.0 migration: it raises
    [TypeError] when the bit cannot be compared with 0 or the bright
    offset cannot be negated, and nothing else. *)
Lemma v1_role_step_raises (bright_offset group_action_id : value) (acc : job_lists)
    (role : value * SunLocation * SunLocation * bool) :
  role_migrates bright_offset role = false ->
  v1_role_step bright_offset group_action_id acc role = Raise TypeError.
Proof.
  destruct role as [[[bit start] stop] account_offset], acc as [gs vs].
  unfold role_migrates, v1_role_step.
  destruct bit as [| |z| | | | |]; cbn [py_ge0 bind]; try discriminate;
    try reflexivity.
  - destruct account_offset; [|discriminate].
    destruct bright_offset; cbn; (discriminate || reflexivity).
  - destruct (0 <=? z); [|discriminate].
    destruct account_offset; [|discriminate].
    destruct bright_offset; cbn; (discriminate || reflexivity).
Qed.

Lemma v1_role_step_returns (bright_offset group_action_id : value) (acc : job_lists)
    (role : value * SunLocation * SunLocation * bool) :
  role_migrates bright_offset role = true ->
  exists acc',
    v1_role_step bright_offset group_action_id acc role = Ok acc'
    /\ (Forall (fun j => configuration.group_action_id j = group_action_id) (fst acc) ->
        Forall (fun j => configuration.group_action_id j = group_action_id) (fst acc'))
    /\ (fst acc <> [] \/ py_ge0 (fst (fst (fst role))) = Ok true -> fst acc' <> []).
Proof.
  destruct role as [[[bit start] stop] account_offset], acc as [gs vs].
  unfold role_migrates, v1_role_step. cbn [fst].
  destruct (py_ge0 bit) as [[|]|]; cbn [bind]; [| |discriminate].
  - intros Hnum.
    assert (Hstop : exists off, stop_offset bright_offset account_offset = Ok off).
    { destruct account_offset; [|by eexists].
      destruct bright_offset; try discriminate; by eexists. }
    destruct Hstop as [off ->]. cbn [bind]. eexists. split; [reflexivity|].
    cbn [fst]. split.
    + intros Hall. rewrite <- app_assoc. apply Forall_app. split; [exact Hall|].
      repeat constructor.
    + intros _. rewrite <- app_assoc. intros Hnil.
      apply app_eq_nil in Hnil as [_ Hnil]. discriminate.
  - intros _. eexists. split; [reflexivity|]. cbn [fst]. split; [auto|].
    intros [Hne | Hen]; [exact Hne | discriminate].
Qed.

(** The loop of the migration over any list of roles. *)
Lemma v1_loop_outcome (bright_offset group_action_id : value)
    (roles : list (value * SunLocation * SunLocation * bool)) :
  forall acc,
    Forall (fun j => configuration.group_action_id j = group_action_id) (fst acc) ->
    if forallb (role_migrates bright_offset) roles
    then exists acc',
           foldM (v1_role_step bright_offset group_action_id) roles acc = Ok acc'
           /\ Forall (fun j => configuration.group_action_id j = group_action_id)
                (fst acc')
           /\ (fst acc <> []
               \/ Exists (fun role => py_ge0 (fst (fst (fst role))) = Ok true) roles ->
               fst acc' <> [])
    else foldM (v1_role_step bright_offset group_action_id) roles acc = Raise TypeError.
Proof.
  induction roles as [|role roles IH]; intros acc Hall; cbn [forallb foldM].
  - exists acc. split; [reflexivity|]. split; [exact Hall|].
    intros [Hne | Hex]; [exact Hne | inversion Hex].
  - destruct (role_migrates bright_offset role) eqn:Hrole; cbn [andb].
    + destruct (v1_role_step_returns bright_offset group_action_id acc role Hrole)
        as (acc1 & -> & Hall1 & Hne1).
      cbn [bind]. specialize (IH acc1 (Hall1 Hall)).
      destruct (forallb (role_migrates bright_offset) roles); [|exact IH].
      destruct IH as (acc' & Hrun & Hall' & Hne').
      exists acc'. split; [exact Hrun|]. split; [exact Hall'|].
      intros [Hne | Hex]; apply Hne'.
      * left. apply Hne1. left. exact Hne.
      * apply Exists_cons in Hex as [Hhere | Hlater]; [|right; exact Hlater].
        left. apply Hne1. right. exact Hhere.
    + rewrite (v1_role_step_raises bright_offset group_action_id acc role Hrole).
      reflexivity.
Qed.

(** C10, as stated, fails on the exception: a version 1.0 document with
    valid coordinates, the horizon bit in use, no [group_action] and a
    null for [civil_bit] is refused with [TypeError], raised by the
    migration when it compares the null with 0, under every interpreter;
    the validation that would raise [ValueError] is not reached. *)
Lemma null_bit_raises_type_error :
  _determine_configuration_version doc_null_civil_bit = Ok V1_0
  /\ valid_coordinates doc_null_civil_bit test_coordinates
  /\ py_ge0 (v1_bit doc_null_civil_bit Horizon) = Ok true
  /\ doc_null_civil_bit !! "group_action" = None
  /\ Forall (fun py => parse_configuration py (mkFactory None) doc_null_civil_bit
                       = (Raise TypeError, mkFactory None))
       [Py37; Py38_311; Py312; Py313].
Proof.
  split; [reflexivity|]. split.
  - exists "51.064630;3.737539"%string.
    split; [reflexivity|]. split; [discriminate | reflexivity].
  - split; [reflexivity|]. split; [reflexivity|]. repeat constructor.
Qed.

(** C10, amended. A version 1.0 document with valid coordinates in which
    some bit role has a value that is at least 0, while [group_action] is
    absent or a negative integer, never produces a configuration:
    [parse_configuration] raises and the factory keeps its configuration.
    The exception is the [ValueError] of the validation, which refuses
    the (defaulted) id that migration gave every automation job, when
    every bit field is a number and [bright_offset] is a number if the
    bright role is enabled; otherwise it is the [TypeError] of the
    migration, which is raised first. *)
Theorem v1_enabled_bit_needs_automation (py : interpreter)
    (self : ConfigurationFactory) (doc : gmap string value) (c : Coordinates) :
  _determine_configuration_version doc = Ok V1_0 ->
  valid_coordinates doc c ->
  (exists r, py_ge0 (v1_bit doc r) = Ok true) ->
  (doc !! "group_action" = None
   \/ exists g, doc !! "group_action" = Some (VInt g) /\ g < 0) ->
  parse_configuration py self doc
  = (Raise (if v1_migrates doc then ValueError else TypeError), self).
Proof.
  intros Hv Hc [r Hr] Hga.
  assert (Hneg : exists g, dict_get doc "group_action" (VInt (-1)) = VInt g /\ g < 0).
  { unfold dict_get. destruct Hga as [-> | (g & -> & Hg)]; [exists (-1) | exists g];
      (split; [reflexivity | lia]). }
  destruct Hneg as (g & Hauto & Hg).
  apply valid_coordinates_get in Hc as (s & Hs & Ht & Hparse).
  unfold parse_configuration. rewrite Hv.
  unfold _migrate_configuration_v1. rewrite Hv. cbn [bind version_eqb negb].
  rewrite Hs, Ht. cbn [negb]. rewrite Hparse. cbn [bind].
  pose proof (v1_loop_outcome (dict_get doc "bright_offset" (VInt 0))
                (dict_get doc "group_action" (VInt (-1)))
                (v1_roles (v1_bit doc Horizon) (v1_bit doc Civil) (v1_bit doc Nautical)
                   (v1_bit doc Astronomical) (v1_bit doc Bright))
                ([], []) ltac:(constructor)) as Hloop.
  unfold v1_migrates. unfold v1_bit in Hloop |- *. cbn [role_key] in Hloop |- *.
  destruct (forallb _ _).
  - destruct Hloop as (acc' & -> & Hall & Hne). cbn [bind].
    unfold _verify_configuration. cbn [coordinates group_action_jobs].
    assert (Hne' : fst acc' <> []).
    { apply Hne. right. unfold v1_roles, v1_bit in *.
      destruct r; cbn [role_key] in Hr;
        repeat (first [apply Exists_cons_hd; exact Hr | apply Exists_cons_tl]). }
    destruct (fst acc') as [|j rest]; [congruence|].
    inversion Hall as [|? ? Hj _]; subst.
    rewrite (verify_negative_group_action_id g j rest); [reflexivity | congruence | exact Hg].
  - rewrite Hloop. reflexivity.
Qed.

Lemma v1_enabled_bit_needs_automation_witness :
  parse_configuration Py312 (mkFactory None) doc_no_automation
  = (Raise ValueError, mkFactory None).
Proof.
  refine (v1_enabled_bit_needs_automation Py312 (mkFactory None) doc_no_automation
            test_coordinates eq_refl _ _ _).
  - exists "51.064630;3.737539"%string.
    split; [reflexivity|]. split; [discriminate | reflexivity].
  - exists Horizon. reflexivity.
  - left. reflexivity.
Defined.

(** ** Version 2.0 and 3.0 migration *)

Lemma SunLocation_call_value (m : SunLocation) :
  SunLocation_call (VStr (sun_value m)) = Ok m.
Proof. destruct m; reflexivity. Qed.

Lemma ValidationJobAction_call_value (a : ValidationJobAction) :
  ValidationJobAction_call (VStr (action_value a)) = Ok a.
Proof. destruct a; reflexivity. Qed.

Lemma offset_coerced_int (off : value) (z : Z) :
  offset_coerced off z -> py_int (py_or off (VInt 0)) = Ok z.
Proof.
  intros [| |z'|s z' Hne Hint]; try reflexivity.
  - unfold py_or. cbn [truthy]. destruct (z' =? 0) eqn:E; cbn [negb py_int];
      [f_equal; lia | reflexivity].
  - unfold py_or. rewrite (truthy_nonempty s Hne). exact Hint.
Qed.

Lemma group_action_job_of_entry (e : value) (j : GroupActionJob) :
  basic_entry e j -> group_action_job_of e = Ok j.
Proof.
  intros [d id off m z Hid Hsun Hoff Hz].
  unfold group_action_job_of, subscript. rewrite Hid, Hsun, Hoff. cbn [bind].
  rewrite SunLocation_call_value. cbn [bind].
  rewrite (offset_coerced_int off z Hz). reflexivity.
Qed.

Lemma validation_job_of_entry (e : value) (j : ValidationJob) :
  advanced_entry e j -> validation_job_of e = Ok j.
Proof.
  intros [d id off a m z Ha Hid Hsun Hoff Hz].
  unfold validation_job_of, subscript. rewrite Ha, Hid, Hsun, Hoff. cbn [bind].
  rewrite ValidationJobAction_call_value, SunLocation_call_value. cbn [bind].
  rewrite (offset_coerced_int off z Hz). reflexivity.
Qed.

(** A comprehension whose element expression succeeds on every element
    yields the images in order. *)
Lemma mapM_Forall2 {A B : Type} (f : A -> result B) (R : A -> B -> Prop)
    (xs : list A) (ys : list B) :
  (forall x y, R x y -> f x = Ok y) -> Forall2 R xs ys -> mapM f xs = Ok ys.
Proof.
  intros Hf H. induction H as [|x y xs ys Hxy _ IH]; [reflexivity|].
  cbn [mapM]. rewrite (Hf x y Hxy). cbn [bind]. rewrite IH. reflexivity.
Qed.

Lemma migrate_lists_valid (doc : gmap string value) (c : Coordinates)
    (basic advanced : list value)
    (gs : list GroupActionJob) (vs : list ValidationJob) :
  valid_coordinates doc c ->
  dict_get doc "basic_configuration" (VList []) = VList basic ->
  dict_get doc "advanced_configuration" (VList []) = VList advanced ->
  Forall2 basic_entry basic gs ->
  Forall2 advanced_entry advanced vs ->
  migrate_lists doc = Ok (mkConfiguration (Some c) gs vs V3_0).
Proof.
  intros Hc Hb Ha Hgs Hvs.
  apply valid_coordinates_get in Hc as (s & Hs & Ht & Hparse).
  unfold migrate_lists. rewrite Hs, Ht. cbn [negb]. rewrite Hparse, Hb, Ha.
  cbn [bind iterate].
  rewrite (mapM_Forall2 _ _ _ _ group_action_job_of_entry Hgs). cbn [bind].
  rewrite (mapM_Forall2 _ _ _ _ validation_job_of_entry Hvs). reflexivity.
Qed.

(** C2. For every valid document of version 2.0 or 3.0, migration maps
    the elements of [basic_configuration] to automation jobs and those of
    [advanced_configuration] to validation jobs, one for one and in the
    order of the lists; the id, the action and the sun location are those
    of the element, and a null or empty offset becomes 0. *)
Theorem migrate_lists_in_order (doc : gmap string value) (v : ConfigurationVersion)
    (c : Coordinates) (basic advanced : list value)
    (gs : list GroupActionJob) (vs : list ValidationJob) :
  valid_lists_document doc v c basic advanced ->
  Forall2 basic_entry basic gs ->
  Forall2 advanced_entry advanced vs ->
  migrate v doc = Ok (mkConfiguration (Some c) gs vs V3_0).
Proof.
  intros (Hv & Hver & Hc & Hb & Ha) Hgs Hvs.
  pose proof (migrate_lists_valid doc c basic advanced gs vs Hc Hb Ha Hgs Hvs) as H.
  destruct Hver as [-> | ->]; cbn [migrate];
    unfold _migrate_configuration_v2, _migrate_configuration_v3;
    rewrite Hv; cbn [bind version_eqb negb]; exact H.
Qed.

Lemma migrate_lists_in_order_witness :
  _migrate_configuration_v3 doc_v3_offsets
  = Ok (mkConfiguration (Some test_coordinates)
          [ mkGroupActionJob (VStr "7") (VSun SUNSET) (VInt 0);
            mkGroupActionJob (VInt 5) (VSun SUNRISE) (VInt (-90)) ]
          [ mkValidationJob CLEAR (VInt 12) (VSun CIVIL_DUSK) (VInt 0);
            mkValidationJob SET (VInt 12) (VSun CIVIL_DAWN) (VInt 15) ]
          V3_0).
Proof.
  apply (migrate_lists_in_order doc_v3_offsets V3_0 test_coordinates
           doc_v3_basic doc_v3_advanced).
  - split; [reflexivity|]. split; [right; reflexivity|].
    split; [|split; reflexivity].
    exists "51.064630;3.737539"%string.
    split; [reflexivity|]. split; [discriminate | reflexivity].
  - constructor; [|constructor; [|constructor]].
    + apply (basic_entry_intro _ (VStr "7") VNone SUNSET 0);
        [reflexivity | reflexivity | reflexivity | constructor].
    + apply (basic_entry_intro _ (VInt 5) (VStr "-90") SUNRISE (-90));
        [reflexivity | reflexivity | reflexivity |].
      apply offset_text; [discriminate | reflexivity].
  - constructor; [|constructor; [|constructor]].
    + apply (advanced_entry_intro _ (VInt 12) (VStr "") CLEAR CIVIL_DUSK 0);
        [reflexivity | reflexivity | reflexivity | reflexivity | constructor].
    + apply (advanced_entry_intro _ (VInt 12) (VInt 15) SET CIVIL_DAWN 15);
        [reflexivity | reflexivity | reflexivity | reflexivity | constructor].
Defined.

(** ** The plan builder *)

Section InsertionOrderedDict.
Context {K V : Type} `{EqDecision K}.
Implicit Types (d : list (K * list V)) (k : K) (x : V).

Lemma get_list_setdefault_append d k x k' :
  get_list (setdefault_append d k x) k'
  = if decide (k' = k) then get_list d k ++ [x] else get_list d k'.
Proof.
  unfold get_list. induction d as [|[k0 l] d IH]; cbn [setdefault_append get].
  - destruct (decide (k' = k)); reflexivity.
  - destruct (decide (k = k0)) as [->|Hne]; cbn [get];
      repeat case_decide; simplify_eq; try reflexivity; try congruence.
Qed.

Lemma keys_setdefault_append d k x :
  forall k', In k' (keys (setdefault_append d k x)) -> k' = k \/ In k' (keys d).
Proof.
  unfold keys. induction d as [|[k0 l] d IH]; cbn [setdefault_append map fst]; intros k' Hin.
  - destruct Hin as [<-|[]]. left; reflexivity.
  - destruct (decide (k = k0)) as [->|Hne]; cbn [map fst In] in *.
    + right. exact Hin.
    + destruct Hin as [<-|Hin]; [right; left; reflexivity|].
      destruct (IH k' Hin); [left | right; right]; assumption.
Qed.

Lemma NoDup_keys_setdefault_append d k x :
  NoDup (keys d) -> NoDup (keys (setdefault_append d k x)).
Proof.
  unfold keys. induction d as [|[k0 l] d IH]; cbn [setdefault_append map fst]; intros Hnd.
  - constructor; [apply not_elem_of_nil | constructor].
  - destruct (decide (k = k0)) as [->|Hne]; cbn [map fst]; [exact Hnd|].
    apply NoDup_cons in Hnd as [Hnotin Hnd]. apply NoDup_cons. split; [|auto].
    intros Hin%list_elem_of_In%keys_setdefault_append.
    destruct Hin as [->|Hin]; [congruence|]. apply Hnotin, list_elem_of_In, Hin.
Qed.

Lemma get_keys (d' : list (K * V)) k :
  get d' k = None <-> ~ In k (keys d').
Proof.
  unfold keys. induction d' as [|[k0 v] d' IH]; cbn [get map fst In]; [tauto|].
  destruct (decide (k = k0)) as [->|Hne]; [split; [discriminate | tauto]|].
  rewrite IH. split; [intros Hn [Heq|Hin]; [congruence | tauto] | tauto].
Qed.

Lemma get_In (d' : list (K * V)) k v :
  get d' k = Some v -> In (k, v) d'.
Proof.
  induction d' as [|[k0 v0] d' IH]; cbn [get In]; [discriminate|].
  destruct (decide (k = k0)) as [->|Hne]; [intros [= ->]; left; reflexivity|].
  intros Hg. right. exact (IH Hg).
Qed.

Lemma In_get (d' : list (K * V)) k v :
  NoDup (keys d') -> In (k, v) d' -> get d' k = Some v.
Proof.
  unfold keys. induction d' as [|[k0 v0] d' IH]; cbn [get In map fst]; [tauto|].
  intros [Hnotin Hnd]%NoDup_cons [[= -> ->]|Hin].
  - rewrite decide_True by reflexivity. reflexivity.
  - destruct (decide (k = k0)) as [->|Hne]; [|exact (IH Hnd Hin)].
    exfalso. apply Hnotin, list_elem_of_In, in_map_iff. exists (k0, v). auto.
Qed.

(** Every list stored under a key by [setdefault_append] has an element. *)
Lemma nonempty_setdefault_append d k x :
  Forall (fun kv => snd kv <> []) d ->
  Forall (fun kv => snd kv <> []) (setdefault_append d k x).
Proof.
  induction d as [|[k0 l] d IH]; cbn [setdefault_append]; intros Hd.
  - repeat constructor. discriminate.
  - apply Forall_cons in Hd as [Hl Hd].
    destruct (decide (k = k0)); constructor; cbn [snd] in *; auto.
    destruct l; discriminate.
Qed.
End InsertionOrderedDict.

Lemma plan_ok_nil (now : Z) : plan_ok now [].
Proof. repeat split; constructor. Qed.

Lemma Forall_fst_setdefault_append (now : Z) (plan : execution_plan) (t : Z)
    (e : plan_entry) :
  now <= t -> Forall (fun kv => now <= fst kv) plan ->
  Forall (fun kv => now <= fst kv) (setdefault_append plan t e).
Proof.
  intros Ht. induction plan as [|[k l] plan IH]; cbn [setdefault_append]; intros Hp.
  - repeat constructor. exact Ht.
  - apply Forall_cons in Hp as [Hk Hp].
    destruct (decide (t = k)); constructor; auto.
Qed.

Lemma plan_ok_setdefault_append (now : Z) (plan : execution_plan) (t : Z)
    (e : plan_entry) :
  now <= t -> plan_ok now plan -> plan_ok now (setdefault_append plan t e).
Proof.
  intros Ht (Hnd & Hge & Hne). split; [|split].
  - by apply NoDup_keys_setdefault_append.
  - by apply Forall_fst_setdefault_append.
  - by apply nonempty_setdefault_append.
Qed.

Lemma datetime_add_Ok (date delta r : Z) :
  datetime_add date delta = Ok r -> r = date + delta.
Proof.
  unfold datetime_add.
  destruct ((datetime_min <=? date + delta) && (date + delta <=? datetime_max));
    [intros [= <-]; reflexivity | discriminate].
Qed.

(** One action of either kind: the plan gains the action's entry at its
    fire time, unless that time is before [now]. *)
Lemma plan_action_step (now date off : Z) (e : plan_entry)
    (plan plan' : execution_plan) :
  bind (datetime_add date (minutes off)) (fun entry_date =>
    if entry_date <? now then Ok plan
    else Ok (setdefault_append plan entry_date e)) = Ok plan' ->
  plan_ok now plan ->
  plan_ok now plan'
  /\ forall t, get_list plan' t
               = get_list plan t ++ (if fires_at now date t off then [e] else []).
Proof.
  intros Hstep Hok.
  destruct (datetime_add date (minutes off)) as [d|] eqn:Hadd; [|discriminate].
  apply datetime_add_Ok in Hadd. subst d. cbn [bind] in Hstep.
  unfold fires_at, fire_time.
  destruct (Z.ltb_spec (date + minutes off) now) as [Hlt|Hge];
    injection Hstep as <-.
  - split; [exact Hok|]. intros t.
    destruct (Z.leb_spec now (date + minutes off)); [lia|].
    cbn [andb]. by rewrite app_nil_r.
  - split; [by apply plan_ok_setdefault_append|]. intros t.
    rewrite get_list_setdefault_append.
    destruct (Z.leb_spec now (date + minutes off)); [|lia]. cbn [andb].
    destruct (Z.eqb_spec (date + minutes off) t) as [<-|Hne].
    + rewrite decide_True by reflexivity. reflexivity.
    + rewrite decide_False by congruence. by rewrite app_nil_r.
Qed.

Lemma plan_bits_loop (now date : Z) (key : loc_key) (bits : list bit) :
  forall plan plan',
    foldM (plan_bit now date key) bits plan = Ok plan' ->
    plan_ok now plan ->
    plan_ok now plan'
    /\ forall t, get_list plan' t
                 = get_list plan t
                   ++ map (bit_entry key)
                        (List.filter (fun b => fires_at now date t (b_off b)) bits).
Proof.
  induction bits as [|b bits IH]; intros plan plan' Hrun Hok.
  - injection Hrun as <-. split; [exact Hok|]. intros t. by rewrite app_nil_r.
  - cbn [foldM] in Hrun.
    destruct (plan_bit now date key plan b) as [plan1|] eqn:Hb; [|discriminate].
    cbn [bind] in Hrun.
    apply plan_action_step in Hb as [Hok1 Hget1]; [|exact Hok].
    destruct (IH plan1 plan' Hrun Hok1) as [Hok' Hget']. split; [exact Hok'|].
    intros t. rewrite Hget', Hget1. cbn [List.filter].
    destruct (fires_at now date t (b_off b)); cbn [map app];
      rewrite <- app_assoc; reflexivity.
Qed.

Lemma plan_group_actions_loop (now date : Z) (key : loc_key)
    (gas : list group_action) :
  forall plan plan',
    foldM (plan_group_action now date key) gas plan = Ok plan' ->
    plan_ok now plan ->
    plan_ok now plan'
    /\ forall t, get_list plan' t
                 = get_list plan t
                   ++ map (group_action_entry key)
                        (List.filter (fun g => fires_at now date t (ga_off g)) gas).
Proof.
  induction gas as [|g gas IH]; intros plan plan' Hrun Hok.
  - injection Hrun as <-. split; [exact Hok|]. intros t. by rewrite app_nil_r.
  - cbn [foldM] in Hrun.
    destruct (plan_group_action now date key plan g) as [plan1|] eqn:Hg; [|discriminate].
    cbn [bind] in Hrun.
    apply plan_action_step in Hg as [Hok1 Hget1]; [|exact Hok].
    destruct (IH plan1 plan' Hrun Hok1) as [Hok' Hget']. split; [exact Hok'|].
    intros t. rewrite Hget', Hget1. cbn [List.filter].
    destruct (fires_at now date t (ga_off g)); cbn [map app];
      rewrite <- app_assoc; reflexivity.
Qed.

Lemma is_nil_true {A : Type} (l : list A) : is_nil l = true -> l = [].
Proof. destruct l; [reflexivity | discriminate]. Qed.

(** One sun location: the plan gains what the location puts at each fire
    time. *)
Lemma plan_location_step (now : Z) (data : value)
    (gas : list (loc_key * list group_action)) (bits : list (loc_key * list bit))
    (key : loc_key) (plan plan' : execution_plan) :
  plan_location now data gas bits plan key = Ok plan' ->
  plan_ok now plan ->
  plan_ok now plan'
  /\ forall t, get_list plan' t
               = get_list plan t ++ location_entries now data gas bits t key.
Proof.
  unfold plan_location, location_entries, event_time. intros Hrun Hok.
  destruct (is_nil (get_list gas key) && is_nil (get_list bits key)) eqn:Hnil.
  - injection Hrun as <-. split; [exact Hok|]. intros t.
    apply andb_prop in Hnil as [Hg%is_nil_true Hb%is_nil_true]. rewrite Hg, Hb.
    cbn [List.filter map app].
    repeat match goal with |- context [match ?x with _ => _ end] => destruct x end;
      by rewrite app_nil_r.
  - destruct (subscript data "results") as [results|]; [|discriminate].
    cbn [bind] in Hrun.
    destruct (method_get results (field_of key)) as [dt|]; [|discriminate].
    cbn [bind] in Hrun.
    destruct (_convert dt) as [date|].
    + destruct (foldM (plan_bit now date key) (get_list bits key) plan)
        as [plan1|] eqn:Hb; [|discriminate].
      cbn [bind] in Hrun.
      apply plan_bits_loop in Hb as [Hok1 Hget1]; [|exact Hok].
      apply plan_group_actions_loop in Hrun as [Hok' Hget']; [|exact Hok1].
      split; [exact Hok'|]. intros t. rewrite Hget', Hget1, <- app_assoc. reflexivity.
    + injection Hrun as <-. split; [exact Hok|]. intros t. by rewrite app_nil_r.
Qed.

Lemma plan_locations_loop (now : Z) (data : value)
    (gas : list (loc_key * list group_action)) (bits : list (loc_key * list bit))
    (order : list loc_key) :
  forall plan plan',
    foldM (plan_location now data gas bits) order plan = Ok plan' ->
    plan_ok now plan ->
    plan_ok now plan'
    /\ forall t, get_list plan' t
                 = get_list plan t ++ planned now data gas bits order t.
Proof.
  unfold planned.
  induction order as [|key order IH]; intros plan plan' Hrun Hok.
  - injection Hrun as <-. split; [exact Hok|]. intros t. by rewrite app_nil_r.
  - cbn [foldM] in Hrun.
    destruct (plan_location now data gas bits plan key) as [plan1|] eqn:Hk;
      [|discriminate].
    cbn [bind] in Hrun.
    apply plan_location_step in Hk as [Hok1 Hget1]; [|exact Hok].
    destruct (IH plan1 plan' Hrun Hok1) as [Hok' Hget']. split; [exact Hok'|].
    intros t. rewrite Hget', Hget1, <- app_assoc. reflexivity.
Qed.

(** The plan of a successful build, fire time by fire time. *)
Lemma build_plan_planned (now : Z) (data : value)
    (gas : list (loc_key * list group_action)) (bits : list (loc_key * list bit))
    (order : list loc_key) (plan : execution_plan) :
  build_plan now data gas bits order = Ok plan ->
  plan_ok now plan
  /\ forall t, get_list plan t = planned now data gas bits order t.
Proof.
  intros Hrun. apply plan_locations_loop in Hrun as [Hok Hget]; [|apply plan_ok_nil].
  split; [exact Hok|]. intros t. rewrite Hget. reflexivity.
Qed.

(** The retry loop leaves the two dicts of actions alone. *)
Lemma build_loop_index (h : host) (now : Z) (retries : nat) :
  forall self,
    _group_actions (build_loop h now retries self) = _group_actions self
    /\ _bits (build_loop h now retries self) = _bits self.
Proof.
  induction retries as [|retries IH]; intros self; [split; reflexivity|].
  cbn [build_loop do_request].
  match goal with |- context [attempt ?a ?b ?c ?d ?e] => destruct (attempt a b c d e) end.
  - split; reflexivity.
  - match goal with |- context [build_loop h now retries ?s] => destruct (IH s) as [Hg Hb] end.
    rewrite Hg, Hb. split; reflexivity.
Qed.

(** When the loop runs at least once, the plan it leaves is the plan of a
    successful attempt, or empty. *)
Lemma build_loop_plan (h : host) (now : Z) (retries : nat) :
  forall self,
    retries <> 0%nat ->
    _execution_plan (build_loop h now retries self) = []
    \/ exists n, attempt now (fetch h n) (_group_actions self) (_bits self) (key_order h)
                 = Ok (_execution_plan (build_loop h now retries self)).
Proof.
  induction retries as [|retries IH]; intros self Hne; [congruence|].
  cbn [build_loop do_request _group_actions _bits].
  destruct (attempt now (fetch h (requests self)) (_group_actions self) (_bits self)
              (key_order h)) as [plan|e] eqn:Hatt.
  - right. exists (requests self). rewrite Hatt. reflexivity.
  - destruct retries as [|retries']; [left; reflexivity|].
    match goal with |- context [build_loop h now ?r ?s] =>
      destruct (IH s ltac:(discriminate)) as [Hnil | [n Hn]] end.
    + left. exact Hnil.
    + right. exists n. exact Hn.
Qed.

Lemma attempt_build_plan (now : Z) (resp : response)
    (gas : list (loc_key * list group_action)) (bits : list (loc_key * list bit))
    (order : list loc_key) (plan : execution_plan) :
  attempt now resp gas bits order = Ok plan ->
  exists data, build_plan now data gas bits order = Ok plan.
Proof.
  unfold attempt. destruct resp as [|code [data|]]; try discriminate.
  - destruct (negb (code =? 200)); [discriminate|].
    destruct (subscript data "status") as [st|]; [|discriminate]. cbn [bind].
    intros H. exists data.
    repeat match type of H with
           | match ?x with _ => _ end = _ => destruct x; try discriminate
           end.
    exact H.
  - destruct (negb (code =? 200)); discriminate.
Qed.

Lemma planned_In (now : Z) (data : value)
    (gas : list (loc_key * list group_action)) (bits : list (loc_key * list bit))
    (order : list loc_key) (t : Z) (e : plan_entry) :
  In e (planned now data gas bits order t) <->
  exists key date,
    In key order /\ event_time data key = Some date /\ now <= t
    /\ ((exists b, In b (get_list bits key)
                   /\ fire_time date (b_off b) = t /\ e = bit_entry key b)
        \/ (exists g, In g (get_list gas key)
                      /\ fire_time date (ga_off g) = t
                      /\ e = group_action_entry key g)).
Proof.
  unfold planned, location_entries, fires_at. rewrite in_flat_map. split.
  - intros (key & Hkey & Hin). exists key.
    destruct (event_time data key) as [date|]; [|destruct Hin].
    exists date. split; [exact Hkey|]. split; [reflexivity|].
    apply in_app_iff in Hin as [Hin|Hin]; apply in_map_iff in Hin as (a & <- & Ha);
      apply filter_In in Ha as [Ha Hf]; apply andb_prop in Hf as [Hnow Heq];
      apply Z.leb_le in Hnow; apply Z.eqb_eq in Heq; (split; [lia|]);
      [left | right]; exists a; auto.
  - intros (key & date & Hkey & Hev & Hnow & Hact). exists key. split; [exact Hkey|].
    rewrite Hev. apply in_app_iff.
    destruct Hact as [(b & Hb & Ht & ->) | (g & Hg & Ht & ->)]; [left | right];
      apply in_map_iff; eexists; (split; [reflexivity|]);
      apply filter_In; (split; [assumption|]);
      apply andb_true_intro; (split; [apply Z.leb_le; lia | apply Z.eqb_eq; exact Ht]).
Qed.

(** C4. Whatever [now], the answers of the solar-time source and the
    action index, the plan [_build_execution_plan] leaves has no entry
    whose fire time (event time plus offset minutes) is before [now]. The
    entries of a built plan are exactly the actions that fire at or after
    [now] at a location with an event time: an action that has passed is
    dropped alone, and a location without event time, be it missing or the
    epoch-year sentinel, contributes nothing. *)
Theorem plan_has_no_passed_entry (h : host) (now : Z) (self : Astro) :
  (forall t l, In (t, l) (_execution_plan (_build_execution_plan h now self)) ->
               now <= t)
  /\ (forall data order plan,
        build_plan now data (_group_actions self) (_bits self) order = Ok plan ->
        forall t e,
          In e (get_list plan t) <->
          exists key date,
            In key order /\ event_time data key = Some date /\ now <= t
            /\ ((exists b, In b (get_list (_bits self) key)
                           /\ fire_time date (b_off b) = t /\ e = bit_entry key b)
                \/ (exists g, In g (get_list (_group_actions self) key)
                              /\ fire_time date (ga_off g) = t
                              /\ e = group_action_entry key g)))
  /\ (forall s date, strptime s = Some date -> year date = 1970 ->
                     _convert (VStr s) = None)
  /\ _convert VNone = None.
Proof.
  split; [|split; [|split]].
  - intros t l Hin. unfold _build_execution_plan in Hin.
    destruct (build_loop_plan h now 5 self ltac:(discriminate)) as [Hnil | [n Hn]].
    + rewrite Hnil in Hin. destruct Hin.
    + apply attempt_build_plan in Hn as [data Hbuild].
      apply build_plan_planned in Hbuild as [(_ & Hge & _) _].
      rewrite Forall_forall in Hge. exact (Hge (t, l) ltac:(apply list_elem_of_In, Hin)).
  - intros data order plan Hbuild t e.
    apply build_plan_planned in Hbuild as [_ Hget]. rewrite Hget. apply planned_In.
  - intros s date Hs Hy. cbn [_convert]. rewrite Hs, Hy. reflexivity.
  - reflexivity.
Qed.

Lemma plan_has_no_passed_entry_witness :
  exists key date,
    In key [KStr "sunrise"; KStr "civil dawn"]
    /\ event_time solar_answer key = Some date
    /\ midnight_2024_06_21 <= four_o_one
    /\ ((exists b, In b (get_list index_bits key)
                   /\ fire_time date (b_off b) = four_o_one
                   /\ mkEntry (TBit "clear" 2) "civil dawn with a +60 min offset"
                      = bit_entry key b)
        \/ (exists g, In g (get_list index_group_actions key)
                      /\ fire_time date (ga_off g) = four_o_one
                      /\ mkEntry (TBit "clear" 2) "civil dawn with a +60 min offset"
                         = group_action_entry key g)).
Proof.
  refine (proj1 (proj1 (proj2 (plan_has_no_passed_entry silent_host
                                 midnight_2024_06_21 plugin_new_day))
                   solar_answer [KStr "sunrise"; KStr "civil dawn"] built_plan _
                   four_o_one _) _).
  - vm_compute. reflexivity.
  - vm_compute. right. right. left. reflexivity.
Defined.



Lemma get_nonempty (now : Z) (plan : execution_plan) (t : Z) (l : list plan_entry) :
  plan_ok now plan -> get plan t = Some l -> l <> [].
Proof.
  intros (_ & _ & Hne) Hget. apply get_In in Hget.
  rewrite Forall_forall in Hne. exact (Hne (t, l) ltac:(apply list_elem_of_In, Hget)).
Qed.




(** ** Validation of a configuration *)

(** Outside the declared type of the field, where no migration leads: a
    validation job whose sun location is a text that is no token is
    refused, with the exception the interpreter's enumeration test
    produces, and an automation job with the same text passes, its sun
    location not being read. *)
Example verify_passes_group_action_job_midnight :
  Forall (fun py => _verify_configuration py config_group_action_midnight
                    = Ok config_group_action_midnight)
    [Py37; Py38_311; Py312; Py313].
Proof. repeat constructor. Qed.


Example verify_refuses_validation_job_midnight :
  _verify_configuration Py37 config_validation_midnight = Raise ValueError
  /\ _verify_configuration Py38_311 config_validation_midnight = Raise TypeError
  /\ _verify_configuration Py312 config_validation_midnight = Raise ValueError
  /\ _verify_configuration Py313 config_validation_midnight = Raise ValueError.
Proof. repeat split. Qed.

(** An id held as text is coerced, text that is no integer and a negative
    id are refused with [ValueError], for either kind of job. *)
Example verify_ids :
  verify_group_action_job (mkGroupActionJob (VStr " 12 ") (VSun SUNSET) (VInt 0))
  = Ok (mkGroupActionJob (VInt 12) (VSun SUNSET) (VInt 0))
  /\ verify_group_action_job (mkGroupActionJob (VStr "twelve") (VSun SUNSET) (VInt 0))
     = Raise ValueError
  /\ verify_group_action_job (mkGroupActionJob (VStr "-12") (VSun SUNSET) (VInt 0))
     = Raise ValueError
  /\ verify_validation_job Py312 (mkValidationJob SET (VStr "12") (VSun SUNSET) (VInt 0))
     = Ok (mkValidationJob SET (VInt 12) (VSun SUNSET) (VInt 0))
  /\ verify_validation_job Py312 (mkValidationJob SET (VStr "1.5") (VSun SUNSET) (VInt 0))
     = Raise ValueError
  /\ verify_validation_job Py312 (mkValidationJob SET (VInt (-1)) (VSun SUNSET) (VInt 0))
     = Raise ValueError.
Proof. repeat split. Qed.

(** The first loop of the validation never reads the sun location of an
    automation job. *)
Lemma verify_group_action_job_any_sun_location (id : Z) (sun off : value) :
  0 <= id ->
  verify_group_action_job (mkGroupActionJob (VInt id) sun off)
  = Ok (mkGroupActionJob (VInt id) sun off).
Proof.
  intros Hid. unfold verify_group_action_job. cbn.
  destruct (Z.ltb_spec id 0); [lia | reflexivity].
Qed.

(** [int] raises nothing but [ValueError] on a text. *)
Lemma int_literal_raises (s : string) (e : exn) :
  int_literal s = Raise e -> e = ValueError.
Proof.
  unfold int_literal. destruct (int_digits s 0 false); [|congruence].
  destruct (int_max_str_digits <? count_digits s); congruence.
Qed.

Lemma int_of_str_raises (s : string) (e : exn) :
  int_of_str s = Raise e -> e = ValueError.
Proof.
  unfold int_of_str. intros H.
  repeat match type of H with
         | match ?x with _ => _ end = _ => destruct x
         end;
    try (eapply int_literal_raises; exact H).
  destruct (int_literal _) eqn:E; [discriminate|].
  cbn [bind] in H. injection H as <-. eapply int_literal_raises, E.
Qed.

(** The blanks of [int]: the separators 28 to 31 are not stripped, the
    no-break space is. *)
Example int_of_str_blanks :
  int_of_str " 12 " = Ok 12
  /\ int_of_str ("30" +:+ String (ascii_of_nat 28) "") = Raise ValueError
  /\ int_of_str (String (ascii_of_nat 31) "12") = Raise ValueError
  /\ int_of_str ("12" +:+ String (ascii_of_nat 160) "") = Ok 12
  /\ int_of_str "1_000" = Ok 1000
  /\ int_of_str "-0" = Ok 0.
Proof. repeat split. Qed.

(** The id of a job as the two loops treat it, when it is a text or a
    number. *)
Lemma coerce_id_typed (id : value) :
  is_text_or_number id = true ->
  bind (coerce_id id) (fun id' =>
    bind (py_lt0 id') (fun negative =>
      if negative then Raise ValueError else Ok id'))
  = if id_accepted id then Ok (id_coerced id) else Raise ValueError.
Proof.
  destruct id as [| b | z | s | | | |]; try discriminate; intros _.
  - reflexivity.
  - cbn. destruct (Z.ltb_spec z 0), (Z.leb_spec 0 z); (reflexivity || lia).
  - unfold coerce_id, id_accepted, id_coerced. cbn [is_str py_int].
    destruct (int_of_str s) as [n|e] eqn:E.
    + cbn. destruct (Z.ltb_spec n 0), (Z.leb_spec 0 n); (reflexivity || lia).
    + apply int_of_str_raises in E as ->. reflexivity.
Qed.

Lemma verify_group_action_jobs_typed (js : list GroupActionJob) :
  Forall (fun j => is_text_or_number (group_action_id j) = true
                   /\ exists m, ga_sun_location j = VSun m) js ->
  mapM verify_group_action_job js
  = if forallb (fun j => id_accepted (group_action_id j)) js
    then Ok (map (fun j => mkGroupActionJob (id_coerced (group_action_id j))
                             (ga_sun_location j) (ga_offset j)) js)
    else Raise ValueError.
Proof.
  induction 1 as [|j js [Hid _] _ IH]; [reflexivity|].
  cbn [mapM forallb map]. rewrite IH.
  pose proof (coerce_id_typed (group_action_id j) Hid) as Hj.
  unfold verify_group_action_job.
  destruct (coerce_id (group_action_id j)) as [id'|e]; cbn [bind] in Hj |- *.
  - destruct (py_lt0 id') as [[|]|e]; cbn [bind] in Hj |- *;
      destruct (id_accepted (group_action_id j)); try discriminate;
      cbn [andb].
    + reflexivity.
    + injection Hj as ->.
      destruct (forallb _ js); reflexivity.
    + injection Hj as ->. reflexivity.
  - destruct (id_accepted (group_action_id j)); [discriminate|].
    injection Hj as ->. reflexivity.
Qed.

Lemma verify_validation_jobs_typed (py : interpreter) (js : list ValidationJob) :
  Forall (fun j => is_text_or_number (bit_id j) = true
                   /\ exists m, sun_location j = VSun m) js ->
  mapM (verify_validation_job py) js
  = if forallb (fun j => id_accepted (bit_id j)) js
    then Ok (map (fun j => mkValidationJob (action j) (id_coerced (bit_id j))
                             (sun_location j) (offset j)) js)
    else Raise ValueError.
Proof.
  induction 1 as [|j js [Hid [m Hm]] _ IH]; [reflexivity|].
  cbn [mapM forallb map]. rewrite IH.
  pose proof (coerce_id_typed (bit_id j) Hid) as Hj.
  unfold verify_validation_job. rewrite Hm.
  destruct (coerce_id (bit_id j)) as [id'|e]; cbn [bind] in Hj |- *.
  - destruct (py_lt0 id') as [[|]|e]; cbn [bind] in Hj |- *;
      destruct (id_accepted (bit_id j)); try discriminate;
      cbn [andb].
    + reflexivity.
    + injection Hj as ->. cbn [in_SunLocation bind negb].
      destruct (forallb _ js); reflexivity.
    + injection Hj as ->. reflexivity.
  - destruct (id_accepted (bit_id j)); [discriminate|].
    injection Hj as ->. reflexivity.
Qed.

(** C3, as stated, fails on the exception: the configuration migration
    makes of a document whose first automation has a null for id and
    whose second has the id -1 holds a negative id, and the validation
    raises [TypeError], not [ValueError], under every interpreter: it
    stops at the comparison of the null with 0 and never reaches the
    negative id. So does [parse_configuration] on the document. *)
Lemma null_id_hides_negative_id :
  _migrate_configuration_v3 doc_null_id = Ok config_null_id
  /\ In (mkGroupActionJob (VInt (-1)) (VSun SUNRISE) (VInt 0))
        (group_action_jobs config_null_id)
  /\ Forall (fun py => _verify_configuration py config_null_id = Raise TypeError
                       /\ parse_configuration py (mkFactory None) doc_null_id
                          = (Raise TypeError, mkFactory None))
       [Py37; Py38_311; Py312; Py313].
Proof.
  split; [reflexivity|]. split; [right; left; reflexivity|].
  repeat constructor.
Qed.

(** C3, amended. For every configuration whose jobs hold a member of
    [SunLocation] for sun location, as the field is declared and as every
    migration builds it, and a text or a number for id, the validation
    raises [ValueError] when the coordinates are absent, when an id held
    as text is not read by [int], or when an id is negative once coerced;
    otherwise it returns the configuration, the ids held as text replaced
    by their integers. No sun location is refused. *)
Theorem verify_configuration_checks_ids (py : interpreter) (c : Configuration) :
  typed_configuration c ->
  _verify_configuration py c
  = match coordinates c with
    | None => Raise ValueError
    | Some _ => if ids_accepted c then Ok (with_ids_coerced c) else Raise ValueError
    end.
Proof.
  intros [Hgs Hvs]. unfold _verify_configuration, ids_accepted, with_ids_coerced.
  destruct (coordinates c) as [co|]; [|reflexivity].
  rewrite (verify_group_action_jobs_typed _ Hgs).
  destruct (forallb _ (group_action_jobs c)); [|reflexivity]. cbn [bind andb].
  rewrite (verify_validation_jobs_typed py _ Hvs).
  destruct (forallb _ (validation_jobs c)); reflexivity.
Qed.

Lemma verify_configuration_checks_ids_witness :
  _verify_configuration Py312
    (mkConfiguration (Some test_coordinates)
       [ mkGroupActionJob (VStr "7") (VSun SUNSET) (VInt 0);
         mkGroupActionJob (VInt 5) (VSun SUNRISE) (VInt (-90)) ]
       [ mkValidationJob CLEAR (VStr " 12") (VSun CIVIL_DUSK) (VInt 0) ] V3_0)
  = Ok (mkConfiguration (Some test_coordinates)
          [ mkGroupActionJob (VInt 7) (VSun SUNSET) (VInt 0);
            mkGroupActionJob (VInt 5) (VSun SUNRISE) (VInt (-90)) ]
          [ mkValidationJob CLEAR (VInt 12) (VSun CIVIL_DUSK) (VInt 0) ] V3_0).
Proof.
  refine (verify_configuration_checks_ids Py312 _ _).
  split; repeat constructor; eexists; reflexivity.
Defined.

(** ** The dispatch scan of [run] *)

Lemma dispatch_fields (h : host) (self : Astro) (e : plan_entry) :
  _execution_plan (dispatch h self e) = _execution_plan self
  /\ basic_actions (dispatch h self e) = basic_actions self ++ [call_of e].
Proof.
  unfold dispatch, call_of. destruct (entry_task e); split; reflexivity.
Qed.

Lemma dispatch_all_fields (h : host) (l : list plan_entry) :
  forall self,
    _execution_plan (fold_left (dispatch h) l self) = _execution_plan self
    /\ basic_actions (fold_left (dispatch h) l self)
       = basic_actions self ++ map call_of l.
Proof.
  induction l as [|e l IH]; intros self; cbn [fold_left map].
  - split; [reflexivity | by rewrite app_nil_r].
  - destruct (IH (dispatch h self e)) as [Hp Hb].
    destruct (dispatch_fields h self e) as [Hp1 Hb1].
    rewrite Hp, Hb, Hp1, Hb1, <- app_assoc. split; reflexivity.
Qed.

Section Pop.
Context {K V : Type} `{EqDecision K}.
Implicit Types (d : list (K * V)) (k : K).

Lemma pop_filter d k :
  pop d k = List.filter (fun kv => negb (bool_decide (fst kv = k))) d.
Proof.
  induction d as [|[k0 v] d IH]; [reflexivity|]. cbn [pop List.filter fst].
  destruct (decide (k = k0)) as [->|Hne].
  - rewrite bool_decide_eq_true_2 by reflexivity. exact IH.
  - rewrite bool_decide_eq_false_2 by congruence. cbn [negb]. by rewrite IH.
Qed.

Lemma get_pop_ne d k k' : k' <> k -> get (pop d k) k' = get d k'.
Proof.
  intros Hne. induction d as [|[k0 v] d IH]; [reflexivity|]. cbn [pop get].
  destruct (decide (k = k0)) as [->|Hk].
  - rewrite decide_False by exact Hne. exact IH.
  - cbn [get]. destruct (decide (k' = k0)); [reflexivity | exact IH].
Qed.
End Pop.

Lemma filter_filter {A : Type} (f g : A -> bool) (l : list A) :
  List.filter f (List.filter g l) = List.filter (fun x => g x && f x) l.
Proof.
  induction l as [|x l IH]; [reflexivity|]. cbn [List.filter].
  destruct (g x); cbn [List.filter andb]; [destruct (f x)|]; by rewrite IH.
Qed.

Lemma filter_ext_in' {A : Type} (f g : A -> bool) (l : list A) :
  (forall x, In x l -> f x = g x) -> List.filter f l = List.filter g l.
Proof.
  induction l as [|x l IH]; intros Hfg; [reflexivity|]. cbn [List.filter].
  rewrite (Hfg x (or_introl eq_refl)), IH; [reflexivity|].
  intros y Hy. apply Hfg. right. exact Hy.
Qed.

Lemma flat_map_ext_in' {A B : Type} (f g : A -> list B) (l : list A) :
  (forall x, In x l -> f x = g x) -> flat_map f l = flat_map g l.
Proof.
  induction l as [|x l IH]; intros Hfg; [reflexivity|]. cbn [flat_map].
  rewrite (Hfg x (or_introl eq_refl)), IH; [reflexivity|].
  intros y Hy. apply Hfg. right. exact Hy.
Qed.

(** What the scan does to the plan and to the record of calls, for the
    keys that remain to be visited. *)
Lemma scan_plan_calls (h : host) (now : Z) (ks : list Z) :
  forall st,
    NoDup ks ->
    let st' := fold_left (scan_step h now) ks st in
    _execution_plan (plugin st')
    = List.filter (fun kv => negb (due now (fst kv) && bool_decide (fst kv ∈ ks)))
        (_execution_plan (plugin st))
    /\ basic_actions (plugin st')
       = basic_actions (plugin st)
         ++ flat_map (fun k => if due now k
                               then map call_of (get_list (_execution_plan (plugin st)) k)
                               else [])
              ks.
Proof.
  induction ks as [|k ks IH]; intros st Hnd; cbn zeta.
  - cbn [fold_left flat_map]. rewrite app_nil_r. split; [|reflexivity].
    induction (_execution_plan (plugin st)) as [|kv d IHd]; [reflexivity|].
    cbn [List.filter]. rewrite bool_decide_eq_false_2 by apply not_elem_of_nil.
    rewrite andb_false_r. cbn [negb]. by rewrite <- IHd.
  - apply NoDup_cons in Hnd as [Hnotin Hnd].
    cbn [fold_left flat_map].
    destruct (IH (scan_step h now st k) Hnd) as [Hplan Hcalls]. cbn zeta in *.
    rewrite Hplan, Hcalls. clear Hplan Hcalls IH.
    unfold scan_step, due.
    destruct (Z.ltb_spec (minutes 5) (Z.abs (k - now))) as [Hfar|Hnear].
    + (* not due: the plugin is untouched *)
      assert (Hsame : plugin (if (now <? k) && (Z.abs (k - now) <? next_action_delta st)
                              then mkScan (plugin st) k (Z.abs (k - now)) else st)
                      = plugin st) by (destruct (_ && _); reflexivity).
      rewrite Hsame. destruct (Z.leb_spec (Z.abs (k - now)) (minutes 5)); [lia|].
      cbn [app]. split; [|reflexivity].
      apply filter_ext_in'. intros [k' l] _. cbn [fst].
      destruct (decide (k' = k)) as [->|Hne].
      * destruct (Z.leb_spec (Z.abs (k - now)) (minutes 5)); [lia | reflexivity].
      * f_equal. f_equal. apply bool_decide_ext; rewrite elem_of_cons; split; [tauto | intros [?|?]; [congruence | assumption]].
    + (* due: dispatched and popped *)
      destruct (Z.leb_spec (Z.abs (k - now)) (minutes 5)); [|lia].
      cbn [plugin].
      destruct (dispatch_all_fields h (get_list (_execution_plan (plugin st)) k) (plugin st))
        as [Hp Hb].
      cbn [set_plan _execution_plan basic_actions]. rewrite Hp, Hb. split.
      * rewrite pop_filter, filter_filter. apply filter_ext_in'.
        intros [k' l] _. cbn [fst].
        destruct (decide (k' = k)) as [->|Hne].
        -- rewrite bool_decide_eq_true_2 by reflexivity. cbn [negb andb].
           destruct (Z.leb_spec (Z.abs (k - now)) (minutes 5)); [|lia].
           rewrite bool_decide_eq_true_2 by (apply elem_of_cons; left; reflexivity). reflexivity.
        -- rewrite bool_decide_eq_false_2 by exact Hne. cbn [negb andb].
           f_equal. f_equal. apply bool_decide_ext; rewrite elem_of_cons; split; [tauto | intros [?|?]; [congruence | assumption]].
      * rewrite <- app_assoc. f_equal. f_equal.
        apply flat_map_ext_in'. intros k' Hk'. unfold get_list.
        rewrite get_pop_ne by (intros ->; apply Hnotin, list_elem_of_In, Hk'). reflexivity.
Qed.

Lemma candidate_spec (now t : Z) :
  candidate now t = true <-> minutes 5 < t - now /\ t - now < days 2.
Proof. unfold candidate. rewrite andb_true_iff, !Z.ltb_lt. reflexivity. Qed.

Lemma candidate_false (now t : Z) :
  candidate now t = false <-> t - now <= minutes 5 \/ days 2 <= t - now.
Proof. unfold candidate. rewrite andb_false_iff, !Z.ltb_ge. reflexivity. Qed.

Lemma scan_step_anchor (h : host) (now tomorrow : Z) (seen : list Z)
    (st : scan_state) (k : Z) :
  anchor_state now tomorrow seen st ->
  anchor_state now tomorrow (seen ++ [k]) (scan_step h now st k).
Proof.
  intros Hinv. unfold scan_step.
  destruct (Z.ltb_spec (minutes 5) (Z.abs (k - now))) as [Hfar|Hnear].
  - destruct (Z.ltb_spec now k) as [Hfut|Hpast]; cbn [andb].
    + destruct (Z.ltb_spec (Z.abs (k - now)) (next_action_delta st)) as [Hlt|Hge].
      * (* the new nearest *)
        right. cbn [next_action_date next_action_delta].
        rewrite Z.abs_eq in * by lia.
        assert (Hcand : candidate now k = true).
        { apply candidate_spec. split; [exact Hfar|].
          destruct Hinv as [(_ & Hd & _) | (_ & Hc & Hd & _)]; [lia|].
          apply candidate_spec in Hc. lia. }
        split; [apply in_or_app; right; left; reflexivity|].
        split; [exact Hcand|]. split; [reflexivity|].
        intros t [Hin | [<- | []]]%in_app_or Ht; [|lia].
        destruct Hinv as [(_ & _ & Hnone) | (_ & _ & Hd & Hmin)].
        -- rewrite (Hnone t Hin) in Ht. discriminate.
        -- specialize (Hmin t Hin Ht). lia.
      * (* no nearer than the current one *)
        rewrite Z.abs_eq in * by lia.
        destruct Hinv as [(Hdate & Hd & Hnone) | (Hin & Hc & Hd & Hmin)]; [left | right].
        -- split; [exact Hdate|]. split; [exact Hd|].
           intros t [Ht | [<- | []]]%in_app_or; [auto|].
           apply candidate_false. lia.
        -- split; [apply in_or_app; left; exact Hin|]. split; [exact Hc|].
           split; [exact Hd|].
           intros t [Ht | [<- | []]]%in_app_or Hct; [auto | lia].
    + (* far in the past *)
      assert (Hnot : candidate now k = false).
      { apply candidate_false. left. unfold minutes, minute_us, second_us in *. lia. }
      destruct Hinv as [(Hdate & Hd & Hnone) | (Hin & Hc & Hd & Hmin)]; [left | right].
      * split; [exact Hdate|]. split; [exact Hd|].
        intros t [Ht | [<- | []]]%in_app_or; auto.
      * split; [apply in_or_app; left; exact Hin|]. split; [exact Hc|].
        split; [exact Hd|].
        intros t [Ht | [<- | []]]%in_app_or Hct; [auto | congruence].
  - (* due *)
    cbn [next_action_date next_action_delta].
    assert (Hnot : candidate now k = false).
    { apply candidate_false. left. lia. }
    destruct Hinv as [(Hdate & Hd & Hnone) | (Hin & Hc & Hd & Hmin)]; [left | right].
    * split; [exact Hdate|]. split; [exact Hd|].
      intros t [Ht | [<- | []]]%in_app_or; auto.
    * split; [apply in_or_app; left; exact Hin|]. split; [exact Hc|].
      split; [exact Hd|].
      intros t [Ht | [<- | []]]%in_app_or Hct; [auto | congruence].
Qed.

Lemma scan_anchor (h : host) (now tomorrow : Z) (ks : list Z) :
  forall seen st,
    anchor_state now tomorrow seen st ->
    anchor_state now tomorrow (seen ++ ks) (fold_left (scan_step h now) ks st).
Proof.
  induction ks as [|k ks IH]; intros seen st Hinv; cbn [fold_left].
  - by rewrite app_nil_r.
  - replace (seen ++ k :: ks) with ((seen ++ [k]) ++ ks) by (by rewrite <- app_assoc).
    apply IH, scan_step_anchor, Hinv.
Qed.

Lemma scan_anchor_of (h : host) (now tomorrow : Z) (self : Astro) :
  anchor_of now tomorrow (keys (_execution_plan self))
    (next_action_date (scan h now tomorrow self)).
Proof.
  unfold scan.
  pose proof (scan_anchor h now tomorrow (keys (_execution_plan self)) []
                (mkScan self tomorrow (days 2))) as H.
  cbn [app] in H.
  destruct H as [(Hd & _ & Hnone) | (Hin & Hc & _ & Hmin)].
  - left. repeat split. intros t [].
  - right. auto.
  - left. auto.
Qed.

Lemma flat_map_keys {V B : Type} (F : Z -> list V -> list B) (d : list (Z * list V)) :
  NoDup (keys d) ->
  flat_map (fun k => F k (get_list d k)) (keys d)
  = flat_map (fun kv => F (fst kv) (snd kv)) d.
Proof.
  unfold keys. induction d as [|[k l] d IH]; intros Hnd; [reflexivity|].
  apply NoDup_cons in Hnd as [Hnotin Hnd]. cbn [map flat_map fst snd].
  unfold get_list at 1. cbn [get]. rewrite decide_True by reflexivity. f_equal.
  rewrite <- (IH Hnd). apply flat_map_ext_in'. intros k' Hk'.
  unfold get_list. cbn [get].
  rewrite decide_False by (intros ->; apply Hnotin, list_elem_of_In, Hk'). reflexivity.
Qed.

(** C9, as stated, fails: an entry three days ahead is the only entry more
    than 5 minutes in the future, hence the nearest, yet the scan keeps
    [tomorrow] as its anchor and the deadline is [tomorrow] plus 5
    seconds. *)
Lemma far_entry_is_not_the_next_wake :
  let self := plugin_at_noon far_plan in
  let now := clock self in
  let tomorrow := tomorrow_of silent_host now in
  keys (_execution_plan self) = [now + days 3]
  /\ minutes 5 < (now + days 3) - now
  /\ next_action_date (scan silent_host now tomorrow self) = tomorrow
  /\ _sleep_until (run_once silent_host self) = tomorrow + seconds 5
  /\ tomorrow <> now + days 3
  /\ tomorrow + seconds 5 <> now + days 3.
Proof. vm_compute. repeat split; discriminate. Qed.

(** C9, amended. On a wake over an existing plan, exactly the entries
    whose time is within 5 minutes of now, past or future, are carried
    out, in the order of the plan, and removed; every other entry stays,
    those more than 5 minutes in the past included, which are not carried
    out. The anchor of the next wake is the nearest entry more than 5
    minutes in the future if that entry is less than two days ahead, and
    tomorrow when there is no such entry; the deadline is the clock at the
    end of the scan plus (anchor - now) plus 5 seconds. *)
Theorem dispatch_scan_window (h : host) (self : Astro) :
  _enabled self = true ->
  _last_request_date self = Some (today_of h (clock self)) ->
  _execution_plan self <> [] ->
  NoDup (keys (_execution_plan self)) ->
  let now := clock self in
  let self' := run_once h self in
  basic_actions self'
  = basic_actions self
    ++ flat_map (fun kv => if due now (fst kv) then map call_of (snd kv) else [])
         (_execution_plan self)
  /\ _execution_plan self'
     = List.filter (fun kv => negb (due now (fst kv))) (_execution_plan self)
  /\ exists a,
       anchor_of now (tomorrow_of h now) (keys (_execution_plan self)) a
       /\ _sleep_until self' = clock self' + (a - now) + seconds 5.
Proof.
  intros Hen Hday Hplan Hnd now self'. subst self'. unfold run_once.
  rewrite Hen. cbn [negb]. rewrite bool_decide_eq_true_2 by exact Hday. cbn [negb].
  assert (Hnil : is_nil (_execution_plan self) = false)
    by (destruct (_execution_plan self); [congruence | reflexivity]).
  rewrite Hnil. fold now.
  cbn [_sleep basic_actions _execution_plan _sleep_until clock].
  pose proof (scan_plan_calls h now (keys (_execution_plan self))
                (mkScan self (tomorrow_of h now) (days 2)) Hnd) as [Hplan' Hcalls].
  cbn [plugin] in Hplan', Hcalls.
  fold (scan h now (tomorrow_of h now) self) in Hplan', Hcalls.
  split; [|split].
  - rewrite Hcalls. f_equal.
    exact (flat_map_keys (fun k l => if due now k then map call_of l else [])
             (_execution_plan self) Hnd).
  - rewrite Hplan'. apply filter_ext_in'. intros [k l] Hin. cbn [fst].
    rewrite bool_decide_eq_true_2, andb_true_r; [reflexivity|].
    apply list_elem_of_In, in_map_iff. exists (k, l). auto.
  - exists (next_action_date (scan h now (tomorrow_of h now) self)).
    split; [apply scan_anchor_of | reflexivity].
Qed.

Lemma dispatch_scan_window_witness :
  let self' := run_once silent_host (plugin_at_noon mixed_plan) in
  basic_actions self' = [] ++ [(237, 2); (238, 3); (2, 4)]
  /\ _execution_plan self'
     = [ (noon - minutes 10, [sample_entry 1]);
         (noon + minutes 120, [sample_entry 5]);
         (noon + minutes 60, [sample_entry 6]) ]
  /\ exists a,
       anchor_of noon (midnight_2024_06_21 + days 1)
         [ noon - minutes 10; noon - minutes 2; noon + minutes 3;
           noon + minutes 120; noon + minutes 60 ] a
       /\ _sleep_until self' = clock self' + (a - noon) + seconds 5.
Proof.
  refine (dispatch_scan_window silent_host (plugin_at_noon mixed_plan)
            eq_refl eq_refl _ _).
  - discriminate.
  - apply (bool_decide_unpack _). vm_compute. exact I.
Defined.

Example mixed_plan_deadline :
  _sleep_until (run_once silent_host (plugin_at_noon mixed_plan))
  = noon + minutes 60 + seconds 5.
Proof. vm_compute. reflexivity. Qed.

(** ** Fetching the solar events *)

(** The state the retry loop leaves when every attempt fails. *)
Lemma build_loop_all_fail (h : host) (now : Z) (retries : nat) :
  forall self,
    all_fail h now self (requests self) retries ->
    build_loop h now retries self
    = mkAstro (_enabled self) (_group_actions self) (_bits self)
        (_last_request_date self)
        (match retries with O => _execution_plan self | S _ => [] end)
        (_sleep_until self)
        (clock self + fetch_total h (requests self) retries
         + seconds (5 * Z.of_nat retries))
        (requests self + retries)
        (sleeps self ++ repeat 5 retries)
        (basic_actions self).
Proof.
  induction retries as [|retries IH]; intros self Hfail.
  - cbn [build_loop fetch_total repeat]. destruct self. cbn.
    rewrite app_nil_r, Nat.add_0_r. f_equal. unfold seconds. lia.
  - cbn [build_loop do_request].
    destruct (Hfail 0%nat ltac:(lia)) as [e He]. rewrite Nat.add_0_r in He.
    cbn [_group_actions _bits]. rewrite He.
    match goal with |- build_loop h now retries ?s = _ => rewrite (IH s) end.
    + cbn [set_plan time_sleep _enabled _group_actions _bits _last_request_date
             _execution_plan _sleep_until clock requests sleeps basic_actions
             fetch_total repeat].
      f_equal.
      * destruct retries; reflexivity.
      * unfold seconds. lia.
      * lia.
      * rewrite <- app_assoc. reflexivity.
    + intros i Hi. cbn [set_plan time_sleep requests _group_actions _bits].
      destruct (Hfail (S i) ltac:(lia)) as [e' He']. exists e'.
      rewrite <- He'. f_equal. f_equal. lia.
Qed.

(** The loop never sends more requests than it has retries. *)
Lemma build_loop_requests (h : host) (now : Z) (retries : nat) :
  forall self,
    (requests self <= requests (build_loop h now retries self)
     <= requests self + retries)%nat.
Proof.
  induction retries as [|retries IH]; intros self; cbn [build_loop do_request]; [lia|].
  match goal with |- context [attempt ?a ?b ?c ?d ?e] => destruct (attempt a b c d e) end.
  - cbn. lia.
  - match goal with |- context [build_loop h now retries ?s] => specialize (IH s) end.
    cbn in IH. lia.
Qed.

(** C6, as stated, fails on the time of the next wake: with five failed
    attempts and requests that take no time at all, the deadline is
    tomorrow plus 30 seconds, the 25 seconds slept between [now] and the
    scheduling being added to the margin of 5. *)
Lemma failed_fetch_wake_is_past_the_margin :
  let self' := run_once silent_host plugin_new_day in
  let tomorrow := tomorrow_of silent_host (clock plugin_new_day) in
  _execution_plan self' = []
  /\ requests self' = 5%nat
  /\ sleeps self' = [5; 5; 5; 5; 5]
  /\ _sleep_until self' = tomorrow + seconds 30
  /\ _sleep_until self' <> tomorrow + seconds 5.
Proof. vm_compute. repeat split; discriminate. Qed.

(** C6, amended. When the fetch of the solar events fails (no answer, a
    status other than 200, an undecodable or malformed payload, a status
    field other than OK), it is attempted again, five attempts in all,
    each failed attempt being followed by a sleep of 5 seconds. If the
    five attempts fail, the plan is empty, the call returns normally, and
    the deadline of the next wake is the clock at that moment plus
    (tomorrow - now) plus 5 seconds: tomorrow plus the 5-second margin
    plus the time spent since [now], which is 25 seconds of sleep and the
    time the requests took. In no case are more than five requests
    sent. *)
Theorem failed_fetch_degrades_to_empty_plan (h : host) (self : Astro) :
  _enabled self = true ->
  _last_request_date self <> Some (today_of h (clock self)) ->
  all_fail h (clock self) self (requests self) 5 ->
  let now := clock self in
  let tomorrow := tomorrow_of h now in
  let built := _build_execution_plan h now
                 (set_last_request_date (Some (today_of h now)) self) in
  let self' := run_once h self in
  _execution_plan built = []
  /\ requests built = (requests self + 5)%nat
  /\ sleeps built = sleeps self ++ [5; 5; 5; 5; 5]
  /\ clock built = now + fetch_total h (requests self) 5 + seconds 25
  /\ _execution_plan self' = []
  /\ _sleep_until self' = tomorrow + seconds 5 + (clock built - now)
  /\ ((forall n, 0 <= fetch_time h n) -> tomorrow + seconds 30 <= _sleep_until self')
  /\ (forall other, (requests (_build_execution_plan h now other)
                     <= requests other + 5)%nat).
Proof.
  intros Hen Hday Hfail now tomorrow built self'.
  assert (Hbuilt : built
                   = mkAstro (_enabled self) (_group_actions self) (_bits self)
                       (Some (today_of h now)) [] (_sleep_until self)
                       (now + fetch_total h (requests self) 5 + seconds (5 * 5))
                       (requests self + 5) (sleeps self ++ repeat 5 5%nat)
                       (basic_actions self)).
  { subst built. unfold _build_execution_plan.
    rewrite build_loop_all_fail; [reflexivity | exact Hfail]. }
  assert (Hrun : self' = _sleep (clock built + (tomorrow - now) + seconds 5) built).
  { subst self'. unfold run_once. rewrite Hen. cbn [negb].
    rewrite bool_decide_eq_false_2 by exact Hday. cbn [negb].
    fold now. fold built. rewrite Hbuilt. reflexivity. }
  rewrite Hrun, Hbuilt.
  cbn [_sleep _execution_plan requests sleeps clock _sleep_until repeat].
  repeat split; try reflexivity.
  - lia.
  - intros Hpos.
    assert (0 <= fetch_total h (requests self) 5).
    { cbn [fetch_total].
      pose proof (Hpos (requests self)). pose proof (Hpos (S (requests self))).
      pose proof (Hpos (S (S (requests self)))).
      pose proof (Hpos (S (S (S (requests self))))).
      pose proof (Hpos (S (S (S (S (requests self)))))). lia. }
    unfold seconds in *. lia.
  - intros other. unfold _build_execution_plan.
    pose proof (build_loop_requests h now 5 other). lia.
Qed.

Lemma failed_fetch_degrades_to_empty_plan_witness :
  let now := noon in
  let tomorrow := midnight_2024_06_21 + days 1 in
  let built := _build_execution_plan silent_host now
                 (set_last_request_date (Some midnight_2024_06_21) plugin_new_day) in
  let self' := run_once silent_host plugin_new_day in
  _execution_plan built = []
  /\ requests built = 5%nat
  /\ sleeps built = [] ++ [5; 5; 5; 5; 5]
  /\ clock built = now + fetch_total silent_host 0 5 + seconds 25
  /\ _execution_plan self' = []
  /\ _sleep_until self' = tomorrow + seconds 5 + (clock built - now)
  /\ ((forall n, 0 <= fetch_time silent_host n) -> tomorrow + seconds 30 <= _sleep_until self')
  /\ (forall other, (requests (_build_execution_plan silent_host now other)
                     <= requests other + 5)%nat).
Proof.
  refine (failed_fetch_degrades_to_empty_plan silent_host plugin_new_day eq_refl _ _).
  - discriminate.
  - intros i _. exists ConnectionError. reflexivity.
Defined.

(** ** The matcher and the meaning of patterns *)

Section EngineCorrect.
Import Re.
Context {R : Type}.
Implicit Types (k : nat -> string -> option R).

Lemma star_greedy_sound cl k s :
  forall p res,
    star_greedy cl k p s = Some res ->
    exists p' s', star_run cl p s p' s' /\ k p' s' = Some res.
Proof.
  induction s as [|c s IH]; intros p res H; cbn [star_greedy] in H.
  - exists p, EmptyString. split; [constructor | exact H].
  - destruct (accepts cl c) eqn:Hc.
    + destruct (star_greedy cl k (S p) s) as [x|] eqn:Hrec.
      * injection H as <-. destruct (IH _ _ Hrec) as (p' & s' & Hrun & Hk).
        exists p', s'. split; [by apply star_more | exact Hk].
      * exists p, (String c s). split; [constructor | exact H].
    + exists p, (String c s). split; [constructor | exact H].
Qed.

Lemma star_lazy_sound cl k s :
  forall p res,
    star_lazy cl k p s = Some res ->
    exists p' s', star_run cl p s p' s' /\ k p' s' = Some res.
Proof.
  induction s as [|c s IH]; intros p res H; cbn [star_lazy] in H.
  - destruct (k p EmptyString) as [x|] eqn:Hk; [|discriminate].
    exists p, EmptyString. split; [constructor | congruence].
  - destruct (k p (String c s)) as [x|] eqn:Hk.
    + exists p, (String c s). split; [constructor | congruence].
    + destruct (accepts cl c) eqn:Hc; [|discriminate].
      destruct (IH _ _ H) as (p' & s' & Hrun & Hk').
      exists p', s'. split; [by apply star_more | exact Hk'].
Qed.

Lemma star_greedy_complete cl k p s p' s' :
  star_run cl p s p' s' -> is_Some (k p' s') -> is_Some (star_greedy cl k p s).
Proof.
  intros Hrun Hk. induction Hrun as [p s | p c s p' s' Hc Hrun IH].
  - destruct s as [|c s]; cbn [star_greedy]; [exact Hk|].
    destruct (accepts cl c); [|exact Hk].
    destruct (star_greedy cl k (S p) s); [eauto | exact Hk].
  - cbn [star_greedy]. rewrite Hc.
    destruct (IH Hk) as [x Hx]. rewrite Hx. eauto.
Qed.

Lemma star_lazy_complete cl k p s p' s' :
  star_run cl p s p' s' -> is_Some (k p' s') -> is_Some (star_lazy cl k p s).
Proof.
  intros Hrun Hk. induction Hrun as [p s | p c s p' s' Hc Hrun IH].
  - destruct Hk as [x Hx]. destruct s; cbn [star_lazy]; rewrite Hx; eauto.
  - cbn [star_lazy]. destruct (k p (String c s)); [eauto|].
    rewrite Hc. exact (IH Hk).
Qed.
End EngineCorrect.

(** Whatever the matcher finds is a match in the sense of [matches]. *)
Lemma rmatch_sound (r : Re.regex) :
  forall p s c k res,
    Re.rmatch r p s c k = Some res ->
    exists p' s' c', Re.matches r p s c p' s' c' /\ k p' s' c' = Some res.
Proof.
  induction r as [| |cl|cl|cl|cl|n r IH|r1 IH1 r2 IH2]; intros p s c k res H;
    cbn [Re.rmatch] in H.
  - destruct p; [|discriminate]. cbn in H. exists 0%nat, s, c. split; [constructor | exact H].
  - destruct s as [|ch [|ch' s]]; try discriminate.
    + exists p, EmptyString, c. split; [constructor | exact H].
    + destruct (Ascii.eqb_spec ch Re.newline) as [->|]; [|discriminate].
      exists p, (String Re.newline EmptyString), c. split; [constructor | exact H].
  - destruct s as [|ch s]; [discriminate|].
    destruct (Re.accepts cl ch) eqn:Hc; [|discriminate].
    exists (S p), s, c. split; [by constructor | exact H].
  - destruct s as [|ch s].
    + exists p, EmptyString, c. split; [constructor | exact H].
    + destruct (Re.accepts cl ch) eqn:Hc.
      * destruct (k (S p) s c) as [x|] eqn:Hk.
        -- exists (S p), s, c. split; [by apply Re.m_opt_take | congruence].
        -- exists p, (String ch s), c. split; [constructor | exact H].
      * exists p, (String ch s), c. split; [constructor | exact H].
  - destruct s as [|ch s]; [discriminate|].
    destruct (Re.accepts cl ch) eqn:Hc; [|discriminate].
    apply star_greedy_sound in H as (p' & s' & Hrun & Hk).
    exists p', s', c. split; [by apply Re.m_plus | exact Hk].
  - apply star_lazy_sound in H as (p' & s' & Hrun & Hk).
    exists p', s', c. split; [by constructor | exact Hk].
  - apply IH in H as (p' & s' & c' & Hm & Hk).
    exists p', s', ((n, Re.take_str (p' - p) s) :: c'). split; [by constructor | exact Hk].
  - apply IH1 in H as (p1 & s1 & c1 & Hm1 & Hk1).
    apply IH2 in Hk1 as (p2 & s2 & c2 & Hm2 & Hk2).
    exists p2, s2, c2. split; [by econstructor | exact Hk2].
Qed.

(** Where a match exists after which the rest of the pattern succeeds, the
    matcher succeeds. *)
Lemma rmatch_complete (r : Re.regex) (p : nat) (s : string) (c0 : Re.captures)
    (p' : nat) (s' : string) (c0' : Re.captures) :
  Re.matches r p s c0 p' s' c0' ->
  forall c k, (forall c', is_Some (k p' s' c')) -> is_Some (Re.rmatch r p s c k).
Proof.
  induction 1 as [s c0 | p c0 | p c0 | cl ch p s c0 Hc | cl p s c0 | cl ch p s c0 Hc
                  | cl ch p s p' s' c0 Hc Hrun | cl p s p' s' c0 Hrun
                  | n r p s c0 p' s' c0' Hm IH
                  | r1 r2 p s c0 p1 s1 c1 p2 s2 c2 Hm1 IH1 Hm2 IH2];
    intros c k Hk; cbn [Re.rmatch].
  - apply Hk.
  - apply Hk.
  - rewrite Ascii.eqb_refl. apply Hk.
  - rewrite Hc. apply Hk.
  - destruct s as [|ch s]; [apply Hk|].
    destruct (Re.accepts cl ch); [|apply Hk].
    destruct (k (S p) s c); [eauto | apply Hk].
  - rewrite Hc. destruct (Hk c) as [x Hx]. rewrite Hx. eauto.
  - rewrite Hc. eapply star_greedy_complete; [exact Hrun | apply Hk].
  - eapply star_lazy_complete; [exact Hrun | apply Hk].
  - apply IH. intros c'. apply Hk.
  - apply IH1. intros c'. apply IH2. exact Hk.
Qed.

(** [re.match] finds a match exactly when one exists, and the groups it
    reports are those of a match. *)
Lemma re_match_matches (pattern : Re.regex) (text : string) :
  (forall caps, Re.re_match pattern text = Some caps ->
                exists p' s', Re.matches pattern 0 text [] p' s' caps)
  /\ ((exists p' s' caps, Re.matches pattern 0 text [] p' s' caps) ->
      is_Some (Re.re_match pattern text)).
Proof.
  unfold Re.re_match. split.
  - intros caps H. apply rmatch_sound in H as (p' & s' & c' & Hm & [= <-]). eauto.
  - intros (p' & s' & caps & Hm). eapply rmatch_complete; [exact Hm | eauto].
Qed.

(** ** Texts *)

Lemma str_app_cons (x : ascii) (a b : string) :
  String x a +:+ b = String x (a +:+ b).
Proof. reflexivity. Qed.

Lemma str_app_nil_l (a : string) : EmptyString +:+ a = a.
Proof. reflexivity. Qed.

Lemma str_length_cons (x : ascii) (a : string) :
  String.length (String x a) = S (String.length a).
Proof. reflexivity. Qed.

Lemma str_app_assoc (a b c : string) : (a +:+ b) +:+ c = a +:+ (b +:+ c).
Proof.
  induction a as [|x a IH]; [reflexivity|].
  rewrite !str_app_cons. f_equal. exact IH.
Qed.

Lemma str_app_nil_r (a : string) : a +:+ EmptyString = a.
Proof.
  induction a as [|x a IH]; [reflexivity|]. rewrite str_app_cons. f_equal. exact IH.
Qed.

Lemma str_length_app (a b : string) :
  String.length (a +:+ b) = (String.length a + String.length b)%nat.
Proof.
  induction a as [|x a IH]; [reflexivity|].
  rewrite str_app_cons, !str_length_cons, IH. reflexivity.
Qed.

Lemma take_str_app (a b : string) : Re.take_str (String.length a) (a +:+ b) = a.
Proof.
  induction a as [|x a IH]; [by destruct b|].
  rewrite str_app_cons, str_length_cons. cbn [Re.take_str]. f_equal. exact IH.
Qed.

Ltac str_norm :=
  repeat first
    [ rewrite str_app_assoc | rewrite str_app_cons | rewrite str_app_nil_l
    | rewrite str_length_app | rewrite str_length_cons ].

(** A run of a repetition is a prefix of accepted characters. *)
Lemma star_run_prefix (cl : Re.cclass) (p : nat) (s : string) (p' : nat) (s' : string) :
  Re.star_run cl p s p' s' ->
  exists a, s = a +:+ s' /\ p' = (p + String.length a)%nat
            /\ Re.all_accepted cl a = true.
Proof.
  induction 1 as [p s | p c s p' s' Hc Hrun (a & -> & -> & Ha)].
  - exists EmptyString. split; [reflexivity|]. split; [cbn; lia | reflexivity].
  - exists (String c a). split; [reflexivity|]. split; [cbn; lia|].
    cbn. by rewrite Hc, Ha.
Qed.

Lemma star_run_intro (cl : Re.cclass) (a : string) :
  forall p s', Re.all_accepted cl a = true ->
               Re.star_run cl p (a +:+ s') (p + String.length a) s'.
Proof.
  induction a as [|c a IH]; intros p s' Ha.
  - cbn. rewrite Nat.add_0_r. constructor.
  - cbn in Ha. apply andb_prop in Ha as [Hc Ha]. cbn [String.append String.length].
    apply Re.star_more; [exact Hc|].
    replace (p + S (String.length a))%nat with (S p + String.length a)%nat by lia.
    by apply IH.
Qed.

Lemma all_accepted_digit (a : string) : Re.all_accepted Re.CDigit a = all_digits a.
Proof. induction a as [|c a IH]; [reflexivity|]. cbn. by rewrite IH. Qed.

Lemma all_accepted_dot (a : string) :
  Re.all_accepted Re.CDot a = true <-> no_newline a.
Proof.
  unfold no_newline. induction a as [|c a IH]; [by split|]. cbn.
  rewrite andb_true_iff, IH, orb_false_iff, negb_true_iff. tauto.
Qed.

Lemma accepts_point (c : ascii) :
  Re.accepts (Re.CSet ["."; ","]%char) c = true <-> c = "."%char \/ c = ","%char.
Proof.
  cbn. rewrite !orb_true_iff, !Ascii.eqb_eq.
  split; [intros [?|[?|?]]; [auto | auto | discriminate] | intros [?|?]; auto].
Qed.

Lemma accepts_separator (c : ascii) :
  Re.accepts (Re.CSet [";"; ","; "/"]%char) c = true <-> separator c.
Proof.
  unfold separator. cbn. rewrite !orb_true_iff, !Ascii.eqb_eq.
  split; [intros [?|[?|[?|?]]]; [auto | auto | auto | discriminate]
         | intros [?|[?|?]]; auto].
Qed.

(** ** The coordinate pattern *)

Lemma number_pattern_matches (p : nat) (s : string) (c : Re.captures)
    (p' : nat) (s' : string) (c' : Re.captures) :
  Re.matches number_pattern p s c p' s' c' <->
  exists n, number_text n /\ s = n +:+ s' /\ p' = (p + String.length n)%nat /\ c' = c.
Proof.
  unfold number_pattern. split.
  - intros H.
    inversion H as [| | | | | | | | |r1 r2 ? ? ? p1 s1 c1 ? ? ? Hsign H1]; subst; clear H.
    inversion H1 as [| | | | | | | | |r1 r2 ? ? ? p2 s2 c2 ? ? ? Hint H2]; subst; clear H1.
    inversion H2 as [| | | | | | | | |r1 r2 ? ? ? p3 s3 c3 ? ? ? Hpoint Hfrac]; subst; clear H2.
    inversion Hint as [| | | | | |cl d1 ? t1 ? ? ? Hd1 Hrun1| | |]; subst; clear Hint.
    inversion Hpoint as [| | |cl pt ? ? ? Hpt| | | | | |]; subst; clear Hpoint.
    inversion Hfrac as [| | | | | |cl d2 ? t2 ? ? ? Hd2 Hrun2| | |]; subst; clear Hfrac.
    apply star_run_prefix in Hrun1 as (a1 & -> & Hp1 & Ha1).
    apply star_run_prefix in Hrun2 as (a2 & -> & -> & Ha2).
    rewrite all_accepted_digit in Ha1, Ha2. apply accepts_point in Hpt.
    assert (Hds1 : digits (String d1 a1))
      by (split; [discriminate | cbn; cbn in Hd1; by rewrite Hd1, Ha1]).
    assert (Hds2 : digits (String d2 a2))
      by (split; [discriminate | cbn; cbn in Hd2; by rewrite Hd2, Ha2]).
    inversion Hsign as [| | | |cl ? ? ?|cl ch ? ? ? Hch| | | |]; subst; clear Hsign.
    + exists (EmptyString +:+ String d1 a1 +:+ String pt (String d2 a2)).
      split; [constructor; auto|]. str_norm. split; [reflexivity|].
      split; [|reflexivity].
      lia.
    + cbn in Hch. apply Ascii.eqb_eq in Hch as ->.
      exists ("-" +:+ String d1 a1 +:+ String pt (String d2 a2)).
      split; [constructor; auto|]. str_norm. split; [reflexivity|].
      split; [|reflexivity].
      lia.
  - intros (n & Hn & -> & -> & ->).
    destruct Hn as [sign ds1 point ds2 Hsign [Hne1 Hd1] Hpoint [Hne2 Hd2]].
    destruct ds1 as [|d1 a1]; [congruence|]. destruct ds2 as [|d2 a2]; [congruence|].
    cbn in Hd1, Hd2. apply andb_prop in Hd1 as [Hd1 Ha1]. apply andb_prop in Hd2 as [Hd2 Ha2].
    rewrite <- all_accepted_digit in Ha1, Ha2.
    str_norm.
    assert (Hbody : forall q,
      Re.matches (Re.RSeq (Re.RPlus Re.CDigit)
                    (Re.RSeq (Re.ROne (Re.CSet ["."; ","]%char)) (Re.RPlus Re.CDigit)))
        q (String d1 (a1 +:+ String point (String d2 (a2 +:+ s')))) c
        (S (S (S q + String.length a1)) + String.length a2) s' c).
    { intros q. eapply Re.m_seq.
      - apply Re.m_plus; [exact Hd1|]. by apply star_run_intro.
      - eapply Re.m_seq.
        + apply Re.m_one. by apply accepts_point.
        + apply Re.m_plus; [exact Hd2|]. by apply star_run_intro. }
    destruct Hsign as [-> | ->]; str_norm.
    + eapply Re.m_seq; [apply Re.m_opt_skip|].
      match goal with |- Re.matches _ _ _ _ ?x _ _ =>
        replace x with (S (S (S p + String.length a1)) + String.length a2)%nat
          by (cbn [String.length]; lia) end.
      apply Hbody.
    + eapply Re.m_seq; [apply Re.m_opt_take; reflexivity|].
      match goal with |- Re.matches _ _ _ _ ?x _ _ =>
        replace x with (S (S (S (S p) + String.length a1)) + String.length a2)%nat
          by (cbn [String.length]; lia) end.
      apply Hbody.
Qed.

Lemma take_str_sub (q : nat) (n rest : string) :
  Re.take_str (q + String.length n - q) (n +:+ rest) = n.
Proof.
  replace (q + String.length n - q)%nat with (String.length n) by lia.
  apply take_str_app.
Qed.

Ltac invert_matches :=
  repeat match goal with
         | H : Re.matches (Re.RSeq _ _) _ _ _ _ _ _ |- _ => inversion H; subst; clear H
         | H : Re.matches (Re.RGroup _ _) _ _ _ _ _ _ |- _ => inversion H; subst; clear H
         | H : Re.matches (Re.RStarLazy _) _ _ _ _ _ _ |- _ => inversion H; subst; clear H
         | H : Re.matches (Re.ROne _) _ _ _ _ _ _ |- _ => inversion H; subst; clear H
         | H : Re.matches Re.RBegin _ _ _ _ _ _ |- _ => inversion H; subst; clear H
         end.

(** A match of the coordinate pattern, read on the text: its two groups
    are the two numbers. *)
Lemma coordinates_pattern_sound (text : string) (p' : nat) (s' : string)
    (caps : Re.captures) :
  Re.matches coordinates_pattern 0 text [] p' s' caps ->
  exists n1 n2, accepted_shape text n1 n2 /\ caps = [(2%nat, n2); (1%nat, n1)].
Proof.
  unfold coordinates_pattern. intros H. invert_matches.
  repeat match goal with
         | H : Re.matches number_pattern _ _ _ _ _ _ |- _ =>
             apply number_pattern_matches in H as (? & ? & ? & ? & ?)
         | H : Re.star_run _ _ _ _ _ |- _ =>
             apply star_run_prefix in H as (? & ? & ? & ?%all_accepted_dot)
         | H : Re.accepts _ _ = true |- _ => apply accepts_separator in H
         end.
  subst.
  match goal with
  | Hend : Re.matches Re.REnd _ _ _ _ _ _ |- _ =>
      rewrite !take_str_sub in Hend; inversion Hend; subst; clear Hend
  end;
  match goal with
  | |- exists n1 n2, _ /\ [(_, ?b); (_, ?a)] = _ => exists a, b
  end;
  (split; [|reflexivity]);
  match goal with
  | Hg1 : no_newline ?g1, Hg2 : no_newline ?g2, Hsep : separator ?sep
    |- accepted_shape (_ +:+ ?g1 +:+ String ?sep (?g2 +:+ _ +:+ ?tail)) _ _ =>
      exists g1, sep, g2, tail; repeat split; auto
  end.
Qed.

Lemma number_pattern_intro (n rest : string) (p : nat) (c : Re.captures) :
  number_text n ->
  Re.matches number_pattern p (n +:+ rest) c (p + String.length n) rest c.
Proof. intros Hn. apply number_pattern_matches. exists n. auto. Qed.

(** A text of the accepted shape has a match. *)
Lemma coordinates_pattern_complete (text n1 n2 : string) :
  accepted_shape text n1 n2 ->
  exists p' s' caps, Re.matches coordinates_pattern 0 text [] p' s' caps.
Proof.
  intros (g1 & sep & g2 & tail & -> & Hn1 & Hg1 & Hsep & Hg2 & Hn2 & Htail).
  apply all_accepted_dot in Hg1, Hg2. apply accepts_separator in Hsep.
  unfold coordinates_pattern. do 3 eexists.
  eapply Re.m_seq; [apply Re.m_begin|].
  eapply Re.m_seq; [apply Re.m_group, number_pattern_intro, Hn1|].
  eapply Re.m_seq; [apply Re.m_star, star_run_intro, Hg1|].
  eapply Re.m_seq; [apply Re.m_one, Hsep|].
  eapply Re.m_seq; [apply Re.m_star, star_run_intro, Hg2|].
  eapply Re.m_seq; [apply Re.m_group, number_pattern_intro, Hn2|].
  destruct Htail as [-> | ->]; constructor.
Qed.

(** ** [Coordinates.from_string] *)

Lemma str_replace_app (a b : ascii) (s t : string) :
  str_replace a b (s +:+ t) = str_replace a b s +:+ str_replace a b t.
Proof.
  induction s as [|x s IH]; [reflexivity|].
  rewrite str_app_cons. cbn [str_replace]. rewrite str_app_cons. f_equal. exact IH.
Qed.

Lemma is_digit_not_comma (c : ascii) : is_digit c = true -> Ascii.eqb c "," = false.
Proof.
  destruct (Ascii.eqb_spec c ","%char) as [->|]; [discriminate | reflexivity].
Qed.

Lemma str_replace_digits (s : string) :
  all_digits s = true -> str_replace "," "." s = s.
Proof.
  induction s as [|x s IH]; [reflexivity|]. cbn [all_digits str_replace].
  intros [Hx Hs]%andb_prop. rewrite (is_digit_not_comma x Hx), (IH Hs). reflexivity.
Qed.

Lemma str_replace_no_comma (s : string) :
  str_contains "," s = false -> str_replace "," "." s = s.
Proof.
  induction s as [|x s IH]; [reflexivity|]. cbn [str_contains str_replace].
  intros [Hx Hs]%orb_false_elim. rewrite Hx, (IH Hs). reflexivity.
Qed.

Lemma normalize_decimal_replace (t : string) :
  normalize_decimal t = str_replace "," "." t.
Proof.
  unfold normalize_decimal. destruct (str_contains "," t) eqn:E; [reflexivity|].
  symmetry. by apply str_replace_no_comma.
Qed.

Lemma is_digit_not_space (c : ascii) : is_digit c = true -> is_space c = false.
Proof. destruct c as [[] [] [] [] [] [] [] []]; try discriminate; reflexivity. Qed.

Lemma rstrip_digits (s : string) :
  s <> EmptyString -> all_digits s = true -> rstrip s = s.
Proof.
  induction s as [|x s IH]; [congruence|]. intros _ [Hx Hs]%andb_prop.
  cbn [rstrip]. destruct s as [|y s].
  - cbn [rstrip].
    rewrite (is_digit_not_space x Hx). reflexivity.
  - rewrite IH by (discriminate || exact Hs). reflexivity.
Qed.

Lemma rstrip_app (a s : string) :
  s <> EmptyString -> rstrip s = s -> rstrip (a +:+ s) = a +:+ s.
Proof.
  intros Hne Hs. induction a as [|x a IH]; [exact Hs|].
  rewrite str_app_cons. cbn [rstrip]. rewrite IH.
  destruct (a +:+ s) eqn:E; [|reflexivity].
  destruct a; [rewrite str_app_nil_l in E; congruence | discriminate].
Qed.

Lemma is_digit_not_sign (c : ascii) :
  is_digit c = true -> Ascii.eqb c "-" || Ascii.eqb c "+" = false.
Proof. destruct c as [[] [] [] [] [] [] [] []]; try discriminate; reflexivity. Qed.

Lemma digits_dot_digits_intro (ds2 : string) :
  digits ds2 ->
  forall ds1 seen,
    all_digits ds1 = true -> seen = true \/ ds1 <> EmptyString ->
    digits_dot_digits (ds1 +:+ String "." ds2) seen = true.
Proof.
  intros [Hne2 Hd2]. induction ds1 as [|x ds1 IH]; intros seen Hd1 Hseen.
  - destruct Hseen as [-> | ?]; [|congruence]. rewrite str_app_nil_l.
    cbn [digits_dot_digits]. change (is_digit ".") with false. cbn [Ascii.eqb Bool.eqb].
    rewrite Hd2. destruct ds2; [congruence | reflexivity].
  - cbn [all_digits] in Hd1. apply andb_prop in Hd1 as [Hx Hd1].
    rewrite str_app_cons. cbn [digits_dot_digits]. rewrite Hx.
    apply IH; [exact Hd1 | left; reflexivity].
Qed.

(** [float] accepts a number text once its comma is a point, and gives the
    float of that number. *)
Lemma float_of_number_text (n : string) :
  number_text n ->
  float_of_str (normalize_decimal n) = Ok (float_of_number n).
Proof.
  intros [sign ds1 point ds2 Hsign [Hne1 Hd1] Hpoint [Hne2 Hd2]].
  rewrite normalize_decimal_replace. unfold float_of_number.
  set (t := str_replace "," "." (sign +:+ ds1 +:+ String point ds2)).
  assert (Ht : t = sign +:+ ds1 +:+ String "." ds2).
  { subst t. rewrite !str_replace_app. cbn [str_replace].
    rewrite (str_replace_digits ds1 Hd1), (str_replace_digits ds2 Hd2).
    destruct Hsign as [-> | ->], Hpoint as [-> | ->]; reflexivity. }
  assert (Hstrip : strip t = t).
  { unfold strip.
    assert (lstrip t = t) as ->.
    { rewrite Ht. destruct Hsign as [-> | ->]; [|reflexivity].
      destruct ds1 as [|x ds1]; [congruence|]. cbn [all_digits] in Hd1.
      apply andb_prop in Hd1 as [Hx _]. rewrite str_app_nil_l, str_app_cons.
      cbn [lstrip]. rewrite (is_digit_not_space x Hx). reflexivity. }
    rewrite Ht.
    replace (sign +:+ ds1 +:+ String "." ds2)
      with ((sign +:+ ds1 +:+ String "." EmptyString) +:+ ds2)
      by (str_norm; reflexivity).
    apply rstrip_app; [exact Hne2 | by apply rstrip_digits]. }
  unfold float_of_str. rewrite Hstrip. cbn zeta.
  assert (Hbody : digits_dot_digits
                    match t with
                    | EmptyString => t
                    | String c r => if Ascii.eqb c "-" || Ascii.eqb c "+" then r else t
                    end false = true).
  { rewrite Ht. destruct Hsign as [-> | ->].
    - destruct ds1 as [|x r]; [congruence|].
      rewrite str_app_nil_l, str_app_cons.
      pose proof Hd1 as Hd1'. cbn [all_digits] in Hd1'.
      apply andb_prop in Hd1' as [Hx _]. rewrite (is_digit_not_sign x Hx).
      rewrite <- str_app_cons.
      apply digits_dot_digits_intro; [by split | exact Hd1 | right; discriminate].
    - rewrite str_app_cons, str_app_nil_l. cbn [Ascii.eqb Bool.eqb orb].
      apply digits_dot_digits_intro; [by split | exact Hd1 | right; exact Hne1]. }
  rewrite Hbody. reflexivity.
Qed.

(** What [from_string] does on a text that is not empty. *)
Lemma from_string_str_cases (text : string) :
  text <> EmptyString ->
  (exists n1 n2,
     accepted_shape text n1 n2
     /\ from_string_str text
        = Ok (mkCoordinates (float_of_number n1) (float_of_number n2)))
  \/ ((forall n1 n2, ~ accepted_shape text n1 n2)
      /\ from_string_str text = Raise ValueError).
Proof.
  intros Hne. unfold from_string_str.
  destruct (String.eqb_spec text "") as [->|_]; [congruence|].
  destruct (Re.re_match coordinates_pattern text) as [caps|] eqn:Hm.
  - left. apply (proj1 (re_match_matches _ _)) in Hm as (p' & s' & Hm).
    apply coordinates_pattern_sound in Hm as (n1 & n2 & Hshape & ->).
    exists n1, n2. split; [exact Hshape|].
    destruct Hshape as (g1 & sep & g2 & tail & _ & Hn1 & _ & _ & _ & Hn2 & _).
    change (match_group [(2%nat, n2); (1%nat, n1)] 1) with n1.
    change (match_group [(2%nat, n2); (1%nat, n1)] 2) with n2.
    rewrite (float_of_number_text n1 Hn1), (float_of_number_text n2 Hn2). reflexivity.
  - right. split; [|reflexivity]. intros n1 n2 Hshape.
    apply coordinates_pattern_complete in Hshape.
    apply (proj2 (re_match_matches _ _)) in Hshape as [caps Hcaps]. congruence.
Qed.

(** C8, as stated, fails in both directions: garbage between the first
    number and the separator is accepted although the text is not of the
    shape number, separator, garbage, number; and a newline as garbage
    after the separator is refused although the text is of that shape. *)
Lemma coordinate_garbage_is_not_as_claimed :
  (from_string_str text_garbage_first
   = Ok (mkCoordinates (FloatLit "1.5") (FloatLit "2.5"))
   /\ ~ claimed_shape text_garbage_first)
  /\ (claimed_shape text_newline_garbage
      /\ from_string_str text_newline_garbage = Raise ValueError).
Proof.
  split; split.
  - reflexivity.
  - intros (n1 & sep & g & n2 & Htext & Hn1 & Hsep & _).
    destruct Hn1 as [sign ds1 point ds2 Hsign [Hne1 Hd1] _ [Hne2 Hd2]].
    unfold text_garbage_first in Htext.
    destruct Hsign as [-> | ->]; revert Htext; str_norm; intros Htext;
      [|discriminate].
    destruct ds1 as [|x1 [|x2 r2]]; [congruence | | ].
    + revert Htext. str_norm. intros [= <- <- Htext].
      destruct ds2 as [|y1 [|y2 q2]]; [congruence | | ].
      * revert Htext. str_norm. intros [= <- <- _].
        destruct Hsep as [?|[?|?]]; discriminate.
      * revert Htext. str_norm. intros [= <- <- _]. discriminate.
    + revert Htext. str_norm. intros [= <- <- _]. discriminate.
  - exists "1.5"%string, ";"%char, (String Re.newline ""), "2.5"%string.
    split; [reflexivity|].
    split; [apply (number_text_intro "" "1" "." "5"); auto; by split|].
    split; [left; reflexivity|].
    apply (number_text_intro "" "2" "." "5"); auto; by split.
  - reflexivity.
Qed.

(** C8, amended. [from_string] maps the empty text to (0.0, 0.0). A text
    that is not empty is accepted exactly when it reads: number, garbage,
    one of the separators [;] [,] [/], garbage, number, and possibly one
    final newline, where no garbage holds a newline and each number is a
    sign-optional decimal with [.] or [,] as the decimal point. The
    coordinates are then the floats of two such numbers, a decimal comma
    being turned into a point before the conversion. Every other text is
    refused with a [ValueError]. *)
Theorem from_string_accepted_shape (text : string) :
  from_string_str EmptyString = Ok (mkCoordinates (FloatLit "0.0") (FloatLit "0.0"))
  /\ (text <> EmptyString ->
      (returns (from_string_str text) <-> exists n1 n2, accepted_shape text n1 n2)
      /\ (forall c, from_string_str text = Ok c ->
            exists n1 n2,
              accepted_shape text n1 n2
              /\ c = mkCoordinates (float_of_number n1) (float_of_number n2))
      /\ ((forall n1 n2, ~ accepted_shape text n1 n2) ->
          from_string_str text = Raise ValueError)).
Proof.
  split; [reflexivity|]. intros Hne.
  destruct (from_string_str_cases text Hne)
    as [(n1 & n2 & Hshape & Hok) | (Hnone & Hraise)].
  - split; [|split].
    + split; [eauto | intros _; eexists; exact Hok].
    + intros c Hc. exists n1, n2. split; [exact Hshape | congruence].
    + intros Hnone. destruct (Hnone n1 n2 Hshape).
  - split; [|split].
    + split; [intros [c Hc]; congruence | intros (n1 & n2 & Hshape)].
      destruct (Hnone n1 n2 Hshape).
    + intros c Hc. congruence.
    + intros _. exact Hraise.
Qed.

Lemma from_string_accepted_shape_witness :
  returns (from_string_str text_final_newline)
  /\ from_string_str text_final_newline
     = Ok (mkCoordinates (FloatLit "1.5") (FloatLit "-2.5")).
Proof.
  split; [|reflexivity].
  apply (proj1 (proj2 (from_string_accepted_shape text_final_newline)
                  ltac:(discriminate))).
  exists "1,5"%string, "-2,5"%string, " "%string, "/"%char, " "%string,
    (String Re.newline "").
  split; [reflexivity|].
  split; [apply (number_text_intro "" "1" "," "5"); auto; by split|].
  split; [reflexivity|]. split; [right; right; reflexivity|].
  split; [reflexivity|].
  split; [apply (number_text_intro "-" "2" "," "5"); auto; by split|].
  right. reflexivity.
Defined.

(* ===================================================================== *)
(** * Further properties of the code                                      *)
(* ===================================================================== *)

Import export main_config SpecMore SamplesMore.

(** ** What [parse_configuration] returns *)

Lemma mapM_Ok_Forall2 {A B : Type} (f : A -> result B) (xs : list A) :
  forall ys, mapM f xs = Ok ys -> Forall2 (fun x y => f x = Ok y) xs ys.
Proof.
  induction xs as [|x xs IH]; intros ys H; cbn [mapM] in H.
  - injection H as <-. constructor.
  - destruct (f x) as [y|] eqn:Hy; [|discriminate]. cbn [bind] in H.
    destruct (mapM f xs) as [ys'|]; [|discriminate]. injection H as <-.
    constructor; [exact Hy | by apply IH].
Qed.

Lemma Forall2_Forall_r {A B : Type} (R : A -> B -> Prop) (P : B -> Prop)
    (xs : list A) (ys : list B) :
  Forall2 R xs ys -> (forall x y, R x y -> P y) -> Forall P ys.
Proof. induction 1; intros HP; constructor; eauto. Qed.

Lemma coerce_id_Ok (id id' : value) :
  coerce_id id = Ok id' ->
  py_lt0 id' = Ok false -> valid_id id' /\ coerce_id id' = Ok id'.
Proof.
  intros _ Hlt. destruct id'; try discriminate; cbn in Hlt.
  - split; [right; eauto | reflexivity].
  - split; [|reflexivity]. left. exists z. split; [reflexivity|].
    injection Hlt as Hlt. apply Z.ltb_ge in Hlt. exact Hlt.
Qed.

Lemma verify_group_action_job_Ok (j j' : GroupActionJob) :
  verify_group_action_job j = Ok j' ->
  valid_id (group_action_id j')
  /\ ga_sun_location j' = ga_sun_location j /\ ga_offset j' = ga_offset j
  /\ verify_group_action_job j' = Ok j'.
Proof.
  unfold verify_group_action_job. intros H.
  destruct (coerce_id (group_action_id j)) as [id|] eqn:Hid; [|discriminate].
  cbn [bind] in H. destruct (py_lt0 id) as [[|]|] eqn:Hlt; try discriminate.
  cbn [bind] in H. injection H as <-. cbn [group_action_id ga_sun_location ga_offset].
  destruct (coerce_id_Ok _ _ Hid Hlt) as [Hvalid Hco].
  repeat split; [exact Hvalid|]. rewrite Hco. cbn [bind]. rewrite Hlt. reflexivity.
Qed.

Lemma verify_validation_job_Ok (py : interpreter) (j j' : ValidationJob) :
  verify_validation_job py j = Ok j' ->
  valid_id (bit_id j')
  /\ sun_location j' = sun_location j /\ offset j' = offset j
  /\ action j' = action j
  /\ verify_validation_job py j' = Ok j'.
Proof.
  unfold verify_validation_job. intros H.
  destruct (coerce_id (bit_id j)) as [id|] eqn:Hid; [|discriminate].
  cbn [bind] in H. destruct (py_lt0 id) as [[|]|] eqn:Hlt; cbn [bind] in H.
  - destruct (sun_location j); discriminate.
  - destruct (in_SunLocation py (sun_location j)) as [[|]|] eqn:Hin; try discriminate.
    cbn [bind negb] in H. injection H as <-.
    cbn [bit_id sun_location offset action].
    destruct (coerce_id_Ok _ _ Hid Hlt) as [Hvalid Hco].
    repeat split; [exact Hvalid|]. rewrite Hco. cbn [bind]. rewrite Hlt.
    cbn [bind]. rewrite Hin. reflexivity.
  - discriminate.
Qed.

Lemma mapM_fixed {A : Type} (f : A -> result A) (xs : list A) :
  Forall (fun x => f x = Ok x) xs -> mapM f xs = Ok xs.
Proof.
  induction 1 as [|x xs Hx _ IH]; [reflexivity|].
  cbn [mapM]. rewrite Hx. cbn [bind]. rewrite IH. reflexivity.
Qed.

(** X1. Validating a configuration that validation returned changes
    nothing: the ids it coerced stay as they are and no test fails. *)
Theorem verify_configuration_idempotent (py : interpreter) (c c' : Configuration) :
  _verify_configuration py c = Ok c' ->
  _verify_configuration py c' = Ok c'.
Proof.
  unfold _verify_configuration. intros H.
  destruct (coordinates c) as [co|] eqn:Hco; [|discriminate].
  destruct (mapM verify_group_action_job (group_action_jobs c)) as [gs|] eqn:Hg;
    [|discriminate].
  cbn [bind] in H.
  destruct (mapM (verify_validation_job py) (validation_jobs c)) as [vs|] eqn:Hv;
    [|discriminate].
  cbn [bind] in H. injection H as <-.
  cbn [coordinates group_action_jobs validation_jobs version].
  rewrite (mapM_fixed verify_group_action_job gs).
  - cbn [bind]. rewrite (mapM_fixed (verify_validation_job py) vs); [reflexivity|].
    apply mapM_Ok_Forall2 in Hv.
    eapply Forall2_Forall_r; [exact Hv|]. intros x y Hxy.
    by apply verify_validation_job_Ok in Hxy as (_ & _ & _ & _ & ?).
  - apply mapM_Ok_Forall2 in Hg.
    eapply Forall2_Forall_r; [exact Hg|]. intros x y Hxy.
    by apply verify_group_action_job_Ok in Hxy as (_ & _ & _ & ?).
Qed.

Lemma verify_configuration_idempotent_witness :
  let c := mkConfiguration (Some test_coordinates)
             [mkGroupActionJob (VStr " 7 ") (VSun SUNSET) (VInt 0)]
             [mkValidationJob SET (VStr "12") (VSun SUNRISE) (VInt 5)] V3_0 in
  let c' := mkConfiguration (Some test_coordinates)
              [mkGroupActionJob (VInt 7) (VSun SUNSET) (VInt 0)]
              [mkValidationJob SET (VInt 12) (VSun SUNRISE) (VInt 5)] V3_0 in
  _verify_configuration Py312 c' = Ok c'.
Proof.
  exact (verify_configuration_idempotent Py312
           (mkConfiguration (Some test_coordinates)
              [mkGroupActionJob (VStr " 7 ") (VSun SUNSET) (VInt 0)]
              [mkValidationJob SET (VStr "12") (VSun SUNRISE) (VInt 5)] V3_0)
           _ eq_refl).
Defined.

Lemma foldM_invariant {A S : Type} (body : S -> A -> result S) (I : S -> Prop)
    (xs : list A) :
  (forall s x s', body s x = Ok s' -> I s -> I s') ->
  forall s0 s, foldM body xs s0 = Ok s -> I s0 -> I s.
Proof.
  intros Hstep. induction xs as [|x xs IH]; intros s0 s H H0; cbn [foldM] in H.
  - by injection H as <-.
  - destruct (body s0 x) as [s1|] eqn:Hb; [|discriminate]. cbn [bind] in H.
    eapply IH; [exact H | eapply Hstep; eauto].
Qed.

Lemma py_neg_number (v v' : value) :
  py_neg v = Ok v' ->
  is_number v /\ is_number v' /\ number_value v + number_value v' = 0.
Proof.
  destruct v as [|b|z| | | | |]; try discriminate; intros [= <-].
  - split; [right; eauto|]. split; [left; eauto|]. destruct b; reflexivity.
  - split; [left; eauto|]. split; [left; eauto|]. cbn. lia.
Qed.

Lemma v1_role_step_spans (bright_offset automation : value) (acc acc' : job_lists)
    (role : value * SunLocation * SunLocation * bool) (spans : list span) :
  v1_role_step bright_offset automation acc role = Ok acc' ->
  made_of_spans automation acc spans ->
  exists spans', made_of_spans automation acc' spans'
                 /\ (length spans' <= S (length spans))%nat.
Proof.
  destruct role as [[[b start] stop] account], acc as [gs vs].
  unfold v1_role_step. intros H (Hg & Hv & Hok). cbn [fst snd] in Hg, Hv.
  destruct (py_ge0 b) as [[|]|] eqn:Hb; try discriminate; cbn [bind] in H.
  - destruct (stop_offset bright_offset account) as [off|] eqn:Hoff; [|discriminate].
    cbn [bind] in H. injection H as <-.
    exists (spans ++ [mkSpan b start (start_offset bright_offset account) stop off]).
    split; [|rewrite length_app; cbn; lia].
    split; [|split]; cbn [fst snd].
    + rewrite flat_map_app, Hg. cbn. rewrite <- app_assoc. reflexivity.
    + rewrite flat_map_app, Hv. cbn. rewrite <- app_assoc. reflexivity.
    + apply Forall_app. split; [exact Hok|]. constructor; [|constructor].
      unfold span_ok. cbn [span_bit span_start_offset span_stop_offset].
      split; [exact Hb|]. unfold stop_offset, start_offset in *.
      destruct account.
      * apply py_neg_number in Hoff. tauto.
      * injection Hoff as <-. repeat split; left; eauto.
  - injection H as <-. exists spans. split; [by split | lia].
Qed.

Lemma v1_loop_spans (bright_offset automation : value)
    (roles : list (value * SunLocation * SunLocation * bool)) :
  forall acc acc' spans,
    foldM (v1_role_step bright_offset automation) roles acc = Ok acc' ->
    made_of_spans automation acc spans ->
    exists spans', made_of_spans automation acc' spans'
                   /\ (length spans' <= length spans + length roles)%nat.
Proof.
  induction roles as [|role roles IH]; intros acc acc' spans H Hs; cbn [foldM] in H.
  - injection H as <-. exists spans. split; [exact Hs | lia].
  - destruct (v1_role_step bright_offset automation acc role) as [acc1|] eqn:Hstep;
      [|discriminate].
    cbn [bind] in H.
    destruct (v1_role_step_spans _ _ _ _ _ _ Hstep Hs) as (spans1 & Hs1 & Hlen1).
    destruct (IH _ _ _ H Hs1) as (spans' & Hs' & Hlen'). exists spans'.
    split; [exact Hs'|]. cbn [length]. lia.
Qed.

Lemma migrate_v1_lists_are_paired_aux (doc : gmap string value) (cfg : Configuration) :
  _migrate_configuration_v1 doc = Ok cfg ->
  exists spans,
    group_action_jobs cfg
       = flat_map (span_group_action_jobs (dict_get doc "group_action" (VInt (-1))))
           spans
    /\ validation_jobs cfg = flat_map span_validation_jobs spans
    /\ Forall span_ok spans.
Proof.
  unfold _migrate_configuration_v1. intros H.
  destruct (_determine_configuration_version doc) as [v|]; [|discriminate].
  cbn [bind] in H. destruct (negb (version_eqb v V1_0)); [discriminate|].
  destruct (negb (truthy (dict_get doc "coordinates" VNone))); [discriminate|].
  destruct (from_string (dict_get doc "coordinates" VNone)) as [co|]; [|discriminate].
  cbn [bind] in H.
  match type of H with
  | bind (foldM ?body ?roles ?acc) _ = _ =>
      destruct (foldM body roles acc) as [jobs|] eqn:Hloop; [|discriminate]
  end.
  cbn [bind] in H. injection H as <-. cbn [group_action_jobs validation_jobs].
  destruct (v1_loop_spans _ _ _ _ _ [] Hloop) as (spans & (Hg & Hv & Hok) & Hlen).
  { split; [reflexivity|]. split; [reflexivity | constructor]. }
  exists spans. auto.
Qed.


(** X2. Whatever the document, when the version 1.0 migration returns,
    its two lists are made of the same spans, five at most: each span gives a
    SET and a CLEAR validation job and, at the same place of the other
    list, two automation jobs at the same events with the same offsets,
    all with the id of [group_action] (or -1); the bit of a span is a
    number that is not negative and the two offsets of a span add up to
    zero. *)
Theorem migrate_v1_lists_are_paired (doc : gmap string value) (cfg : Configuration) :
  _migrate_configuration_v1 doc = Ok cfg ->
  exists spans,
    (length spans <= 5)%nat
    /\ group_action_jobs cfg
       = flat_map (span_group_action_jobs (dict_get doc "group_action" (VInt (-1))))
           spans
    /\ validation_jobs cfg = flat_map span_validation_jobs spans
    /\ Forall span_ok spans.
Proof.
  unfold _migrate_configuration_v1. intros H.
  destruct (_determine_configuration_version doc) as [v|]; [|discriminate].
  cbn [bind] in H. destruct (negb (version_eqb v V1_0)); [discriminate|].
  destruct (negb (truthy (dict_get doc "coordinates" VNone))); [discriminate|].
  destruct (from_string (dict_get doc "coordinates" VNone)) as [co|]; [|discriminate].
  cbn [bind] in H.
  match type of H with
  | bind (foldM ?body ?roles ?acc) _ = _ =>
      destruct (foldM body roles acc) as [jobs|] eqn:Hloop; [|discriminate]
  end.
  cbn [bind] in H. injection H as <-. cbn [group_action_jobs validation_jobs].
  destruct (v1_loop_spans _ _ _ _ _ [] Hloop) as (spans & (Hg & Hv & Hok) & Hlen).
  { split; [reflexivity|]. split; [reflexivity | constructor]. }
  exists spans. cbn [length v1_roles] in Hlen. auto.
Qed.

Lemma migrate_v1_lists_are_paired_witness :
  exists spans,
    (length spans <= 5)%nat
    /\ [ mkGroupActionJob (VInt 0) (VSun ASTRONOMICAL_DAWN) (VInt 0);
         mkGroupActionJob (VInt 0) (VSun ASTRONOMICAL_DUSK) (VInt 0);
         mkGroupActionJob (VInt 0) (VSun SUNRISE) (VInt 60);
         mkGroupActionJob (VInt 0) (VSun SUNSET) (VInt (-60)) ]
       = flat_map (span_group_action_jobs
                     (dict_get test_doc_v1_multiple "group_action" (VInt (-1)))) spans
    /\ [ mkValidationJob SET (VInt 2) (VSun ASTRONOMICAL_DAWN) (VInt 0);
         mkValidationJob CLEAR (VInt 2) (VSun ASTRONOMICAL_DUSK) (VInt 0);
         mkValidationJob SET (VInt 1) (VSun SUNRISE) (VInt 60);
         mkValidationJob CLEAR (VInt 1) (VSun SUNSET) (VInt (-60)) ]
       = flat_map span_validation_jobs spans
    /\ Forall span_ok spans.
Proof.
  exact (migrate_v1_lists_are_paired test_doc_v1_multiple
           (mkConfiguration (Some test_coordinates) _ _ V3_0) eq_refl).
Defined.

Lemma group_action_job_of_Ok (e : value) (j : GroupActionJob) :
  group_action_job_of e = Ok j ->
  is_member (ga_sun_location j) /\ exists z, ga_offset j = VInt z.
Proof.
  unfold group_action_job_of. intros H.
  repeat match type of H with
         | bind ?m _ = _ => destruct m; [cbn [bind] in H | discriminate]
         end.
  injection H as <-. cbn. split; eexists; reflexivity.
Qed.

Lemma validation_job_of_Ok (e : value) (j : ValidationJob) :
  validation_job_of e = Ok j ->
  is_member (sun_location j) /\ exists z, offset j = VInt z.
Proof.
  unfold validation_job_of. intros H.
  repeat match type of H with
         | bind ?m _ = _ => destruct m; [cbn [bind] in H | discriminate]
         end.
  injection H as <-. cbn. split; eexists; reflexivity.
Qed.

(** What every migration returns: the tag 3.0, coordinates, and jobs at
    members of the enumeration with numbers for offsets. *)
Lemma migrate_Ok (v : ConfigurationVersion) (doc : gmap string value)
    (m : Configuration) :
  migrate v doc = Ok m ->
  version m = V3_0 /\ coordinates m <> None
  /\ Forall (fun j => is_member (ga_sun_location j) /\ is_number (ga_offset j))
       (group_action_jobs m)
  /\ Forall (fun j => is_member (sun_location j) /\ is_number (offset j))
       (validation_jobs m).
Proof.
  assert (Hlists : forall m, migrate_lists doc = Ok m ->
            version m = V3_0 /\ coordinates m <> None
            /\ Forall (fun j => is_member (ga_sun_location j) /\ is_number (ga_offset j))
                 (group_action_jobs m)
            /\ Forall (fun j => is_member (sun_location j) /\ is_number (offset j))
                 (validation_jobs m)).
  { clear m. intros m H. unfold migrate_lists in H.
    destruct (negb (truthy (dict_get doc "coordinates" VNone))); [discriminate|].
    destruct (from_string _) as [co|]; [|discriminate]. cbn [bind] in H.
    destruct (iterate (dict_get doc "basic_configuration" (VList []))) as [basic|];
      [|discriminate].
    cbn [bind] in H.
    destruct (mapM group_action_job_of basic) as [gs|] eqn:Hg; [|discriminate].
    cbn [bind] in H.
    destruct (iterate (dict_get doc "advanced_configuration" (VList []))) as [adv|];
      [|discriminate].
    cbn [bind] in H.
    destruct (mapM validation_job_of adv) as [vs|] eqn:Hv; [|discriminate].
    cbn [bind] in H. injection H as <-. cbn.
    split; [reflexivity|]. split; [discriminate|]. split.
    - apply mapM_Ok_Forall2 in Hg. eapply Forall2_Forall_r; [exact Hg|].
      intros x y [Hm [z Hz]]%group_action_job_of_Ok. split; [exact Hm | left; eauto].
    - apply mapM_Ok_Forall2 in Hv. eapply Forall2_Forall_r; [exact Hv|].
      intros x y [Hm [z Hz]]%validation_job_of_Ok. split; [exact Hm | left; eauto]. }
  destruct v; cbn [migrate]; intros H.
  - unfold _migrate_configuration_v3 in H.
    destruct (_determine_configuration_version doc) as [v|]; [|discriminate].
    cbn [bind] in H. destruct (negb (version_eqb v V3_0)); [discriminate | auto].
  - unfold _migrate_configuration_v2 in H.
    destruct (_determine_configuration_version doc) as [v|]; [|discriminate].
    cbn [bind] in H. destruct (negb (version_eqb v V2_0)); [discriminate | auto].
  - pose proof (migrate_v1_lists_are_paired_aux doc m H) as (spans & Hg & Hv & Hok).
    unfold _migrate_configuration_v1 in H.
    destruct (_determine_configuration_version doc) as [v|]; [|discriminate].
    cbn [bind] in H. destruct (negb (version_eqb v V1_0)); [discriminate|].
    destruct (negb (truthy (dict_get doc "coordinates" VNone))); [discriminate|].
    destruct (from_string (dict_get doc "coordinates" VNone)) as [co|]; [|discriminate].
    cbn [bind] in H.
    match type of H with
    | bind ?x _ = _ => destruct x as [jobs|]; [|discriminate]
    end.
    cbn [bind] in H. injection H as <-. cbn [version coordinates].
    split; [reflexivity|]. split; [discriminate|].
    cbn [group_action_jobs validation_jobs] in *. rewrite Hg, Hv. clear Hg Hv.
    split.
    + induction Hok as [|s spans (_ & Hs1 & Hs2 & _) _ IH]; [constructor|].
      cbn [flat_map span_group_action_jobs app].
      constructor; [split; [eexists; reflexivity | exact Hs1]|].
      constructor; [split; [eexists; reflexivity | exact Hs2]|]. exact IH.
    + induction Hok as [|s spans (_ & Hs1 & Hs2 & _) _ IH]; [constructor|].
      cbn [flat_map span_validation_jobs app].
      constructor; [split; [eexists; reflexivity | exact Hs1]|].
      constructor; [split; [eexists; reflexivity | exact Hs2]|]. exact IH.
Qed.

Lemma verify_configuration_Ok (py : interpreter) (m c : Configuration) :
  _verify_configuration py m = Ok c ->
  version c = version m /\ coordinates c = coordinates m /\ coordinates m <> None
  /\ Forall2 (fun j j' => verify_group_action_job j = Ok j')
       (group_action_jobs m) (group_action_jobs c)
  /\ Forall2 (fun j j' => verify_validation_job py j = Ok j')
       (validation_jobs m) (validation_jobs c).
Proof.
  unfold _verify_configuration. intros H.
  destruct (coordinates m) as [co|] eqn:Hco; [|discriminate].
  destruct (mapM verify_group_action_job (group_action_jobs m)) as [gs|] eqn:Hg;
    [|discriminate].
  cbn [bind] in H.
  destruct (mapM (verify_validation_job py) (validation_jobs m)) as [vs|] eqn:Hv;
    [|discriminate].
  cbn [bind] in H. injection H as <-. cbn.
  split; [reflexivity|]. split; [reflexivity|]. split; [discriminate|].
  split; by apply mapM_Ok_Forall2.
Qed.

Lemma Forall2_Forall_transfer {A : Type} (R : A -> A -> Prop) (P Q : A -> Prop)
    (xs ys : list A) :
  Forall2 R xs ys -> Forall P xs -> (forall x y, R x y -> P x -> Q y) -> Forall Q ys.
Proof.
  induction 1 as [|x y xs ys Hxy _ IH]; intros HP HQ; [constructor|].
  apply Forall_cons in HP as [Hx HP]. constructor; eauto.
Qed.

(** What a successful call says about its two results. *)
Lemma parse_configuration_Ok (py : interpreter) (self f : ConfigurationFactory)
    (doc : gmap string value) (c : Configuration) :
  parse_configuration py self doc = (Ok c, f) ->
  parsed_ok c /\ f = mkFactory (Some c).
Proof.
  intros H.
  destruct (parse_configuration_cases py self doc)
    as [[e He] | (v & m & c' & _ & Hm & Hc & Hp)]; [rewrite He in H; discriminate|].
  rewrite Hp in H. injection H as <- <-. split; [|reflexivity].
  apply migrate_Ok in Hm as (Hver & _ & Hgs & Hvs).
  apply verify_configuration_Ok in Hc as (Hver' & Hco' & Hco & Hg2 & Hv2).
  split; [congruence|]. split; [congruence|]. split.
  - eapply Forall2_Forall_transfer; [exact Hg2 | exact Hgs|].
    intros j j' Hj [Hmem Hnum].
    apply verify_group_action_job_Ok in Hj as (Hid & -> & -> & _). auto.
  - eapply Forall2_Forall_transfer; [exact Hv2 | exact Hvs|].
    intros j j' Hj [Hmem Hnum].
    apply verify_validation_job_Ok in Hj as (Hid & -> & -> & _). auto.
Qed.

(** X3. Every configuration [parse_configuration] returns is tagged 3.0,
    has coordinates, and each of its jobs has an id that is a number not
    below zero, a sun location that is a member of the enumeration, and a
    number for offset. *)
Theorem parse_configuration_returns_valid_jobs (py : interpreter)
    (self : ConfigurationFactory) (doc : gmap string value) (c : Configuration) :
  fst (parse_configuration py self doc) = Ok c -> parsed_ok c.
Proof.
  destruct (parse_configuration py self doc) as [r f] eqn:Hp. cbn [fst].
  intros ->. exact (proj1 (parse_configuration_Ok py self f doc c Hp)).
Qed.

Lemma parse_configuration_returns_valid_jobs_witness :
  parsed_ok
    (mkConfiguration (Some test_coordinates)
       [ mkGroupActionJob (VInt 7) (VSun SUNSET) (VInt 0);
         mkGroupActionJob (VInt 5) (VSun SUNRISE) (VInt (-90)) ]
       [ mkValidationJob CLEAR (VInt 12) (VSun CIVIL_DUSK) (VInt 0);
         mkValidationJob SET (VInt 12) (VSun CIVIL_DAWN) (VInt 15) ]
       V3_0).
Proof.
  exact (parse_configuration_returns_valid_jobs Py312 (mkFactory None)
           doc_v3_offsets _ eq_refl).
Defined.

(** X4. A document without coordinates (no key, null, or the empty text)
    is refused with [ValueError] whatever else it holds and whatever its
    version, and the factory keeps its configuration. *)
Theorem parse_configuration_needs_coordinates (py : interpreter)
    (self : ConfigurationFactory) (doc : gmap string value) :
  truthy (dict_get doc "coordinates" VNone) = false ->
  parse_configuration py self doc = (Raise ValueError, self).
Proof.
  intros Hco. unfold parse_configuration.
  destruct (_determine_configuration_version doc) as [v|e] eqn:Hv.
  - assert (Hm : migrate v doc = Raise ValueError).
    { destruct v; cbn [migrate];
        unfold _migrate_configuration_v1, _migrate_configuration_v2,
          _migrate_configuration_v3, migrate_lists;
        rewrite Hv; cbn [bind version_eqb negb]; rewrite Hco; reflexivity. }
    destruct v; cbn [migrate] in Hm; rewrite Hm; reflexivity.
  - unfold _determine_configuration_version in Hv.
    destruct (dict_has doc "version").
    + unfold ConfigurationVersion_call in Hv.
      repeat match type of Hv with
             | match ?x with _ => _ end = _ => destruct x; try discriminate
             end; injection Hv as <-; reflexivity.
    + destruct (_ && _); discriminate.
Qed.

Lemma parse_configuration_needs_coordinates_witness :
  parse_configuration Py312 (mkFactory None) doc_missing_coordinates
  = (Raise ValueError, mkFactory None).
Proof.
  exact (parse_configuration_needs_coordinates Py312 (mkFactory None)
           doc_missing_coordinates eq_refl).
Defined.

Lemma by_value_version (s : string) :
  by_value version_value [V3_0; V2_0; V1_0] s = None
  \/ exists m, by_value version_value [V3_0; V2_0; V1_0] s = Some m
               /\ s = version_value m.
Proof.
  unfold by_value. cbn [find].
  destruct (String.eqb_spec (version_value V3_0) s) as [<-|_]; [right; eauto|].
  destruct (String.eqb_spec (version_value V2_0) s) as [<-|_]; [right; eauto|].
  destruct (String.eqb_spec (version_value V1_0) s) as [<-|_]; [right; eauto|].
  left. reflexivity.
Qed.

(** X5. An explicit [version] decides alone: when its value is not one of
    the texts "1.0", "2.0", "3.0", the document is refused with
    [ValueError], whatever its other keys; when it is one of them, that is
    the version detected, whatever lists the document holds. *)
Theorem explicit_version_wins (py : interpreter) (self : ConfigurationFactory)
    (doc : gmap string value) (v : value) :
  doc !! "version" = Some v ->
  ((forall m, v <> VStr (version_value m)) ->
   parse_configuration py self doc = (Raise ValueError, self))
  /\ (forall m, v = VStr (version_value m) ->
                _determine_configuration_version doc = Ok m).
Proof.
  intros Hv.
  assert (Hdet : _determine_configuration_version doc = ConfigurationVersion_call v).
  { unfold _determine_configuration_version, dict_has, dict_get. rewrite Hv. reflexivity. }
  split.
  - intros Hnot. unfold parse_configuration. rewrite Hdet.
    unfold ConfigurationVersion_call. destruct v; try reflexivity.
    destruct (by_value_version s) as [-> | (m & _ & ->)]; [reflexivity|].
    destruct (Hnot m eq_refl).
  - intros m ->. rewrite Hdet. destruct m; reflexivity.
Qed.

Lemma explicit_version_wins_witness :
  parse_configuration Py312 (mkFactory None) doc_unknown_version
  = (Raise ValueError, mkFactory None).
Proof.
  refine (proj1 (explicit_version_wins Py312 (mkFactory None) doc_unknown_version
                   (VStr "4.0") eq_refl) _).
  intros []; discriminate.
Defined.

(** ** Export and import *)

Lemma group_action_job_json_entry (j : GroupActionJob) :
  is_member (ga_sun_location j) -> (exists z, ga_offset j = VInt z) ->
  exists e, group_action_job_json j = Ok e /\ basic_entry e j.
Proof.
  destruct j as [id sun off]. cbn. intros [m ->] [z ->].
  eexists. split; [reflexivity|].
  apply (basic_entry_intro _ id (VInt z) m z); [reflexivity.. | constructor].
Qed.

Lemma validation_job_json_entry (j : ValidationJob) :
  is_member (sun_location j) -> (exists z, offset j = VInt z) ->
  exists e, validation_job_json j = Ok e /\ advanced_entry e j.
Proof.
  destruct j as [a id sun off]. cbn. intros [m ->] [z ->].
  eexists. split; [reflexivity|].
  apply (advanced_entry_intro _ id (VInt z) a m z); [reflexivity.. | constructor].
Qed.

Lemma mapM_entries {A B : Type} (f : A -> result B) (R : B -> A -> Prop)
    (xs : list A) :
  Forall (fun x => exists y, f x = Ok y /\ R y x) xs ->
  exists ys, mapM f xs = Ok ys /\ Forall2 R ys xs.
Proof.
  induction 1 as [|x xs (y & Hy & Hr) _ (ys & Hys & Hrs)].
  - exists []. split; [reflexivity | constructor].
  - exists (y :: ys). cbn [mapM]. rewrite Hy. cbn [bind]. rewrite Hys.
    split; [reflexivity | by constructor].
Qed.

Lemma verify_canonical (py : interpreter) (c : Configuration) :
  canonical c -> coordinates c <> None -> _verify_configuration py c = Ok c.
Proof.
  intros [Hg Hv] Hco. unfold _verify_configuration.
  destruct (coordinates c) as [co|] eqn:E; [|congruence].
  rewrite (mapM_fixed verify_group_action_job).
  - cbn [bind]. rewrite (mapM_fixed (verify_validation_job py)).
    + destruct c; cbn in *. by rewrite E.
    + eapply Forall_impl; [exact Hv|]. intros [a id sun off]. cbn.
      intros ((n & -> & Hn) & [m ->] & _). unfold verify_validation_job. cbn.
      destruct (Z.ltb_spec n 0); [lia|]. by destruct py.
  - eapply Forall_impl; [exact Hg|]. intros [id sun off]. cbn.
    intros ((n & -> & Hn) & _ & _). by apply verify_group_action_job_any_sun_location.
Qed.

(** X6. Export, then import. For a configuration tagged 3.0 whose ids are
    integers not below zero, whose sun locations are members and whose
    offsets are integers, [get_json_configuration] returns a document, and
    [parse_configuration] of that document returns the same jobs in the
    same order under the tag 3.0, with the coordinates read back from the
    printed text, provided that text is accepted by [from_string]. *)
Theorem export_then_import (py : interpreter) (show : Coordinates -> string)
    (self self' : ConfigurationFactory) (c : Configuration) (co co' : Coordinates) :
  coordinates c = Some co ->
  version c = V3_0 ->
  canonical c ->
  show co <> EmptyString ->
  from_string_str (show co) = Ok co' ->
  exists doc,
    get_json_configuration show self (Some c) = Ok doc
    /\ parse_configuration py self' doc
       = (Ok (mkConfiguration (Some co') (group_action_jobs c) (validation_jobs c) V3_0),
          mkFactory (Some (mkConfiguration (Some co') (group_action_jobs c)
                             (validation_jobs c) V3_0))).
Proof.
  intros Hco Hver [Hg Hv] Hne Hparse.
  destruct (mapM_entries group_action_job_json basic_entry (group_action_jobs c))
    as (basic & Hbasic & Hb2).
  { eapply Forall_impl; [exact Hg|]. intros j (_ & Hm & Hz).
    by apply group_action_job_json_entry. }
  destruct (mapM_entries validation_job_json advanced_entry (validation_jobs c))
    as (advanced & Hadv & Ha2).
  { eapply Forall_impl; [exact Hv|]. intros j (_ & Hm & Hz).
    by apply validation_job_json_entry. }
  unfold get_json_configuration. rewrite Hbasic. cbn [bind]. rewrite Hadv. cbn [bind].
  rewrite Hco, Hver. cbn [coordinates_text version_value].
  eexists. split; [reflexivity|].
  set (doc := <["coordinates":=VStr (show co)]> _).
  assert (Hdet : _determine_configuration_version doc = Ok V3_0) by reflexivity.
  assert (Hmig : migrate V3_0 doc
                 = Ok (mkConfiguration (Some co') (group_action_jobs c)
                         (validation_jobs c) V3_0)).
  { cbn [migrate]. unfold _migrate_configuration_v3. rewrite Hdet.
    cbn [bind version_eqb negb].
    apply (migrate_lists_valid doc co' basic advanced).
    - exists (show co). split; [reflexivity|]. split; [exact Hne | exact Hparse].
    - reflexivity.
    - reflexivity.
    - exact Hb2.
    - exact Ha2. }
  unfold parse_configuration. rewrite Hdet. cbn [migrate] in Hmig. rewrite Hmig.
  rewrite verify_canonical; [reflexivity | by split | discriminate].
Qed.

Lemma small_configuration_canonical : canonical small_configuration.
Proof.
  split; (constructor; [|constructor]); cbn;
    (split; [eexists; split; [reflexivity | lia]|]);
    split; eexists; reflexivity.
Defined.

Lemma export_then_import_witness :
  exists doc,
    get_json_configuration show_literals (mkFactory None) (Some small_configuration)
    = Ok doc
    /\ parse_configuration Py312 (mkFactory None) doc
       = (Ok small_configuration, mkFactory (Some small_configuration)).
Proof.
  refine (export_then_import Py312 show_literals (mkFactory None) (mkFactory None)
            small_configuration test_coordinates test_coordinates
            eq_refl eq_refl small_configuration_canonical _ eq_refl).
  discriminate.
Defined.

(** ** Reading the configuration into the index *)

Lemma py_int_valid_id (v : value) : valid_id v -> py_int v = Ok (number_value v).
Proof. intros [(n & -> & _) | [[] ->]]; reflexivity. Qed.

Lemma offset_or_zero_number (v : value) :
  is_number v -> offset_or_zero v = Ok (number_value v).
Proof.
  unfold offset_or_zero, py_or.
  intros [[n ->] | [[] ->]]; [|reflexivity..]. cbn [truthy].
  destruct (Z.eqb_spec n 0) as [->|]; reflexivity.
Qed.

Lemma sun_value_nonempty (m : SunLocation) : truthy (VStr (sun_value m)) = true.
Proof. by destruct m. Qed.

Lemma sun_value_inj (m m' : SunLocation) : sun_value m = sun_value m' -> m = m'.
Proof. destruct m, m'; (reflexivity || discriminate). Qed.

(** The first loop on jobs as [parse_configuration] returns them: it never
    raises, files each job under the text of its sun location, and binds
    the attribute to the dict it built as soon as there is one job. *)
Lemma read_group_actions_loop (jobs : list GroupActionJob) :
  Forall (fun j => valid_id (group_action_id j) /\ is_member (ga_sun_location j)
                   /\ is_number (ga_offset j)) jobs ->
  forall local attr,
    exists local',
      loop read_group_action jobs (local, attr)
      = Some ((local', if is_nil jobs then attr else local'), None)
      /\ (forall k, get_list local' k
                    = get_list local k
                      ++ map (fun j => mkGroupAction (number_value (group_action_id j))
                                         (number_value (ga_offset j)))
                           (List.filter
                              (fun j => bool_decide
                                 (KStr (sun_value (member_of (ga_sun_location j))) = k))
                              jobs))
      /\ (text_keys local -> text_keys local').
Proof.
  induction 1 as [|j jobs (Hid & [m Hm] & Hoff) _ IH]; intros local attr.
  - exists local. split; [reflexivity|]. split; [|auto].
    intros k. by rewrite app_nil_r.
  - set (local1 := setdefault_append local (KStr (sun_value m))
                     (mkGroupAction (number_value (group_action_id j))
                        (number_value (ga_offset j)))).
    destruct (IH local1 local1) as (local' & Hloop & Hget & Hkeys).
    exists local'. split; [|split].
    + assert (Hstep : read_group_action (local, attr) j = Some (Ok (local1, local1))).
      { unfold read_group_action.
        rewrite Hm. cbn [member_value bind]. rewrite sun_value_nonempty. cbn [negb].
        unfold int_or_continue. rewrite (py_int_valid_id _ Hid). cbn [bind].
        rewrite (offset_or_zero_number _ Hoff). reflexivity. }
      cbn [loop is_nil]. rewrite Hstep.
      destruct jobs; [cbn in Hloop |- *; by simplify_eq | exact Hloop].
    + intros k. rewrite Hget. subst local1. rewrite get_list_setdefault_append.
      cbn [List.filter]. rewrite Hm. cbn [member_of].
      destruct (decide (k = KStr (sun_value m))) as [->|Hne].
      * rewrite bool_decide_eq_true_2 by reflexivity. cbn [map].
        rewrite <- app_assoc. reflexivity.
      * rewrite bool_decide_eq_false_2 by congruence. reflexivity.
    + intros Ht. apply Hkeys. unfold text_keys in *. rewrite Forall_forall in *.
      intros k Hk%list_elem_of_In. subst local1.
      apply keys_setdefault_append in Hk as [-> | Hk]; [eauto|].
      apply Ht, list_elem_of_In, Hk.
Qed.

Lemma read_bits_loop (jobs : list ValidationJob) :
  Forall (fun j => valid_id (bit_id j) /\ is_member (sun_location j)
                   /\ is_number (offset j)) jobs ->
  forall local attr,
    exists local',
      loop read_bit jobs (local, attr)
      = Some ((local', if is_nil jobs then attr else local'), None)
      /\ (forall k, get_list local' k
                    = get_list local k
                      ++ map (fun j => mkBit (number_value (bit_id j))
                                         (action_value (action j))
                                         (number_value (offset j)))
                           (List.filter
                              (fun j => bool_decide
                                 (KSun (member_of (sun_location j)) = k))
                              jobs))
      /\ (member_keys local -> member_keys local').
Proof.
  induction 1 as [|j jobs (Hid & [m Hm] & Hoff) _ IH]; intros local attr.
  - exists local. split; [reflexivity|]. split; [|auto].
    intros k. by rewrite app_nil_r.
  - set (local1 := setdefault_append local (KSun m)
                     (mkBit (number_value (bit_id j)) (action_value (action j))
                        (number_value (offset j)))).
    destruct (IH local1 local1) as (local' & Hloop & Hget & Hkeys).
    exists local'. split; [|split].
    + assert (Hstep : read_bit (local, attr) j = Some (Ok (local1, local1))).
      { unfold read_bit.
        rewrite Hm. cbn [truthy negb].
        unfold int_or_continue. rewrite (py_int_valid_id _ Hid).
        rewrite (offset_or_zero_number _ Hoff). cbn [dict_key fst].
        assert (Hact : match py_or (VStr (action_value (action j))) (VStr "clear") with
                       | VStr s => s
                       | _ => "clear"
                       end = action_value (action j)) by (by destruct (action j)).
        rewrite Hact. reflexivity. }
      cbn [loop is_nil]. rewrite Hstep.
      destruct jobs; [cbn in Hloop |- *; by simplify_eq | exact Hloop].
    + intros k. rewrite Hget. subst local1. rewrite get_list_setdefault_append.
      cbn [List.filter]. rewrite Hm. cbn [member_of].
      destruct (decide (k = KSun m)) as [->|Hne].
      * rewrite bool_decide_eq_true_2 by reflexivity. cbn [map].
        rewrite <- app_assoc. reflexivity.
      * rewrite bool_decide_eq_false_2 by congruence. reflexivity.
    + intros Ht. apply Hkeys. unfold member_keys in *. rewrite Forall_forall in *.
      intros k Hk%list_elem_of_In. subst local1.
      apply keys_setdefault_append in Hk as [-> | Hk]; [eauto|].
      apply Ht, list_elem_of_In, Hk.
Qed.

Lemma filter_by_text_key (jobs : list GroupActionJob) (m : SunLocation) :
  List.filter (fun j => bool_decide
                 (KStr (sun_value (member_of (ga_sun_location j)))
                  = KStr (sun_value m))) jobs
  = List.filter (fun j => bool_decide (member_of (ga_sun_location j) = m)) jobs.
Proof.
  apply filter_ext. intros j. apply bool_decide_ext. split.
  - intros [= H]. by apply sun_value_inj.
  - by intros ->.
Qed.

Lemma filter_by_member_key (jobs : list ValidationJob) (m : SunLocation) :
  List.filter (fun j => bool_decide (KSun (member_of (sun_location j)) = KSun m)) jobs
  = List.filter (fun j => bool_decide (member_of (sun_location j) = m)) jobs.
Proof.
  apply filter_ext. intros j. apply bool_decide_ext. split.
  - by intros [= H].
  - by intros ->.
Qed.

(** What [_read_config] does with a document that parses, when [pytz] can
    be imported: it does not raise; each index is replaced by the entries
    of the configuration when the configuration has a job of that kind,
    and kept otherwise. *)
Lemma read_config_Ok (py : interpreter) (self : Plugin) (c : Configuration)
    (f : ConfigurationFactory) :
  parse_configuration py (config_factory self) (_config self) = (Ok c, f) ->
  exists co gas bits,
    coordinates c = Some co
    /\ _read_config py true self
       = Some (None,
               finish_read_config true
                 (mkPlugin
                    (set_bits
                       (if is_nil (validation_jobs c) then _bits (astro self)
                        else bits)
                       (set_group_actions
                          (if is_nil (group_action_jobs c)
                           then _group_actions (astro self) else gas)
                          (astro self)))
                    (_config self) (Some c) f (Some (latitude co))
                    (Some (longitude co)) (written self)))
    /\ (forall m, get_list gas (KStr (sun_value m)) = automations_at c m)
    /\ text_keys gas
    /\ (forall m, get_list bits (KSun m) = bits_at c m)
    /\ member_keys bits.
Proof.
  intros Hp.
  destruct (parse_configuration_Ok _ _ _ _ _ Hp) as [(_ & Hco & Hgs & Hvs) _].
  destruct (coordinates c) as [co|] eqn:Eco; [|done].
  destruct (read_group_actions_loop _ Hgs [] (_group_actions (astro self)))
    as (gas & Hg & Hgget & Hgkeys).
  destruct (read_bits_loop _ Hvs [] (_bits (astro self)))
    as (bits & Hb & Hbget & Hbkeys).
  exists co, gas, bits. split; [reflexivity|]. split; [|split; [|split; [|split]]].
  - unfold _read_config. rewrite Hp. cbn [negb]. rewrite Eco.
    cbn [astro set_astro]. rewrite Hg. cbn [snd astro set_astro].
    cbn [_bits set_group_actions]. rewrite Hb. reflexivity.
  - intros m. rewrite Hgget. cbn [get_list app]. unfold automations_at.
    by rewrite filter_by_text_key.
  - apply Hgkeys. constructor.
  - intros m. rewrite Hbget. cbn [get_list app]. unfold bits_at.
    by rewrite filter_by_member_key.
  - apply Hbkeys. constructor.
Qed.





(** ** What the plan builder finds in the index *)

Lemma attempt_Ok_response (now : Z) (resp : response)
    (gas : list (loc_key * list group_action)) (bits : list (loc_key * list bit))
    (order : list loc_key) (plan : execution_plan) :
  attempt now resp gas bits order = Ok plan ->
  exists code data,
    resp = Response code (Some data)
    /\ build_plan now data gas bits order = Ok plan.
Proof.
  unfold attempt. destruct resp as [|code [data|]]; try discriminate.
  - destruct (negb (code =? 200)); [discriminate|].
    destruct (subscript data "status") as [st|]; [|discriminate]. cbn [bind].
    intros H. exists code, data. split; [reflexivity|].
    repeat match type of H with
           | match ?x with _ => _ end = _ => destruct x; try discriminate
           end.
    exact H.
  - destruct (negb (code =? 200)); discriminate.
Qed.

Lemma get_list_nonempty_key {K V : Type} `{EqDecision K} (d : list (K * list V))
    (k : K) (x : V) :
  In x (get_list d k) -> In k (keys d).
Proof.
  unfold get_list. induction d as [|[k' l] d IH]; cbn [get keys map fst]; [done|].
  destruct (decide (k = k')) as [->|]; [by left|]. intros Hx. right. by apply IH.
Qed.

(** With bits filed under members, no entry of a plan built from an
    answer without a field ['x'] is a bit entry. *)
Lemma member_keys_plan_no_bit (now : Z) (data : value)
    (gas : list (loc_key * list group_action)) (bits : list (loc_key * list bit))
    (order : list loc_key) (plan : execution_plan) :
  member_keys bits -> no_x_field data ->
  build_plan now data gas bits order = Ok plan ->
  forall t e, In e (get_list plan t) -> is_bit_entry e = false.
Proof.
  intros Hkeys Hx Hplan t e He.
  apply build_plan_planned in Hplan as [_ Hget]. rewrite Hget in He.
  apply planned_In in He
    as (key & date & _ & Hev & _ & [(b & Hb & _ & ->) | (g & _ & _ & ->)]);
    [|reflexivity].
  apply get_list_nonempty_key in Hb.
  unfold member_keys in Hkeys. rewrite Forall_forall in Hkeys.
  destruct (Hkeys key) as [m ->]; [by apply list_elem_of_In|].
  unfold no_x_field in Hx. unfold event_time in Hev, Hx.
  cbn [field_of] in Hev, Hx. congruence.
Qed.

Lemma read_config_finished (py : interpreter) (pytz : bool) (self self' : Plugin) :
  _read_config py pytz self = Some (None, self') ->
  exists p, self' = finish_read_config pytz p
            /\ (pytz = true -> exists c f,
                  parse_configuration py (config_factory self) (_config self)
                  = (Ok c, f)).
Proof.
  unfold _read_config.
  destruct (parse_configuration py (config_factory self) (_config self))
    as [[c|e] f]; [|discriminate].
  destruct pytz; cbn [negb].
  - destruct (coordinates c); [|discriminate]. cbn [astro set_astro].
    destruct (loop read_group_action _ _) as [[st [e|]]|]; try discriminate.
    destruct (loop read_bit _ _) as [[st' [e|]]|]; try discriminate.
    intros [= <-]. eexists. split; [reflexivity|]. eauto.
  - intros [= <-]. eexists. split; [reflexivity|]. discriminate.
Qed.

(** X9. Validation bits are filed under enumeration members, and the plan
    builder looks up the field of the answer by the text of the key. So
    when the keys of [_bits] are members before [_read_config] (as they
    are at start, and after every earlier [_read_config]), they are
    members after it, and no plan built afterwards from answers that have
    no field named ['x'] holds a bit entry, whatever the validation jobs
    of the configuration. *)
Theorem validation_bits_are_never_planned (py : interpreter) (self self' : Plugin)
    (h : host) (now : Z) :
  member_keys (_bits (astro self)) ->
  (forall n code data, fetch h n = Response code (Some data) -> no_x_field data) ->
  _read_config py true self = Some (None, self') ->
  member_keys (_bits (astro self'))
  /\ forall t e,
       In e (get_list (_execution_plan (_build_execution_plan h now (astro self'))) t)
       -> is_bit_entry e = false.
Proof.
  intros Hkeys Hdata Hrun.
  assert (Hkeys' : member_keys (_bits (astro self'))).
  { destruct (read_config_finished _ _ _ _ Hrun) as (_ & _ & Hparse).
    destruct (Hparse eq_refl) as (c & f & Hp).
    destruct (read_config_Ok py self c f Hp)
      as (co & gas & bits & _ & Hrun' & _ & _ & _ & Hbk).
    rewrite Hrun' in Hrun. injection Hrun as <-.
    cbn [finish_read_config set_astro astro set_last_request_date set_enabled
           set_bits set_group_actions _bits].
    by destruct (validation_jobs c). }
  split; [exact Hkeys'|]. intros t e He.
  unfold _build_execution_plan in He.
  destruct (build_loop_plan h now 5 (astro self') ltac:(discriminate))
    as [Hnil | [n Hn]].
  - rewrite Hnil in He. destruct He.
  - apply attempt_Ok_response in Hn as (code & data & Hresp & Hplan).
    eapply member_keys_plan_no_bit; [exact Hkeys' | | exact Hplan | exact He].
    eapply Hdata, Hresp.
Qed.

Lemma validation_bits_are_never_planned_witness :
  exists self',
    _read_config Py312 true (fresh_plugin doc_v3_offsets noon) = Some (None, self')
    /\ _bits (astro self')
       = [ (KSun CIVIL_DUSK, [mkBit 12 "clear" 0]);
           (KSun CIVIL_DAWN, [mkBit 12 "set" 15]) ]
    /\ forall t e,
         In e (get_list (_execution_plan
                           (_build_execution_plan answering_host midnight_2024_06_21
                              (astro self'))) t)
         -> is_bit_entry e = false.
Proof.
  eexists. split; [vm_compute; reflexivity|]. split; [reflexivity|].
  refine (proj2 (validation_bits_are_never_planned Py312
                   (fresh_plugin doc_v3_offsets noon) _ answering_host
                   midnight_2024_06_21 _ _ _)).
  - constructor.
  - intros n code data [= _ <-]. reflexivity.
  - vm_compute. reflexivity.
Defined.

(** ** Reading a configuration and the run loop *)

Lemma build_loop_sends_request (h : host) (now : Z) (retries : nat) (self : Astro) :
  (requests self < requests (build_loop h now (S retries) self))%nat.
Proof.
  cbn [build_loop do_request].
  match goal with |- context [attempt ?a ?b ?c ?d ?e] => destruct (attempt a b c d e) end.
  - cbn. lia.
  - match goal with |- context [build_loop h now retries ?s] =>
      pose proof (build_loop_requests h now retries s) as H end.
    cbn in H. lia.
Qed.

Lemma dispatch_requests (h : host) (l : list plan_entry) :
  forall a, requests (fold_left (dispatch h) l a) = requests a.
Proof.
  induction l as [|e l IH]; intros a; [reflexivity|]. cbn [fold_left].
  rewrite IH. unfold dispatch. by destruct (entry_task e).
Qed.

Lemma run_once_requests (h : host) (self : Astro) :
  requests (run_once h self)
  = if _enabled self
    then if bool_decide (_last_request_date self = Some (today_of h (clock self)))
         then requests self
         else requests (_build_execution_plan h (clock self)
                          (set_last_request_date
                             (Some (today_of h (clock self))) self))
    else requests self.
Proof.
  unfold run_once. destruct (_enabled self); [|reflexivity]. cbn [negb].
  assert (Hscan : forall l st, requests (plugin (fold_left (scan_step h (clock self)) l st))
                               = requests (plugin st)).
  { induction l as [|d l IH]; intros st; [reflexivity|]. cbn [fold_left].
    rewrite IH. unfold scan_step.
    destruct (minutes 5 <? Z.abs (d - clock self)).
    - destruct (_ && _); reflexivity.
    - cbn [plugin set_plan requests]. apply dispatch_requests. }
  destruct (bool_decide _); cbn [negb].
  - destruct (is_nil _); [reflexivity|]. cbn [_sleep requests].
    unfold scan. by rewrite Hscan.
  - destruct (is_nil _); [reflexivity|]. cbn [_sleep requests].
    unfold scan. by rewrite Hscan.
Qed.

(** X10. A successful [_read_config] clears the day marker, so the next
    pass of [run], if the plugin is enabled, asks the solar-time source
    again, even when the plan of the day had been built already; a
    disabled plugin sends nothing. *)
Theorem read_config_forces_new_plan (py : interpreter) (pytz : bool)
    (self self' : Plugin) (h : host) :
  _read_config py pytz self = Some (None, self') ->
  _last_request_date (astro self') = None
  /\ (if _enabled (astro self')
      then (requests (astro self') < requests (run_once h (astro self')))%nat
      else requests (run_once h (astro self')) = requests (astro self')).
Proof.
  intros Hrun. destruct (read_config_finished _ _ _ _ Hrun) as (p & -> & _).
  split; [reflexivity|]. rewrite run_once_requests.
  destruct (_enabled _) eqn:Hen; [|reflexivity].
  cbn [finish_read_config set_astro astro set_last_request_date _last_request_date].
  rewrite bool_decide_eq_false_2 by discriminate.
  unfold _build_execution_plan.
  match goal with |- context [build_loop h ?n 5 ?s] =>
    pose proof (build_loop_sends_request h n 4 s) as H end.
  exact H.
Qed.

Lemma read_config_forces_new_plan_witness :
  exists self',
    _read_config Py312 true configured_plugin = Some (None, self')
    /\ _last_request_date (astro configured_plugin) = None
    /\ _last_request_date (astro self') = None
    /\ (requests (astro self') < requests (run_once answering_host (astro self')))%nat.
Proof.
  eexists. split; [vm_compute; reflexivity|]. split; [reflexivity|].
  exact (read_config_forces_new_plan Py312 true configured_plugin _ answering_host
           eq_refl).
Defined.

(** ** Replacing the configuration *)







Lemma passes_disabled (h : host) (ts : list Z) :
  forall self,
    _enabled self = false ->
    exists a,
      passes true h ts self = Ok a
      /\ _enabled a = false
      /\ requests a = requests self
      /\ basic_actions a = basic_actions self
      /\ _sleep_until a
         = List.last (map (fun t => t + seconds 30) ts) (_sleep_until self).
Proof.
  unfold passes.
  induction ts as [|t ts IH]; intros self Hen; [by exists self|].
  assert (Hstep : run_pass true h (woken t self)
                  = Ok (_sleep (t + seconds 30) (woken t self))).
  { unfold run_pass, run_once. cbn [woken _enabled clock]. rewrite Hen. reflexivity. }
  destruct (IH (_sleep (t + seconds 30) (woken t self)) Hen) as (a & Hrun & Ha).
  exists a. split.
  { change (bind (run_pass true h (woken t self))
              (foldM (fun a t => run_pass true h (woken t a)) ts) = Ok a).
    rewrite Hstep. exact Hrun. }
  destruct Ha as (Hen' & Hreq & Hcalls & Hsleep).
  split; [exact Hen'|]. split; [exact Hreq|]. split; [exact Hcalls|].
  rewrite Hsleep. destruct ts as [|t' ts]; [reflexivity|].
  cbn [map]. generalize (map (fun t => t + seconds 30) ts). intros l.
  generalize (t' + seconds 30). clear. intros x.
  revert x. induction l as [|y l IHl]; intros x; [reflexivity|].
  cbn [List.last] in *. destruct l; [reflexivity|]. apply (IHl y).
Qed.

(** X13. A plugin that starts on a document without any job is disabled
    by [_read_config], and whenever the passes of [run] that follow
    begin, it sends no request and makes no call: each pass only sets
    the deadline 30 seconds after its own beginning. *)
Theorem plugin_without_jobs_stays_idle (py : interpreter)
    (doc : gmap string value) (now : Z) (c : Configuration) (h : host) :
  fst (parse_configuration py (mkFactory None) doc) = Ok c ->
  group_action_jobs c = [] ->
  validation_jobs c = [] ->
  exists self',
    _read_config py true (fresh_plugin doc now) = Some (None, self')
    /\ _enabled (astro self') = false
    /\ forall ts t,
         exists a,
           passes true h (ts ++ [t]) (astro self') = Ok a
           /\ requests a = 0%nat /\ basic_actions a = []
           /\ _sleep_until a = t + seconds 30.
Proof.
  intros Hp Hg Hb.
  destruct (parse_configuration py (mkFactory None) doc) as [r f] eqn:Hparse.
  cbn [fst] in Hp. subst r.
  destruct (read_config_Ok py (fresh_plugin doc now) c f Hparse)
    as (co & gas & bits & _ & Hrun & _).
  eexists. split; [exact Hrun|]. rewrite Hg, Hb. split; [reflexivity|].
  intros ts t.
  match goal with |- context [passes true h _ ?s] =>
    destruct (passes_disabled h (ts ++ [t]) s eq_refl)
      as (a & Hpass & _ & Hreq & Hcalls & Hsleep) end.
  exists a. split; [exact Hpass|]. split; [exact Hreq|]. split; [exact Hcalls|].
  rewrite Hsleep, map_app. cbn [map]. apply List.last_last.
Qed.

Lemma plugin_without_jobs_stays_idle_witness :
  exists self',
    _read_config Py312 true (fresh_plugin doc_no_jobs noon) = Some (None, self')
    /\ _enabled (astro self') = false
    /\ forall ts t,
         exists a,
           passes true answering_host (ts ++ [t]) (astro self') = Ok a
           /\ requests a = 0%nat /\ basic_actions a = []
           /\ _sleep_until a = t + seconds 30.
Proof.
  exact (plugin_without_jobs_stays_idle Py312 doc_no_jobs noon
           (mkConfiguration (Some test_coordinates) [] [] V3_0) answering_host
           eq_refl eq_refl eq_refl).
Defined.

(** ** The retry loop and the day marker *)

Lemma build_loop_first_success (h : host) (now : Z) (k : nat) :
  forall retries self plan,
    (k < retries)%nat ->
    all_fail h now self (requests self) k ->
    attempt now (fetch h (requests self + k)) (_group_actions self) (_bits self)
      (key_order h) = Ok plan ->
    build_loop h now retries self
    = mkAstro (_enabled self) (_group_actions self) (_bits self)
        (_last_request_date self) plan (_sleep_until self)
        (clock self + fetch_total h (requests self) (S k)
         + seconds (5 * Z.of_nat k))
        (requests self + S k) (sleeps self ++ repeat 5 k) (basic_actions self).
Proof.
  induction k as [|k IH]; intros retries self plan Hlt Hfail Hok.
  - destruct retries as [|retries]; [lia|]. cbn [build_loop do_request].
    rewrite Nat.add_0_r in Hok. cbn [_group_actions _bits]. rewrite Hok.
    cbn [set_plan _enabled _group_actions _bits _last_request_date _sleep_until
           clock requests sleeps basic_actions fetch_total repeat].
    rewrite app_nil_r. unfold set_plan. cbn. f_equal; unfold seconds; lia.
  - destruct retries as [|retries]; [lia|]. cbn [build_loop do_request].
    destruct (Hfail 0%nat ltac:(lia)) as [e He]. rewrite Nat.add_0_r in He.
    cbn [_group_actions _bits]. rewrite He.
    match goal with |- build_loop h now retries ?s = _ =>
      rewrite (IH retries s plan) end.
    + cbn [set_plan time_sleep _enabled _group_actions _bits _last_request_date
             _execution_plan _sleep_until clock requests sleeps basic_actions].
      f_equal.
      * cbn [fetch_total]. unfold seconds. lia.
      * lia.
      * cbn [repeat]. rewrite <- app_assoc. reflexivity.
    + lia.
    + intros i Hi. cbn [set_plan time_sleep requests _group_actions _bits].
      destruct (Hfail (S i) ltac:(lia)) as [e' He']. exists e'.
      rewrite <- He'. f_equal. f_equal. lia.
    + cbn [set_plan time_sleep requests _group_actions _bits].
      rewrite <- Hok. f_equal. f_equal. lia.
Qed.

(** X14. The retry loop stops at the first attempt that succeeds: when
    the first [k] answers (k below 5) make the attempt fail and the next
    one gives a plan, [_build_execution_plan] leaves that plan, having
    sent k + 1 requests and slept 5 seconds k times; the answers that
    would have followed are never asked for. *)
Theorem build_stops_at_first_success (h : host) (now : Z) (k : nat) (self : Astro)
    (plan : execution_plan) :
  (k < 5)%nat ->
  all_fail h now self (requests self) k ->
  attempt now (fetch h (requests self + k)) (_group_actions self) (_bits self)
    (key_order h) = Ok plan ->
  let built := _build_execution_plan h now self in
  _execution_plan built = plan
  /\ requests built = (requests self + S k)%nat
  /\ sleeps built = sleeps self ++ repeat 5 k
  /\ clock built
     = clock self + fetch_total h (requests self) (S k) + seconds (5 * Z.of_nat k).
Proof.
  intros Hk Hfail Hok built. subst built. unfold _build_execution_plan.
  rewrite (build_loop_first_success h now k 5 self plan Hk Hfail Hok).
  repeat split.
Qed.

Lemma build_stops_at_first_success_witness :
  let built := _build_execution_plan recovering_host midnight_2024_06_21
                 plugin_at_midnight in
  _execution_plan built = built_plan
  /\ requests built = 3%nat
  /\ sleeps built = [5; 5]
  /\ clock built = midnight_2024_06_21 + seconds 13.
Proof.
  refine (build_stops_at_first_success recovering_host midnight_2024_06_21 2
            plugin_at_midnight built_plan _ _ _).
  - lia.
  - intros i Hi. exists ConnectionError.
    destruct i as [|[|i]]; [reflexivity | reflexivity | lia].
  - vm_compute. reflexivity.
Defined.

Lemma scan_keeps (h : host) (now : Z) (ks : list Z) :
  forall st,
    let a := plugin (fold_left (scan_step h now) ks st) in
    _enabled a = _enabled (plugin st)
    /\ _last_request_date a = _last_request_date (plugin st)
    /\ _group_actions a = _group_actions (plugin st)
    /\ _bits a = _bits (plugin st).
Proof.
  induction ks as [|k ks IH]; intros st; cbn zeta; [repeat split|].
  cbn [fold_left]. destruct (IH (scan_step h now st k)) as (H1 & H2 & H3 & H4).
  rewrite H1, H2, H3, H4. unfold scan_step.
  destruct (minutes 5 <? Z.abs (k - now)).
  - destruct (_ && _); repeat split.
  - cbn [plugin set_plan _enabled _last_request_date _group_actions _bits].
    generalize (get_list (_execution_plan (plugin st)) k). intros l.
    generalize (plugin st). induction l as [|e l IHl]; intros a; [repeat split|].
    cbn [fold_left]. destruct (IHl (dispatch h a e)) as (G1 & G2 & G3 & G4).
    rewrite G1, G2, G3, G4. unfold dispatch. destruct (entry_task e); repeat split.
Qed.

Lemma build_loop_keeps (h : host) (now : Z) (retries : nat) :
  forall self,
    _enabled (build_loop h now retries self) = _enabled self
    /\ _last_request_date (build_loop h now retries self) = _last_request_date self.
Proof.
  induction retries as [|retries IH]; intros self; [split; reflexivity|].
  cbn [build_loop do_request].
  match goal with |- context [attempt ?a ?b ?c ?d ?e] => destruct (attempt a b c d e) end.
  - split; reflexivity.
  - match goal with |- context [build_loop h now retries ?s] => destruct (IH s) as [H1 H2] end.
    rewrite H1, H2. split; reflexivity.
Qed.

Lemma run_once_marker (h : host) (self : Astro) :
  _enabled self = true ->
  _enabled (run_once h self) = true
  /\ _last_request_date (run_once h self) = Some (today_of h (clock self)).
Proof.
  intros Hen. unfold run_once. rewrite Hen. cbn [negb].
  set (self1 := if negb (bool_decide (_last_request_date self
                                      = Some (today_of h (clock self))))
                then _build_execution_plan h (clock self)
                       (set_last_request_date (Some (today_of h (clock self))) self)
                else self).
  assert (H1 : _enabled self1 = true
               /\ _last_request_date self1 = Some (today_of h (clock self))).
  { subst self1. destruct (bool_decide_reflect
                             (_last_request_date self = Some (today_of h (clock self))))
      as [Heq|Hne]; cbn [negb]; [auto|].
    unfold _build_execution_plan.
    match goal with |- context [build_loop h ?n 5 ?s] =>
      destruct (build_loop_keeps h n 5 s) as [G1 G2] end.
    rewrite G1, G2. auto. }
  destruct H1 as [He Hm].
  destruct (is_nil (_execution_plan self1)); [auto|].
  cbn [_sleep _enabled _last_request_date]. unfold scan.
  destruct (scan_keeps h (clock self) (keys (_execution_plan self1))
              (mkScan self1 (tomorrow_of h (clock self)) (days 2)))
    as (G1 & G2 & _).
  cbn [plugin] in G1, G2. rewrite G1, G2. auto.
Qed.

(** X15. The solar-time source is asked once per local day: after a pass
    of [run] on an enabled plugin, a later pass that begins at a time [t]
    of the same local day sends no request, whether or not the first
    pass obtained a plan, and a pass that begins on another day sends at
    least one. *)
Theorem solar_times_are_asked_once_a_day (h : host) (self : Astro) (t : Z) :
  _enabled self = true ->
  let first := run_once h self in
  let second := run_once h (woken t first) in
  if bool_decide (today_of h t = today_of h (clock self))
  then requests second = requests first
  else (requests first < requests second)%nat.
Proof.
  intros Hen first second. subst second.
  destruct (run_once_marker h self Hen) as [Hen1 Hmark]. fold first in Hen1, Hmark.
  rewrite run_once_requests. cbn [woken _enabled _last_request_date clock requests].
  rewrite Hen1, Hmark.
  destruct (bool_decide_reflect (today_of h t = today_of h (clock self))) as [->|Hne].
  - by rewrite bool_decide_eq_true_2.
  - rewrite bool_decide_eq_false_2 by congruence.
    unfold _build_execution_plan.
    match goal with |- context [build_loop h ?n 5 ?s] =>
      pose proof (build_loop_sends_request h n 4 s) as H end.
    exact H.
Qed.

Lemma solar_times_are_asked_once_a_day_witness :
  let first := run_once silent_host plugin_new_day in
  let second := run_once silent_host (woken (noon + minutes 90) first) in
  requests first = 5%nat /\ _execution_plan first = []
  /\ requests second = requests first.
Proof.
  split; [reflexivity|]. split; [reflexivity|].
  exact (solar_times_are_asked_once_a_day silent_host plugin_new_day
           (noon + minutes 90) eq_refl).
Defined.

(** ** The shape of the plan *)

Lemma plan_well_formed_filter (f : Z * list plan_entry -> bool)
    (plan : execution_plan) :
  plan_well_formed plan -> plan_well_formed (List.filter f plan).
Proof.
  intros [Hnd Hne]. split.
  - clear Hne. induction plan as [|[k l] plan IH]; [constructor|].
    cbn [keys map fst] in Hnd. apply NoDup_cons in Hnd as [Hk Hnd].
    cbn [List.filter]. destruct (f (k, l)); [|by apply IH].
    cbn [keys map fst]. apply NoDup_cons. split; [|by apply IH].
    intros Hin. apply Hk. apply list_elem_of_In in Hin. apply list_elem_of_In.
    unfold keys in *. apply in_map_iff in Hin as (kv & Hkv & Hin).
    apply in_map_iff. exists kv. split; [exact Hkv|].
    apply filter_In in Hin. tauto.
  - rewrite Forall_forall in *. intros kv Hin%list_elem_of_In.
    apply filter_In in Hin as [Hin _]. by apply Hne, list_elem_of_In.
Qed.

Lemma built_plan_well_formed (h : host) (now : Z) (self : Astro) :
  plan_well_formed (_execution_plan (_build_execution_plan h now self)).
Proof.
  unfold _build_execution_plan.
  destruct (build_loop_plan h now 5 self ltac:(discriminate)) as [-> | [n Hn]].
  - split; constructor.
  - apply attempt_build_plan in Hn as [data Hplan].
    apply build_plan_planned in Hplan as [(Hnd & _ & Hne) _]. by split.
Qed.

(** X16. The plan never holds two lists for one fire time, nor an empty
    list: that holds of the empty plan the plugin starts with and of
    every plan [_build_execution_plan] leaves, and a pass of [run]
    preserves it. *)
Theorem run_keeps_plan_well_formed (h : host) (self : Astro) :
  plan_well_formed (_execution_plan self) ->
  plan_well_formed (_execution_plan (run_once h self)).
Proof.
  intros Hwf. unfold run_once. destruct (_enabled self); [|exact Hwf]. cbn [negb].
  set (self1 := if negb (bool_decide (_last_request_date self
                                      = Some (today_of h (clock self))))
                then _build_execution_plan h (clock self)
                       (set_last_request_date (Some (today_of h (clock self))) self)
                else self).
  assert (Hwf1 : plan_well_formed (_execution_plan self1)).
  { subst self1. destruct (negb _); [apply built_plan_well_formed | exact Hwf]. }
  destruct (is_nil (_execution_plan self1)); [exact Hwf1|].
  cbn [_sleep _execution_plan]. unfold scan.
  destruct (scan_plan_calls h (clock self) (keys (_execution_plan self1))
              (mkScan self1 (tomorrow_of h (clock self)) (days 2)) (proj1 Hwf1))
    as [Hplan _].
  cbn [plugin] in Hplan. rewrite Hplan. by apply plan_well_formed_filter.
Qed.

Lemma run_keeps_plan_well_formed_witness :
  plan_well_formed (_execution_plan (run_once silent_host (plugin_at_noon mixed_plan))).
Proof.
  apply run_keeps_plan_well_formed. split.
  - apply (bool_decide_unpack _). vm_compute. exact I.
  - repeat (constructor; [discriminate|]). constructor.
Defined.

(** ** The order in which the sun locations are visited *)

Section FoldSuccess.
Context {A S : Type} (f : S -> A -> result S).
Hypothesis any_state :
  forall s a s', f s a = Ok s' -> forall s2, exists s2', f s2 a = Ok s2'.

Lemma foldM_Ok_Forall (l : list A) :
  forall s s', foldM f l s = Ok s' ->
  Forall (fun a => forall s2, exists s2', f s2 a = Ok s2') l.
Proof.
  induction l as [|a l IH]; intros s s' H; [constructor|].
  cbn [foldM] in H. destruct (f s a) as [s1|] eqn:Ha; [|discriminate].
  cbn [bind] in H. constructor; [eapply any_state, Ha | eapply IH, H].
Qed.

Lemma Forall_foldM_Ok (l : list A) :
  Forall (fun a => forall s2, exists s2', f s2 a = Ok s2') l ->
  forall s, exists s', foldM f l s = Ok s'.
Proof.
  induction 1 as [|a l Ha _ IH]; intros s; [by eexists|].
  cbn [foldM]. destruct (Ha s) as [s1 ->]. cbn [bind]. apply IH.
Qed.

Lemma foldM_any_state (l : list A) (s s' : S) :
  foldM f l s = Ok s' -> forall s2, exists s2', foldM f l s2 = Ok s2'.
Proof. intros H. eapply Forall_foldM_Ok, foldM_Ok_Forall, H. Qed.

Lemma foldM_Permutation (l l' : list A) (s s' : S) :
  Permutation l l' -> foldM f l s = Ok s' -> exists s'', foldM f l' s = Ok s''.
Proof.
  intros Hperm H. apply Forall_foldM_Ok.
  apply foldM_Ok_Forall in H. rewrite Forall_forall in *.
  intros a Ha. apply H. by rewrite Hperm.
Qed.
End FoldSuccess.

Lemma plan_bit_any_plan (now date : Z) (key : loc_key) (plan : execution_plan)
    (b : bit) (p : execution_plan) :
  plan_bit now date key plan b = Ok p ->
  forall plan2, exists p2, plan_bit now date key plan2 b = Ok p2.
Proof.
  unfold plan_bit. destruct (datetime_add date (minutes (b_off b))) as [d|];
    [|discriminate]. cbn [bind]. intros _ plan2. destruct (d <? now); eauto.
Qed.

Lemma plan_group_action_any_plan (now date : Z) (key : loc_key)
    (plan : execution_plan) (g : group_action) (p : execution_plan) :
  plan_group_action now date key plan g = Ok p ->
  forall plan2, exists p2, plan_group_action now date key plan2 g = Ok p2.
Proof.
  unfold plan_group_action. destruct (datetime_add date (minutes (ga_off g))) as [d|];
    [|discriminate]. cbn [bind]. intros _ plan2. destruct (d <? now); eauto.
Qed.

(** Whether a sun location can be planned does not depend on the plan
    built so far. *)
Lemma plan_location_any_plan (now : Z) (data : value)
    (gas : list (loc_key * list group_action)) (bits : list (loc_key * list bit))
    (plan : execution_plan) (key : loc_key) (p : execution_plan) :
  plan_location now data gas bits plan key = Ok p ->
  forall plan2, exists p2, plan_location now data gas bits plan2 key = Ok p2.
Proof.
  unfold plan_location. intros H plan2.
  destruct (is_nil (get_list gas key) && is_nil (get_list bits key)); [eauto|].
  destruct (subscript data "results") as [results|]; [|discriminate].
  cbn [bind] in *.
  destruct (method_get results (field_of key)) as [dt|]; [|discriminate].
  cbn [bind] in *.
  destruct (_convert dt) as [date|]; [|eauto].
  destruct (foldM (plan_bit now date key) (get_list bits key) plan)
    as [plan1|] eqn:Hb; [|discriminate].
  cbn [bind] in H.
  destruct (foldM_any_state _ (plan_bit_any_plan now date key) _ _ _ Hb plan2)
    as [p1 ->].
  cbn [bind].
  exact (foldM_any_state _ (plan_group_action_any_plan now date key) _ _ _ H p1).
Qed.

Lemma key_iff_nonempty (plan : execution_plan) (t : Z) :
  Forall (fun kv => snd kv <> []) plan ->
  In t (keys plan) <-> get_list plan t <> [].
Proof.
  intros Hne. unfold get_list. destruct (get plan t) as [l|] eqn:Hget.
  - split.
    + intros _. apply get_In in Hget. rewrite Forall_forall in Hne.
      exact (Hne (t, l) ltac:(apply list_elem_of_In, Hget)).
    + intros _. destruct (get_keys plan t) as [_ Hk].
      destruct (decide (t ∈ keys plan)) as [Hin|Hnin]; [by apply list_elem_of_In|].
      rewrite Hk in Hget; [discriminate|]. intros Hin. by apply Hnin, list_elem_of_In.
  - apply get_keys in Hget. tauto.
Qed.

(** X17. The set of sun locations is visited in an order Python leaves
    open. That order decides neither whether the plan can be built, nor
    which fire times it has, nor which entries stand at a fire time: for
    two orders that are permutations of each other, the second build
    succeeds when the first does, the fire times are the same, and the
    entries at each fire time are the same up to their order. *)
Theorem plan_is_independent_of_set_order (now : Z) (data : value)
    (gas : list (loc_key * list group_action)) (bits : list (loc_key * list bit))
    (order order' : list loc_key) (plan : execution_plan) :
  Permutation order order' ->
  build_plan now data gas bits order = Ok plan ->
  exists plan',
    build_plan now data gas bits order' = Ok plan'
    /\ Permutation (keys plan) (keys plan')
    /\ forall t, Permutation (get_list plan t) (get_list plan' t).
Proof.
  intros Hperm Hplan. unfold build_plan in *.
  destruct (foldM_Permutation _ (plan_location_any_plan now data gas bits)
              _ _ _ _ Hperm Hplan) as [plan' Hplan'].
  exists plan'. split; [exact Hplan'|].
  apply build_plan_planned in Hplan as [(Hnd & _ & Hne) Hget].
  apply build_plan_planned in Hplan' as [(Hnd' & _ & Hne') Hget'].
  assert (Hentries : forall t, Permutation (get_list plan t) (get_list plan' t)).
  { intros t. rewrite Hget, Hget'. unfold planned.
    by apply Permutation_flat_map. }
  split; [|exact Hentries].
  apply NoDup_Permutation; [exact Hnd | exact Hnd'|]. intros t.
  rewrite !list_elem_of_In, !key_iff_nonempty by assumption.
  specialize (Hentries t). split; intros Hn Hnil; apply Hn.
  - rewrite Hnil in Hentries. by apply Permutation_nil_r in Hentries.
  - rewrite Hnil in Hentries. by apply Permutation_nil in Hentries.
Qed.

Lemma plan_is_independent_of_set_order_witness :
  exists plan',
    build_plan midnight_2024_06_21 solar_answer index_group_actions index_bits
      [KStr "civil dawn"; KStr "sunrise"] = Ok plan'
    /\ Permutation (keys built_plan) (keys plan')
    /\ forall t, Permutation (get_list built_plan t) (get_list plan' t).
Proof.
  refine (plan_is_independent_of_set_order midnight_2024_06_21 solar_answer
            index_group_actions index_bits [KStr "sunrise"; KStr "civil dawn"]
            [KStr "civil dawn"; KStr "sunrise"] built_plan _ _).
  - apply perm_swap.
  - vm_compute. reflexivity.
Defined.

(** ** Documents of version 2.0 and 3.0 *)

Lemma migrate_lists_of_version (v : ConfigurationVersion) (doc : gmap string value) :
  _determine_configuration_version doc = Ok v ->
  v = V2_0 \/ v = V3_0 ->
  match v with
  | V1_0 => _migrate_configuration_v1 doc
  | V2_0 => _migrate_configuration_v2 doc
  | V3_0 => _migrate_configuration_v3 doc
  end = migrate_lists doc.
Proof.
  intros Hv [-> | ->];
    unfold _migrate_configuration_v2, _migrate_configuration_v3; rewrite Hv;
    reflexivity.
Qed.

(** X18. Documents of version 2.0 and 3.0 are read by the same rules, and
    the version itself leaves no trace: two documents detected as 2.0 or
    3.0 that agree on [coordinates], [basic_configuration] and
    [advanced_configuration] have the same outcome, result or exception,
    and leave the factory in the same state. *)
Theorem lists_documents_are_read_alike (py : interpreter)
    (self : ConfigurationFactory) (doc doc' : gmap string value)
    (v v' : ConfigurationVersion) :
  _determine_configuration_version doc = Ok v -> v = V2_0 \/ v = V3_0 ->
  _determine_configuration_version doc' = Ok v' -> v' = V2_0 \/ v' = V3_0 ->
  doc !! "coordinates" = doc' !! "coordinates" ->
  doc !! "basic_configuration" = doc' !! "basic_configuration" ->
  doc !! "advanced_configuration" = doc' !! "advanced_configuration" ->
  parse_configuration py self doc = parse_configuration py self doc'.
Proof.
  intros Hv Hv23 Hv' Hv23' Hc Hb Ha. unfold parse_configuration.
  rewrite Hv, Hv'. cbn zeta.
  rewrite (migrate_lists_of_version v doc Hv Hv23).
  rewrite (migrate_lists_of_version v' doc' Hv' Hv23').
  assert (Heq : migrate_lists doc = migrate_lists doc').
  { unfold migrate_lists, dict_get. rewrite Hc, Hb, Ha. reflexivity. }
  rewrite Heq. reflexivity.
Qed.

Lemma lists_documents_are_read_alike_witness :
  parse_configuration Py312 (mkFactory None) test_doc_v2
  = parse_configuration Py312 (mkFactory None)
      (<["version" := VStr "3.0"]> test_doc_v2).
Proof.
  exact (lists_documents_are_read_alike Py312 (mkFactory None) test_doc_v2
           (<["version" := VStr "3.0"]> test_doc_v2) V2_0 V3_0
           eq_refl (or_introl eq_refl) eq_refl (or_intror eq_refl)
           eq_refl eq_refl eq_refl).
Defined.

(** ** From the configuration to the plan *)

(** X19. An automation job of the configuration reaches the plan: after
    [_read_config] has read a configuration, an automation job with id
    [id] at sun location [m] with offset [off] has an entry in every
    plan built afterwards from an answer that gives [m] an event time,
    at that time plus [off] minutes, provided this is not before [now]
    and the text of [m] is among the locations visited. *)
Theorem configured_automation_is_planned (py : interpreter) (self self' : Plugin)
    (c : Configuration) (j : GroupActionJob) (m : SunLocation)
    (now date : Z) (data : value) (order : list loc_key) (plan : execution_plan) :
  fst (parse_configuration py (config_factory self) (_config self)) = Ok c ->
  _read_config py true self = Some (None, self') ->
  In j (group_action_jobs c) ->
  ga_sun_location j = VSun m ->
  In (KStr (sun_value m)) order ->
  event_time data (KStr (sun_value m)) = Some date ->
  now <= date + minutes (number_value (ga_offset j)) ->
  build_plan now data (_group_actions (astro self')) (_bits (astro self')) order
  = Ok plan ->
  In (mkEntry (TGroupAction (number_value (group_action_id j)))
        (source_label (KStr (sun_value m)) (number_value (ga_offset j))))
     (get_list plan (date + minutes (number_value (ga_offset j)))).
Proof.
  intros Hp Hrun Hj Hm Horder Hev Hnow Hplan.
  destruct (parse_configuration py (config_factory self) (_config self))
    as [r f] eqn:Hparse. cbn [fst] in Hp. subst r.
  destruct (read_config_Ok py self c f Hparse)
    as (co & gas & bits & _ & Hrun' & Hg & _).
  rewrite Hrun' in Hrun. injection Hrun as <-.
  cbn [finish_read_config set_astro astro set_last_request_date set_enabled
         set_bits set_group_actions _group_actions _bits] in Hplan.
  destruct (group_action_jobs c) as [|j0 js] eqn:Hjobs; [destruct Hj|].
  cbn [is_nil] in Hplan.
  apply build_plan_planned in Hplan as [_ Hget]. rewrite Hget.
  apply planned_In. exists (KStr (sun_value m)), date.
  split; [exact Horder|]. split; [exact Hev|]. split; [exact Hnow|].
  right. exists (mkGroupAction (number_value (group_action_id j))
                   (number_value (ga_offset j))).
  split; [|split; reflexivity].
  rewrite Hg. unfold automations_at. rewrite Hjobs.
  apply in_map_iff. exists j. split; [reflexivity|].
  apply filter_In. split; [exact Hj|].
  apply bool_decide_eq_true_2. by rewrite Hm.
Qed.

Lemma configured_automation_is_planned_witness :
  exists self' plan,
    _read_config Py312 true (fresh_plugin doc_v3_offsets noon) = Some (None, self')
    /\ build_plan midnight_2024_06_21 solar_answer (_group_actions (astro self'))
         (_bits (astro self')) (key_order answering_host) = Ok plan
    /\ In (mkEntry (TGroupAction 5) "sunrise with a -90 min offset")
          (get_list plan (midnight_2024_06_21 + minutes 121 + seconds 47)).
Proof.
  eexists. eexists. split; [vm_compute; reflexivity|].
  split; [vm_compute; reflexivity|].
  refine (configured_automation_is_planned Py312
            (fresh_plugin doc_v3_offsets noon) _ _
            (mkGroupActionJob (VInt 5) (VSun SUNRISE) (VInt (-90))) SUNRISE
            midnight_2024_06_21 (midnight_2024_06_21 + minutes 211 + seconds 47)
            solar_answer (key_order answering_host) _
            eq_refl _ _ eq_refl _ _ _ _).
  - vm_compute. reflexivity.
  - right. left. reflexivity.
  - left. reflexivity.
  - vm_compute. reflexivity.
  - vm_compute. discriminate.
  - vm_compute. reflexivity.
Defined.
